(** * Multi-elevator dispatch: a shallow embedding of the [Lift] and
    [ElevatorSystem] classes and the properties of the dispatch core.

    Floors, passenger counts and lift indices are JavaScript numbers that
    only ever hold integers here; they are modelled by [Z].  The two places
    where the program can produce a non-finite number ([Math.max] and
    [Math.min] of an empty array, and the initial [minTime = Infinity]) are
    modelled by the type [Num].  Console output of the helper is not part of
    the state and is left out. *)

From stdpp Require Import base list strings pretty gmap.
From Stdlib Require Import ZArith Lia Bool Sorted.

Local Open Scope Z_scope.

(** ** Numbers with the two infinities *)

Inductive Num : Type :=
| NegInf
| Fin (z : Z)
| PosInf.

(** [a < b] on numbers. *)
Definition num_ltb (a b : Num) : bool :=
  match a, b with
  | NegInf, NegInf => false
  | NegInf, _ => true
  | Fin _, NegInf => false
  | Fin x, Fin y => x <? y
  | Fin _, PosInf => true
  | PosInf, _ => false
  end.

(** [a === b] on numbers. *)
Definition num_eqb (a b : Num) : bool :=
  match a, b with
  | NegInf, NegInf => true
  | Fin x, Fin y => x =? y
  | PosInf, PosInf => true
  | _, _ => false
  end.

Definition num_max (a b : Num) : Num := if num_ltb a b then b else a.
Definition num_min (a b : Num) : Num := if num_ltb b a then b else a.

(** [Math.max(...xs)]: [-Infinity] on the empty array. *)
Definition math_max (xs : list Z) : Num :=
  fold_left (fun acc x => num_max acc (Fin x)) xs NegInf.

(** [Math.min(...xs)]: [Infinity] on the empty array. *)
Definition math_min (xs : list Z) : Num :=
  fold_left (fun acc x => num_min acc (Fin x)) xs PosInf.

(** ** Requests and directions *)

Record Request : Type := mkRequest { start : Z; dest : Z }.

(** ['U' | 'D' | 'I'] *)
Inductive Direction : Type := Up | Down | Idle.

Definition direction_eqb (a b : Direction) : bool :=
  match a, b with
  | Up, Up | Down, Down | Idle, Idle => true
  | _, _ => false
  end.

(** ** class Lift *)

Module Lift.

Record t : Type := make {
  id : Z;
  totalFloors : Z;
  currentFloor : Z;
  direction : Direction;
  requests : list Request;
  passengers : Z
}.

(** The constructor. *)
Definition new (id totalFloors : Z) : t :=
  {| id := id; totalFloors := totalFloors; currentFloor := 0;
     direction := Idle; requests := []; passengers := 0 |}.

Definition isIdle (l : t) : bool :=
  direction_eqb (direction l) Idle && (length (requests l) =? 0)%nat.

(** The farthest floor of the requests that travel the way the lift does,
    as [canAddRequest] computes it in its last branch. *)
Definition maxFloorInCurrentDirection (l : t) (liftGoingUp : bool) : Num :=
  if liftGoingUp
  then math_max (map (fun r => Z.max (start r) (dest r))
                     (List.filter (fun r => start r <? dest r) (requests l)))
  else math_min (map (fun r => Z.min (start r) (dest r))
                     (List.filter (fun r => start r >? dest r) (requests l))).

Definition canAddRequest (l : t) (start0 dest0 : Z) : bool :=
  if passengers l >=? 10 then false
  else if isIdle l then true
  else
    let requestGoingUp := start0 <? dest0 in
    let liftGoingUp := direction_eqb (direction l) Up in
    if liftGoingUp && requestGoingUp then
      if currentFloor l >? start0 then false else true
    else if negb liftGoingUp && negb requestGoingUp then
      if currentFloor l <? start0 then false else true
    else
      let hasOppositeDirectionRequests :=
        existsb (fun r => negb (eqb (start r <? dest r) requestGoingUp))
                (requests l) in
      if hasOppositeDirectionRequests then
        let m := maxFloorInCurrentDirection l liftGoingUp in
        if liftGoingUp && requestGoingUp && num_ltb m (Fin start0) then false
        else if negb liftGoingUp && negb requestGoingUp
                && num_ltb (Fin start0) m then false
        else true
      else true.

(** The loop of [calculateTimeToReach] that finds the floor where the lift
    turns around. *)
Definition turnaround (l : t) (liftGoingUp : bool) : Z :=
  fold_left
    (fun maxFloor req =>
       if liftGoingUp
       then Z.max (Z.max maxFloor (start req)) (dest req)
       else Z.min (Z.min maxFloor (start req)) (dest req))
    (requests l) (currentFloor l).

Definition calculateTimeToReach (l : t) (start0 : Z)
    (requestDirection : Direction) : Z :=
  if isIdle l then Z.abs (currentFloor l - start0)
  else
    let liftGoingUp := direction_eqb (direction l) Up in
    let requestGoingUp := direction_eqb requestDirection Up in
    if eqb liftGoingUp requestGoingUp && liftGoingUp
       && (start0 >=? currentFloor l)
    then start0 - currentFloor l
    else if eqb liftGoingUp requestGoingUp && negb liftGoingUp
            && (start0 <=? currentFloor l)
    then currentFloor l - start0
    else
      let maxFloor := turnaround l liftGoingUp in
      if liftGoingUp
      then (maxFloor - currentFloor l) + (maxFloor - start0)
      else (currentFloor l - maxFloor) + (start0 - maxFloor).

Definition hasUpRequests (l : t) : bool :=
  existsb (fun r => (start r >? currentFloor l)
                    || (dest r >? currentFloor l)
                    || ((start r <? dest r) && (start r >=? currentFloor l)))
          (requests l).

Definition hasDownRequests (l : t) : bool :=
  existsb (fun r => (start r <? currentFloor l)
                    || (dest r <? currentFloor l)
                    || ((start r >? dest r) && (start r <=? currentFloor l)))
          (requests l).

Definition setDirection (l : t) (d : Direction) : t :=
  {| id := id l; totalFloors := totalFloors l; currentFloor := currentFloor l;
     direction := d; requests := requests l; passengers := passengers l |}.

Definition updateDirection (l : t) : t :=
  if (length (requests l) =? 0)%nat then setDirection l Idle
  else if direction_eqb (direction l) Up && hasUpRequests l
  then setDirection l Up
  else if direction_eqb (direction l) Down && hasDownRequests l
  then setDirection l Down
  else if hasUpRequests l then setDirection l Up
  else if hasDownRequests l then setDirection l Down
  else setDirection l Idle.

Definition addRequest (l : t) (start0 dest0 : Z) : t :=
  updateDirection
    {| id := id l; totalFloors := totalFloors l;
       currentFloor := currentFloor l; direction := direction l;
       requests := requests l ++ [mkRequest start0 dest0];
       passengers := passengers l + 1 |}.

Definition move (l : t) : t :=
  let floor :=
    match direction l with
    | Up => currentFloor l + 1
    | Down => currentFloor l - 1
    | Idle => currentFloor l
    end in
  let completedRequests :=
    List.filter (fun r => dest r =? floor) (requests l) in
  let passengers' := passengers l - Z.of_nat (length completedRequests) in
  let requests1 :=
    List.filter (fun r => negb (dest r =? floor)) (requests l) in
  let requests2 :=
    List.filter (fun r => negb (start r =? floor)) requests1 in
  updateDirection
    {| id := id l; totalFloors := totalFloors l; currentFloor := floor;
       direction := direction l; requests := requests2;
       passengers := passengers' |}.

End Lift.

(** ** class ElevatorSystem *)

Module ElevatorSystem.

Record t : Type := make {
  lifts : list Lift.t;
  totalFloors : Z
}.

(** [init(floors, lifts, helper)]: one fresh lift per index below the
    count. *)
Definition init (floors liftCount : Z) : t :=
  {| lifts := map (fun i => Lift.new (Z.of_nat i) floors)
                  (seq 0 (Z.to_nat liftCount));
     totalFloors := floors |}.

(** The selection loop of [requestLift] from index [i] on, threading
    [bestLift] and [minTime]. *)
Fixpoint selectLift (ls : list Lift.t) (i : Z) (startFloor destinationFloor : Z)
    (requestDirection : Direction) (bestLift : Z) (minTime : Num)
    : Z * Num :=
  match ls with
  | [] => (bestLift, minTime)
  | lift :: rest =>
      if Lift.canAddRequest lift startFloor destinationFloor then
        let time := Lift.calculateTimeToReach lift startFloor requestDirection in
        if num_ltb (Fin time) minTime
           || (num_eqb (Fin time) minTime && (bestLift =? -1))
        then selectLift rest (i + 1) startFloor destinationFloor
                        requestDirection i (Fin time)
        else selectLift rest (i + 1) startFloor destinationFloor
                        requestDirection bestLift minTime
      else selectLift rest (i + 1) startFloor destinationFloor
                      requestDirection bestLift minTime
  end.

(** [requestLift] returns the chosen index and the system after the call.
    [bestLift], when it is not -1, is an index of [lifts], so the update in
    place is [alter] at that index. *)
Definition requestLift (sys : t) (startFloor destinationFloor : Z) : Z * t :=
  let requestDirection :=
    if startFloor <? destinationFloor then Up else Down in
  let bestLift :=
    fst (selectLift (lifts sys) 0 startFloor destinationFloor
                    requestDirection (-1) PosInf) in
  if negb (bestLift =? -1)
  then (bestLift,
        {| lifts := alter (fun l => Lift.addRequest l startFloor
                                                    destinationFloor)
                          (Z.to_nat bestLift) (lifts sys);
           totalFloors := totalFloors sys |})
  else (bestLift, sys).

Definition tick (sys : t) : t :=
  {| lifts := map Lift.move (lifts sys); totalFloors := totalFloors sys |}.

(** [this.lifts[liftId]]: [None] stands for [undefined]. *)
Definition liftAt (sys : t) (liftId : Z) : option Lift.t :=
  if liftId <? 0 then None else lifts sys !! Z.to_nat liftId.

(** [this.lifts[liftId]?.passengers || 0] *)
Definition getNumberOfPeopleOnLift (sys : t) (liftId : Z) : Z :=
  match liftAt sys liftId with
  | Some lift => if Lift.passengers lift =? 0 then 0 else Lift.passengers lift
  | None => 0
  end.

(** The loop of [getLiftsStoppingOnFloor] from index [i] on; [push] keeps
    the indices in the order of the loop. *)
Fixpoint stoppingFrom (ls : list Lift.t) (i : Z) (floor : Z)
    (moveDirection : Direction) : list Z :=
  match ls with
  | [] => []
  | lift :: rest =>
      let willStop :=
        existsb (fun r => (start r =? floor) || (dest r =? floor))
                (Lift.requests lift) in
      if willStop && (direction_eqb moveDirection Idle
                      || direction_eqb (Lift.direction lift) moveDirection)
      then i :: stoppingFrom rest (i + 1) floor moveDirection
      else stoppingFrom rest (i + 1) floor moveDirection
  end.

Definition getLiftsStoppingOnFloor (sys : t) (floor : Z)
    (moveDirection : Direction) : list Z :=
  stoppingFrom (lifts sys) 0 floor moveDirection.

(** [`${lift.currentFloor}-${lift.direction}`] *)
Definition directionString (d : Direction) : string :=
  match d with
  | Up => "U"
  | Down => "D"
  | Idle => "I"
  end.

Definition liftState (lift : Lift.t) : string :=
  pretty (Lift.currentFloor lift)
  +:+ ("-" +:+ directionString (Lift.direction lift)).

Definition getLiftStates (sys : t) : list string :=
  map liftState (lifts sys).

End ElevatorSystem.

(** ** Runs of the program *)




(** Calls on the system. *)
Inductive SysOp : Type :=
| OpRequest (startFloor destinationFloor : Z)
| OpTick.

Definition sys_step (sys : ElevatorSystem.t) (op : SysOp) : ElevatorSystem.t :=
  match op with
  | OpRequest s d => snd (ElevatorSystem.requestLift sys s d)
  | OpTick => ElevatorSystem.tick sys
  end.

Definition sys_run (ops : list SysOp) (sys : ElevatorSystem.t)
    : ElevatorSystem.t :=
  fold_left sys_step ops sys.



(** A call on the system whose request has two different floors. *)
Definition request_proper (op : SysOp) : bool :=
  match op with
  | OpRequest s d => negb (s =? d)
  | OpTick => true
  end.

(** A request whose floors lie in [[0, floors - 1]]. *)
Definition floor_ok (floors f : Z) : bool := (0 <=? f) && (f <=? floors - 1).

Definition op_in_range (floors : Z) (op : SysOp) : bool :=
  match op with
  | OpRequest s d => floor_ok floors s && floor_ok floors d
  | OpTick => true
  end.

(** The program's own test script. *)
Definition test_script_1 : Z * ElevatorSystem.t :=
  ElevatorSystem.requestLift (ElevatorSystem.init 6 2) 0 3.
Definition test_script_2 : Z * ElevatorSystem.t :=
  ElevatorSystem.requestLift (ElevatorSystem.tick (snd test_script_1)) 0 2.
Definition test_script_3 : Z * ElevatorSystem.t :=
  ElevatorSystem.requestLift (ElevatorSystem.tick (snd test_script_2)) 0 5.
Definition test_script_4 : Z * ElevatorSystem.t :=
  ElevatorSystem.requestLift (snd test_script_3) 1 0.

(** ** Vocabulary of the properties *)

Definition dist (a b : Z) : Z := Z.abs (a - b).

(** The farthest floor of a list of committed requests: the maximum over
    the start and the dest of each. *)
Definition farthest (rs : list Request) : Num :=
  math_max (flat_map (fun r => [start r; dest r]) rs).

(** Committing a list of requests to a lift, then [k] calls of [move]. *)
Definition commit (rs : list Request) (l : Lift.t) : Lift.t :=
  fold_left (fun l r => Lift.addRequest l (start r) (dest r)) rs l.

Definition advance (k : nat) (l : Lift.t) : Lift.t := Nat.iter k Lift.move l.

(** The lift stands at floor [f] after some [j <= k] moves. *)
Definition reached (k : nat) (l : Lift.t) (f : Z) : bool :=
  existsb (fun j => Lift.currentFloor (advance j l) =? f) (seq 0 (S k)).

(** Some lift of the list accepts the request. *)
Definition someEligible (ls : list Lift.t) (s d : Z) : bool :=
  existsb (fun l => Lift.canAddRequest l s d) ls.

(** The direction of a request as [requestLift] computes it. *)
Definition requestDirectionOf (s d : Z) : Direction :=
  if s <? d then Up else Down.

(** Every committed request has two different floors. *)
Definition proper_requests (l : Lift.t) : Prop :=
  Forall (fun r => start r <> dest r) (Lift.requests l).


(** What a lift keeps true along a run whose requests are in range. *)
Record lift_in_range (floors : Z) (l : Lift.t) : Prop := {
  lir_floor : 0 <= Lift.currentFloor l <= floors - 1;
  lir_requests :
    Forall (fun r => 0 <= start r <= floors - 1 /\ 0 <= dest r <= floors - 1)
           (Lift.requests l);
  lir_up : Lift.direction l = Up -> Lift.hasUpRequests l = true;
  lir_down : Lift.direction l = Down -> Lift.hasDownRequests l = true
}.

(** Every pending request was counted as a passenger, and the count is at
    most the capacity. *)
Definition load_ok (l : Lift.t) : Prop :=
  Z.of_nat (length (Lift.requests l)) <= Lift.passengers l <= 10.

(** The floor a lift stands at after its next move. *)
Definition nextFloor (l : Lift.t) : Z :=
  match Lift.direction l with
  | Up => Lift.currentFloor l + 1
  | Down => Lift.currentFloor l - 1
  | Idle => Lift.currentFloor l
  end.

(** The accumulator of the selection loop: no lift chosen and
    [minTime = Infinity], or a lift chosen and a finite [minTime]. *)
Definition acc_ok (bestLift : Z) (minTime : Num) : Prop :=
  match minTime with
  | PosInf => bestLift = -1
  | Fin _ => 0 <= bestLift
  | NegInf => False
  end.

(** The lift [i] of the system reached from [init floors n] by [ops]. *)
Definition lift_after (floors n : Z) (ops : list SysOp) (i : nat)
    : option Lift.t :=
  ElevatorSystem.lifts (sys_run ops (ElevatorSystem.init floors n)) !! i.

(** A lift on its way up from floor 1 with one request, from 0 to [top]. *)
Definition lift_sweeping_to (floors top : Z) : Lift.t :=
  {| Lift.id := 0; Lift.totalFloors := floors; Lift.currentFloor := 1;
     Lift.direction := Up; Lift.requests := [mkRequest 0 top];
     Lift.passengers := 1 |}.

(** * The seat booking classes

    A seat object is created once, at one place of the grid of its screen,
    and is only ever reached through that grid or through a reference handed
    out by [findBestSeats]; a reference to a seat is modelled by its place
    [(row index, column index)] in the grid.  The grid of a screen has
    [rows] rows of [columns] seats from the constructor on, so the loops
    over [row < rows] and [col < columns] are loops over the grid. *)

Definition SeatRef : Type := nat * nat.

(** ** class Seat *)

Module Seat.

Record t : Type := make {
  row : Z;
  column : Z;
  isBooked : bool;
  ticketId : option string
}.

Definition new (row column : Z) : t :=
  {| row := row; column := column; isBooked := false; ticketId := None |}.

Definition book (s : t) (ticket : string) : t :=
  {| row := row s; column := column s; isBooked := true;
     ticketId := Some ticket |}.

Definition cancel (s : t) : t :=
  {| row := row s; column := column s; isBooked := false; ticketId := None |}.

(** [`${this.row}-${this.column}`] *)
Definition toString (s : t) : string :=
  pretty (row s) +:+ "-" +:+ pretty (column s).

End Seat.

(** ** class Screen *)

Module Screen.

Record t : Type := make {
  screenIndex : Z;
  rows : Z;
  columns : Z;
  seats : list (list Seat.t)
}.

(** The constructor with [initializeSeats]. *)
Definition new (screenIndex rows columns : Z) : t :=
  {| screenIndex := screenIndex; rows := rows; columns := columns;
     seats := map (fun r => map (fun c => Seat.new (Z.of_nat r) (Z.of_nat c))
                                (seq 0 (Z.to_nat columns)))
                  (seq 0 (Z.to_nat rows)) |}.

Definition setSeats (s : t) (g : list (list Seat.t)) : t :=
  {| screenIndex := screenIndex s; rows := rows s; columns := columns s;
     seats := g |}.

Definition getFreeSeatsCount (s : t) : Z :=
  fold_left
    (fun count row =>
       fold_left (fun count seat =>
                    if negb (Seat.isBooked seat) then count + 1 else count)
                 row count)
    (seats s) 0.

(** The inner loop of the search for seats side by side: the column at
    which [consecutive] reaches [count], if it does in this row. *)
Fixpoint scanRow (rowSeats : list Seat.t) (col : nat) (consecutive count : Z)
    : option nat :=
  match rowSeats with
  | [] => None
  | seat :: rest =>
      if negb (Seat.isBooked seat) then
        if consecutive + 1 =? count then Some col
        else scanRow rest (S col) (consecutive + 1) count
      else scanRow rest (S col) 0 count
  end.

(** The outer loop: the first row, and the column in it, where the inner
    loop succeeds. *)
Fixpoint findRun (grid : list (list Seat.t)) (row : nat) (count : Z)
    : option (nat * nat) :=
  match grid with
  | [] => None
  | rowSeats :: rest =>
      match scanRow rowSeats 0 0 count with
      | Some col => Some (row, col)
      | None => findRun rest (S row) count
      end
  end.

(** [this.seats[row].slice(begin, end)] as references, for
    [0 <= begin <= end] within the row. *)
Definition sliceRefs (row : nat) (begin end_ : Z) : list SeatRef :=
  map (fun c => (row, c)) (seq (Z.to_nat begin) (Z.to_nat (end_ - begin))).

(** The loops that pick single free seats, lowest row and column first,
    while fewer than [count] are picked. *)
Fixpoint collectRow (rowSeats : list Seat.t) (row col : nat) (count : Z)
    (availableSeats : list SeatRef) : list SeatRef :=
  match rowSeats with
  | [] => availableSeats
  | seat :: rest =>
      if Z.of_nat (length availableSeats) <? count then
        collectRow rest row (S col) count
          (if negb (Seat.isBooked seat)
           then availableSeats ++ [(row, col)] else availableSeats)
      else availableSeats
  end.

Fixpoint collectRows (grid : list (list Seat.t)) (row : nat) (count : Z)
    (availableSeats : list SeatRef) : list SeatRef :=
  match grid with
  | [] => availableSeats
  | rowSeats :: rest =>
      if Z.of_nat (length availableSeats) <? count then
        collectRows rest (S row) count
          (collectRow rowSeats row 0 count availableSeats)
      else availableSeats
  end.

Definition findBestSeats (s : t) (count : Z) : list SeatRef :=
  match findRun (seats s) 0 count with
  | Some (row, col) =>
      sliceRefs row (Z.of_nat col - count + 1) (Z.of_nat col + 1)
  | None =>
      let availableSeats := collectRows (seats s) 0 count [] in
      if Z.of_nat (length availableSeats) =? count then availableSeats else []
  end.

(** The seat a reference points to. *)
Definition seatAt (s : t) (ref : SeatRef) : option Seat.t :=
  seats s !! fst ref ≫= fun rowSeats => rowSeats !! snd ref.

Definition bookSeats (s : t) (refs : list SeatRef) (ticket : string) : t :=
  setSeats s
    (fold_left
       (fun g ref => alter (alter (fun seat => Seat.book seat ticket) (snd ref))
                           (fst ref) g)
       refs (seats s)).

(** [seat.ticketId === ticketId] *)
Definition hasTicket (seat : Seat.t) (ticket : string) : bool :=
  match Seat.ticketId seat with
  | Some t => String.eqb t ticket
  | None => false
  end.

Fixpoint cancelledInRow (rowSeats : list Seat.t) (row col : nat)
    (ticket : string) : list SeatRef :=
  match rowSeats with
  | [] => []
  | seat :: rest =>
      if hasTicket seat ticket
      then (row, col) :: cancelledInRow rest row (S col) ticket
      else cancelledInRow rest row (S col) ticket
  end.

Fixpoint cancelledIn (grid : list (list Seat.t)) (row : nat) (ticket : string)
    : list SeatRef :=
  match grid with
  | [] => []
  | rowSeats :: rest =>
      cancelledInRow rowSeats row 0 ticket ++ cancelledIn rest (S row) ticket
  end.

(** [cancelSeats] returns the seats it cancelled and leaves the screen with
    them free. *)
Definition cancelSeats (s : t) (ticket : string) : list SeatRef * t :=
  (cancelledIn (seats s) 0 ticket,
   setSeats s
     (map (map (fun seat =>
                  if hasTicket seat ticket then Seat.cancel seat else seat))
          (seats s))).

End Screen.

(** ** class Show *)

Module Show.

(** [screen] is a reference to a screen object; the methods below take the
    screen it points to and give back the screen after the call. *)
Record t : Type := make {
  showId : Z;
  movieId : Z;
  cinemaId : Z;
  startTime : Z;
  endTime : Z;
  screen : nat;
  bookedTickets : gmap string (list SeatRef)
}.

Definition setBookedTickets (sh : t) (m : gmap string (list SeatRef)) : t :=
  {| showId := showId sh; movieId := movieId sh; cinemaId := cinemaId sh;
     startTime := startTime sh; endTime := endTime sh; screen := screen sh;
     bookedTickets := m |}.

(** [availableSeats.map(seat => seat.toString())] *)
Definition seatLabels (scr : Screen.t) (refs : list SeatRef) : list string :=
  omap (fun ref => Seat.toString <$> Screen.seatAt scr ref) refs.

Definition book (sh : t) (scr : Screen.t) (ticket : string) (count : Z)
    : list string * t * Screen.t :=
  let availableSeats := Screen.findBestSeats scr count in
  if negb (Z.of_nat (length availableSeats) =? count) then ([], sh, scr)
  else
    let scr' := Screen.bookSeats scr availableSeats ticket in
    (seatLabels scr' availableSeats,
     setBookedTickets sh (<[ticket := availableSeats]> (bookedTickets sh)),
     scr').

Definition cancel (sh : t) (scr : Screen.t) (ticket : string)
    : bool * t * Screen.t :=
  match bookedTickets sh !! ticket with
  | None => (false, sh, scr)
  | Some _ =>
      (true,
       setBookedTickets sh (delete ticket (bookedTickets sh)),
       snd (Screen.cancelSeats scr ticket))
  end.

Definition getFreeSeatsCount (sh : t) (scr : Screen.t) : Z :=
  Screen.getFreeSeatsCount scr.

End Show.

(** The booking test of the program: a screen of 5 rows of 10 seats, a show
    on it, four seats for ticket [tkt-1]. *)
Definition test_show : Show.t :=
  {| Show.showId := 1; Show.movieId := 4; Show.cinemaId := 0;
     Show.startTime := 1710516108725; Show.endTime := 1710523308725;
     Show.screen := 0; Show.bookedTickets := ∅ |}.

Definition test_booking : list string * Show.t * Screen.t :=
  Show.book test_show (Screen.new 1 5 10) "tkt-1" 4.

(** ** A JavaScript [Map] with number keys

    Entries keep the order in which their keys were first set; setting a key
    that is present replaces its value in place. *)

Definition jsmap_get {V} (m : list (Z * V)) (k : Z) : option V :=
  snd <$> List.find (fun p => fst p =? k) m.

Definition jsmap_set {V} (m : list (Z * V)) (k : Z) (v : V) : list (Z * V) :=
  if existsb (fun p => fst p =? k) m
  then map (fun p => if fst p =? k then (k, v) else p) m
  else m ++ [(k, v)].

Definition jsmap_values {V} (m : list (Z * V)) : list V := map snd m.

(** ** [Array.prototype.sort] with a comparator

    The sort is stable.  For a comparator that orders the elements
    consistently, as the two comparators of the program do, its result is
    the one arrangement in which [cmp a b <= 0] holds along the array and
    elements that compare equal keep their order; the insertion sort below
    computes that arrangement. *)

Fixpoint sort_insert {A} (cmp : A -> A -> Z) (x : A) (sorted : list A)
    : list A :=
  match sorted with
  | [] => [x]
  | y :: rest =>
      if cmp x y <=? 0 then x :: y :: rest else y :: sort_insert cmp x rest
  end.

Definition js_sort {A} (cmp : A -> A -> Z) (l : list A) : list A :=
  fold_right (sort_insert cmp) [] l.

(** ** class Cinema

    Screens and shows are objects that several places hold references to: a
    screen is held by its cinema and by every show on it, a show by its
    cinema and by the system's map.  They live in two heaps, lists indexed
    by address, and a reference is an address. *)

Module Cinema.

Record t : Type := make {
  cinemaId : Z;
  cityId : Z;
  screens : list nat;
  shows : list nat
}.

(** The constructor: the new screens go to the end of the screen heap. *)
Definition new (screenHeap : list Screen.t)
    (cinemaId cityId screenCount screenRows screenColumns : Z)
    : t * list Screen.t :=
  ({| cinemaId := cinemaId; cityId := cityId;
      screens := seq (length screenHeap) (Z.to_nat screenCount);
      shows := [] |},
   screenHeap
   ++ map (fun i => Screen.new (Z.of_nat i + 1) screenRows screenColumns)
          (seq 0 (Z.to_nat screenCount))).

Definition addShow (c : t) (show : nat) : t :=
  {| cinemaId := cinemaId c; cityId := cityId c; screens := screens c;
     shows := shows c ++ [show] |}.

(** The comparator of [getShowsForMovie]. *)
Definition compareShows (a b : Show.t) : Z :=
  if negb (Show.startTime b =? Show.startTime a)
  then Show.startTime b - Show.startTime a
  else Show.showId a - Show.showId b.

Definition getShowsForMovie (showHeap : list Show.t) (c : t) (movieId : Z)
    : list Show.t :=
  js_sort compareShows
    (List.filter (fun show => Show.movieId show =? movieId)
                 (omap (fun a => showHeap !! a) (shows c))).

End Cinema.

(** ** class MovieTicketBookingSystem *)

Module MovieTicketBookingSystem.

Record t : Type := make {
  cinemas : list (Z * Cinema.t);
  shows : list (Z * nat);
  screenHeap : list Screen.t;
  showHeap : list Show.t
}.

(** [init]: both maps are cleared; no object made before can be reached
    any more. *)
Definition init : t :=
  {| cinemas := []; shows := []; screenHeap := []; showHeap := [] |}.

Definition addCinema (sys : t)
    (cinemaId cityId screenCount screenRows screenColumns : Z) : t :=
  let '(cinema, heap) :=
    Cinema.new (screenHeap sys) cinemaId cityId screenCount screenRows
               screenColumns in
  {| cinemas := jsmap_set (cinemas sys) cinemaId cinema;
     shows := shows sys; screenHeap := heap; showHeap := showHeap sys |}.

Definition addShow (sys : t)
    (showId movieId cinemaId screenIndex startTime endTime : Z) : t :=
  match jsmap_get (cinemas sys) cinemaId with
  | None => sys
  | Some cinema =>
      if (screenIndex <? 1)
         || (screenIndex >? Z.of_nat (length (Cinema.screens cinema)))
      then sys
      else
        match Cinema.screens cinema !! Z.to_nat (screenIndex - 1) with
        | None => sys
        | Some screen =>
            let show :=
              {| Show.showId := showId; Show.movieId := movieId;
                 Show.cinemaId := cinemaId; Show.startTime := startTime;
                 Show.endTime := endTime; Show.screen := screen;
                 Show.bookedTickets := ∅ |} in
            let address := length (showHeap sys) in
            {| cinemas := jsmap_set (cinemas sys) cinemaId
                                    (Cinema.addShow cinema address);
               shows := jsmap_set (shows sys) showId address;
               screenHeap := screenHeap sys;
               showHeap := showHeap sys ++ [show] |}
        end
  end.

(** The show a show id stands for, with its address and its screen. *)
Definition showOf (sys : t) (showId : Z) : option (nat * Show.t * Screen.t) :=
  address ← jsmap_get (shows sys) showId;
  show ← showHeap sys !! address;
  screen ← screenHeap sys !! Show.screen show;
  Some (address, show, screen).

(** The system after a method of the show at [address] has left the show
    as [show'] and its screen as [screen']. *)
Definition store (sys : t) (address : nat) (show' : Show.t)
    (screen' : Screen.t) : t :=
  {| cinemas := cinemas sys; shows := shows sys;
     screenHeap := <[Show.screen show' := screen']> (screenHeap sys);
     showHeap := <[address := show']> (showHeap sys) |}.

Definition bookTicket (sys : t) (ticketId : string) (showId ticketsCount : Z)
    : list string * t :=
  match showOf sys showId with
  | None => ([], sys)
  | Some (address, show, screen) =>
      let '(seats, show', screen') :=
        Show.book show screen ticketId ticketsCount in
      (seats, store sys address show' screen')
  end.

(** The loop of [cancelTicket] over [this.shows.values()]. *)
Fixpoint cancelIn (sys : t) (addresses : list nat) (ticketId : string)
    : bool * t :=
  match addresses with
  | [] => (false, sys)
  | address :: rest =>
      match showHeap sys !! address with
      | None => cancelIn sys rest ticketId
      | Some show =>
          match screenHeap sys !! Show.screen show with
          | None => cancelIn sys rest ticketId
          | Some screen =>
              let '(done, show', screen') :=
                Show.cancel show screen ticketId in
              if done then (true, store sys address show' screen')
              else cancelIn sys rest ticketId
          end
      end
  end.

Definition cancelTicket (sys : t) (ticketId : string) : bool * t :=
  cancelIn sys (jsmap_values (shows sys)) ticketId.

Definition getFreeSeatsCount (sys : t) (showId : Z) : Z :=
  match showOf sys showId with
  | Some (_, show, screen) => Show.getFreeSeatsCount show screen
  | None => 0
  end.

Definition listCinemas (sys : t) (movieId cityId : Z) : list Z :=
  js_sort (fun a b => a - b)
    (map Cinema.cinemaId
       (List.filter
          (fun cinema =>
             (Cinema.cityId cinema =? cityId)
             && existsb (fun show => Show.movieId show =? movieId)
                        (omap (fun a => showHeap sys !! a)
                              (Cinema.shows cinema)))
          (jsmap_values (cinemas sys)))).

Definition listShows (sys : t) (movieId cinemaId : Z) : list Z :=
  match jsmap_get (cinemas sys) cinemaId with
  | None => []
  | Some cinema =>
      map Show.showId (Cinema.getShowsForMovie (showHeap sys) cinema movieId)
  end.

End MovieTicketBookingSystem.

(** The set-up of the program's test: one cinema with four screens of 5 rows
    of 10 seats, show 1 on screen 1 and show 2 on screen 3. *)
Definition test_system : MovieTicketBookingSystem.t :=
  MovieTicketBookingSystem.addShow
    (MovieTicketBookingSystem.addShow
       (MovieTicketBookingSystem.addCinema MovieTicketBookingSystem.init
                                           0 1 4 5 10)
       1 4 0 1 1710516108725 1710523308725)
    2 11 0 3 1710516108725 1710523308725.

(** One cinema with two screens and five shows, four of them of movie 4:
    two start together at 300, one at 200 and one at 100; they are added in
    another order than the one they are listed in. *)
Definition test_listing_system : MovieTicketBookingSystem.t :=
  MovieTicketBookingSystem.addShow
    (MovieTicketBookingSystem.addShow
       (MovieTicketBookingSystem.addShow
          (MovieTicketBookingSystem.addShow
             (MovieTicketBookingSystem.addShow
                (MovieTicketBookingSystem.addCinema
                   MovieTicketBookingSystem.init 0 1 2 5 10)
                7 4 0 1 100 150)
             5 4 0 2 300 350)
          9 4 0 1 200 250)
       1 11 0 2 500 550)
    3 4 0 1 300 350.

(** One cinema with four screens, and two shows that are both on its
    screen 1. *)
Definition test_shared_system : MovieTicketBookingSystem.t :=
  MovieTicketBookingSystem.addShow
    (MovieTicketBookingSystem.addShow
       (MovieTicketBookingSystem.addCinema MovieTicketBookingSystem.init
                                           0 1 4 5 10)
       1 4 0 1 1710516108725 1710523308725)
    2 11 0 1 1710530000000 1710540000000.

(** ** Vocabulary of the seat booking properties *)

(** The seat at a place of a grid. *)
Definition gridAt (g : list (list Seat.t)) (ref : SeatRef) : option Seat.t :=
  g !! fst ref ≫= fun rowSeats => rowSeats !! snd ref.

(** The place holds a seat that is not booked. *)
Definition freeAt (g : list (list Seat.t)) (ref : SeatRef) : Prop :=
  exists seat, gridAt g ref = Some seat /\ Seat.isBooked seat = false.

(** The number of seats of a row, and of a grid, that are not booked. *)
Definition freeInRow (rowSeats : list Seat.t) : Z :=
  Z.of_nat (length (List.filter (fun seat => negb (Seat.isBooked seat))
                                rowSeats)).

Definition freeInGrid (g : list (list Seat.t)) : Z :=
  fold_right (fun rowSeats n => freeInRow rowSeats + n) 0 g.

(** The lengths of the rows of a grid. *)
Definition shape (g : list (list Seat.t)) : list nat := map length g.

(** A seat that is not booked carries no ticket. *)
Definition seat_clean (seat : Seat.t) : Prop :=
  Seat.isBooked seat = false -> Seat.ticketId seat = None.

Definition grid_clean (g : list (list Seat.t)) : Prop :=
  Forall (Forall seat_clean) g.

(** No seat of the grid carries the ticket. *)
Definition ticket_unused (g : list (list Seat.t)) (ticket : string) : Prop :=
  Forall (Forall (fun seat => Screen.hasTicket seat ticket = false)) g.

(** [count] places side by side in row [row], from column [begin] on. *)
Definition run (row begin : nat) (count : Z) : list SeatRef :=
  map (fun c => (row, c)) (seq begin (Z.to_nat count)).

(** The place [ref] comes before the place [pos] in the order of the
    loops, rows first. *)
Definition before (pos ref : SeatRef) : Prop :=
  (fst ref < fst pos)%nat \/ (fst ref = fst pos /\ (snd ref < snd pos)%nat).

(** What the picking loops keep true of the seats picked so far when they
    stand at [pos]. *)
Record picked_ok (g : list (list Seat.t)) (count : Z) (pos : SeatRef)
    (availableSeats : list SeatRef) : Prop := {
  po_nodup : NoDup availableSeats;
  po_free : Forall (freeAt g) availableSeats;
  po_before : Forall (before pos) availableSeats;
  po_length : Z.of_nat (length availableSeats) <= Z.max 0 count
}.

(** Every seat of the grid carries, as its row and column, the place it
    is at. *)
Definition grid_placed (g : list (list Seat.t)) : Prop :=
  forall ref seat,
    gridAt g ref = Some seat ->
    Seat.row seat = Z.of_nat (fst ref) /\ Seat.column seat = Z.of_nat (snd ref).

(** The label [row-column] of a place. *)
Definition placeLabel (ref : SeatRef) : string :=
  pretty (Z.of_nat (fst ref)) +:+ "-" +:+ pretty (Z.of_nat (snd ref)).

(** The string has no minus sign in it. *)
Fixpoint no_dash (s : string) : Prop :=
  match s with
  | EmptyString => True
  | String c rest => String c "" <> "-" /\ no_dash rest
  end.

(** ** Vocabulary of the further properties *)

(** The lift has a request that starts or ends at [floor]. *)
Definition stopsAt (l : Lift.t) (floor : Z) : bool :=
  existsb (fun r => (start r =? floor) || (dest r =? floor)) (Lift.requests l).

(** Every pending request has both floors strictly above (below) the
    lift. *)
Definition all_above (l : Lift.t) : bool :=
  forallb (fun r => (Lift.currentFloor l <? start r)
                    && (Lift.currentFloor l <? dest r)) (Lift.requests l).

Definition all_below (l : Lift.t) : bool :=
  forallb (fun r => (start r <? Lift.currentFloor l)
                    && (dest r <? Lift.currentFloor l)) (Lift.requests l).

(** An upper bound on the number of moves a lift still makes before its
    list of requests is empty: the rest of the current sweep, plus a whole
    sweep back unless all requests lie ahead. *)
Definition moves_left (floors : Z) (l : Lift.t) : Z :=
  match Lift.requests l with
  | [] => 0
  | _ :: _ =>
      match Lift.direction l with
      | Up => (floors - 1 - Lift.currentFloor l)
              + (if all_above l then 0 else floors - 1)
      | Down => Lift.currentFloor l
                + (if all_below l then 0 else floors - 1)
      | Idle => 1
      end
  end.

(** What [updateDirection] leaves true of a lift whose requests are in
    range: the facts of [lift_in_range], and an idle lift has no work on
    either side. *)
Record lift_settled (floors : Z) (l : Lift.t) : Prop := {
  ls_range : lift_in_range floors l;
  ls_idle : Lift.direction l = Idle ->
            Lift.hasUpRequests l = false /\ Lift.hasDownRequests l = false
}.

(** An idle lift with no request and no passenger, standing at [c]. *)
Definition idle_lift (id floors c : Z) : Lift.t :=
  {| Lift.id := id; Lift.totalFloors := floors; Lift.currentFloor := c;
     Lift.direction := Idle; Lift.requests := []; Lift.passengers := 0 |}.

(** The floor at which a lone request [(s, d)] of a lift that was idle at
    [c] leaves the list: the nearest of its floors above [c] if there is
    one, else the nearest of its floors below [c], else [c]. *)
Definition first_stop (c s d : Z) : Z :=
  if (c <? s) && (c <? d) then Z.min s d
  else if c <? s then s
  else if c <? d then d
  else if (s <? c) && (d <? c) then Z.max s d
  else if s <? c then s
  else if d <? c then d
  else c.

(** ** The program's own test script *)

(** The four calls return what the script's comments expect. *)
Example test_script_results :
  (fst test_script_1, fst test_script_2, fst test_script_3, fst test_script_4)
  = (0, 1, -1, 1).
Proof. vm_compute. reflexivity. Qed.

(** ** Boolean tests on integers *)

Ltac zbool :=
  repeat match goal with
  | H : context [?a <? ?b] |- _ => destruct (Z.ltb_spec a b)
  | H : context [?a >? ?b] |- _ => rewrite (Z.gtb_ltb a b) in H
  | H : context [?a <=? ?b] |- _ => destruct (Z.leb_spec a b)
  | H : context [?a >=? ?b] |- _ => rewrite (Z.geb_leb a b) in H
  | H : context [?a =? ?b] |- _ => destruct (Z.eqb_spec a b)
  | |- context [?a <? ?b] => destruct (Z.ltb_spec a b)
  | |- context [?a >? ?b] => rewrite (Z.gtb_ltb a b)
  | |- context [?a <=? ?b] => destruct (Z.leb_spec a b)
  | |- context [?a >=? ?b] => rewrite (Z.geb_leb a b)
  | |- context [?a =? ?b] => destruct (Z.eqb_spec a b)
  end.

(** ** updateDirection *)

Section UpdateDirection.

Variable l : Lift.t.

Lemma updateDirection_currentFloor :
  Lift.currentFloor (Lift.updateDirection l) = Lift.currentFloor l.
Proof. unfold Lift.updateDirection. repeat case_match; reflexivity. Qed.

Lemma updateDirection_requests :
  Lift.requests (Lift.updateDirection l) = Lift.requests l.
Proof. unfold Lift.updateDirection. repeat case_match; reflexivity. Qed.

Lemma updateDirection_passengers :
  Lift.passengers (Lift.updateDirection l) = Lift.passengers l.
Proof. unfold Lift.updateDirection. repeat case_match; reflexivity. Qed.

Lemma updateDirection_totalFloors :
  Lift.totalFloors (Lift.updateDirection l) = Lift.totalFloors l.
Proof. unfold Lift.updateDirection. repeat case_match; reflexivity. Qed.

Lemma hasUpRequests_setDirection d :
  Lift.hasUpRequests (Lift.setDirection l d) = Lift.hasUpRequests l.
Proof. reflexivity. Qed.

Lemma hasDownRequests_setDirection d :
  Lift.hasDownRequests (Lift.setDirection l d) = Lift.hasDownRequests l.
Proof. reflexivity. Qed.

(** The lift is sent up only towards a request above it. *)
Lemma updateDirection_Up :
  Lift.direction (Lift.updateDirection l) = Up ->
  Lift.hasUpRequests (Lift.updateDirection l) = true.
Proof.
  unfold Lift.updateDirection.
  repeat case_match; simpl; intros Hd; try discriminate;
    rewrite ?hasUpRequests_setDirection;
    repeat match goal with
           | H : _ && _ = true |- _ => apply andb_true_iff in H as [? ?]
           end; assumption.
Qed.

Lemma updateDirection_Down :
  Lift.direction (Lift.updateDirection l) = Down ->
  Lift.hasDownRequests (Lift.updateDirection l) = true.
Proof.
  unfold Lift.updateDirection.
  repeat case_match; simpl; intros Hd; try discriminate;
    rewrite ?hasDownRequests_setDirection;
    repeat match goal with
           | H : _ && _ = true |- _ => apply andb_true_iff in H as [? ?]
           end; assumption.
Qed.

(** With no request left the lift is idle. *)
Lemma updateDirection_empty :
  Lift.requests l = [] -> Lift.direction (Lift.updateDirection l) = Idle.
Proof. unfold Lift.updateDirection. intros ->. reflexivity. Qed.

(** A pending request between two different floors always asks for a move. *)
Lemma proper_request_has_work :
  proper_requests l -> Lift.requests l <> [] ->
  Lift.hasUpRequests l || Lift.hasDownRequests l = true.
Proof.
  unfold proper_requests, Lift.hasUpRequests, Lift.hasDownRequests.
  destruct (Lift.requests l) as [|r rs]; [congruence|].
  intros Hp _. apply Forall_cons in Hp as [Hr _]. simpl.
  zbool; simpl; try reflexivity; lia.
Qed.

Lemma updateDirection_Idle_iff :
  proper_requests l ->
  Lift.direction (Lift.updateDirection l) = Idle <-> Lift.requests l = [].
Proof.
  intros Hp. split; [|apply updateDirection_empty].
  intros Hd. destruct (Lift.requests l) as [|r rs] eqn:Hrs; [reflexivity|].
  exfalso.
  assert (Hw : Lift.hasUpRequests l || Lift.hasDownRequests l = true).
  { apply proper_request_has_work; [assumption | congruence]. }
  revert Hd. unfold Lift.updateDirection. rewrite Hrs. simpl.
  destruct (Lift.hasUpRequests l), (Lift.hasDownRequests l);
    try discriminate Hw;
    destruct (Lift.direction l); simpl; discriminate.
Qed.

End UpdateDirection.

(** ** addRequest and move, field by field *)

Lemma addRequest_requests l s d :
  Lift.requests (Lift.addRequest l s d) = Lift.requests l ++ [mkRequest s d].
Proof. unfold Lift.addRequest. rewrite updateDirection_requests. reflexivity. Qed.

Lemma addRequest_passengers l s d :
  Lift.passengers (Lift.addRequest l s d) = Lift.passengers l + 1.
Proof.
  unfold Lift.addRequest. rewrite updateDirection_passengers. reflexivity.
Qed.

Lemma addRequest_currentFloor l s d :
  Lift.currentFloor (Lift.addRequest l s d) = Lift.currentFloor l.
Proof.
  unfold Lift.addRequest. rewrite updateDirection_currentFloor. reflexivity.
Qed.

Lemma move_currentFloor l : Lift.currentFloor (Lift.move l) = nextFloor l.
Proof. unfold Lift.move. rewrite updateDirection_currentFloor. reflexivity. Qed.

Lemma move_requests l :
  Lift.requests (Lift.move l) =
  List.filter (fun r => negb (start r =? nextFloor l))
    (List.filter (fun r => negb (dest r =? nextFloor l)) (Lift.requests l)).
Proof. unfold Lift.move. rewrite updateDirection_requests. reflexivity. Qed.

Lemma move_passengers l :
  Lift.passengers (Lift.move l) =
  Lift.passengers l
  - Z.of_nat (length (List.filter (fun r => dest r =? nextFloor l)
                                  (Lift.requests l))).
Proof. unfold Lift.move. rewrite updateDirection_passengers. reflexivity. Qed.

Lemma Forall_List_filter {A} (P : A -> Prop) (f : A -> bool) (xs : list A) :
  Forall P xs -> Forall P (List.filter f xs).
Proof.
  induction 1 as [|x xs Hx _ IH]; simpl; [constructor|].
  destruct (f x); [constructor|]; assumption.
Qed.

(** ** Idle if and only if no request is pending *)

Lemma addRequest_proper l s d :
  s <> d -> proper_requests l -> proper_requests (Lift.addRequest l s d).
Proof.
  unfold proper_requests. intros Hsd Hp. rewrite addRequest_requests.
  apply Forall_app. split; [assumption|]. repeat constructor. exact Hsd.
Qed.

Lemma move_proper l : proper_requests l -> proper_requests (Lift.move l).
Proof.
  unfold proper_requests. intros Hp. rewrite move_requests.
  do 2 apply Forall_List_filter. exact Hp.
Qed.

Lemma addRequest_Idle_iff l s d :
  s <> d -> proper_requests l ->
  Lift.direction (Lift.addRequest l s d) = Idle
  <-> Lift.requests (Lift.addRequest l s d) = [].
Proof.
  intros Hsd Hp. pose proof (addRequest_proper l s d Hsd Hp) as Hp'.
  revert Hp'. unfold Lift.addRequest, proper_requests.
  rewrite !updateDirection_requests. apply updateDirection_Idle_iff.
Qed.

Lemma move_Idle_iff l :
  proper_requests l ->
  Lift.direction (Lift.move l) = Idle <-> Lift.requests (Lift.move l) = [].
Proof.
  intros Hp. pose proof (move_proper l Hp) as Hp'.
  revert Hp'. unfold Lift.move, proper_requests.
  rewrite !updateDirection_requests. apply updateDirection_Idle_iff.
Qed.











(** ** The selection loop of requestLift *)

Section Selection.

Variables (s d : Z) (rd : Direction).

Local Abbreviation eligible l := (Lift.canAddRequest l s d).
Local Abbreviation eta l := (Lift.calculateTimeToReach l s rd).

(** With a sound accumulator the loop's test is [time < minTime]. *)
Lemma select_test best mt time :
  acc_ok best mt ->
  num_ltb (Fin time) mt || (num_eqb (Fin time) mt && (best =? -1))
  = num_ltb (Fin time) mt.
Proof.
  destruct mt as [|t|]; simpl; intros Hacc; try contradiction.
  - zbool; simpl; try reflexivity; lia.
  - reflexivity.
Qed.

(** No eligible lift: the accumulator comes back as it went in. *)
Lemma selectLift_none ls : forall i best mt,
  someEligible ls s d = false ->
  ElevatorSystem.selectLift ls i s d rd best mt = (best, mt).
Proof.
  induction ls as [|l ls IH]; intros i best mt Hno; [reflexivity|].
  simpl in Hno. apply orb_false_iff in Hno as [Hl Hls].
  simpl. rewrite Hl. apply IH. exact Hls.
Qed.

(** The loop either keeps its accumulator, and then no eligible lift is
    strictly faster, or ends on the first of the fastest eligible lifts. *)
Lemma selectLift_spec ls : forall i best mt,
  0 <= i -> acc_ok best mt ->
  (ElevatorSystem.selectLift ls i s d rd best mt = (best, mt) /\
   forall k l, ls !! k = Some l -> eligible l = true ->
               num_ltb (Fin (eta l)) mt = false)
  \/ (exists k l,
        ElevatorSystem.selectLift ls i s d rd best mt
        = (i + Z.of_nat k, Fin (eta l)) /\
        ls !! k = Some l /\ eligible l = true /\
        num_ltb (Fin (eta l)) mt = true /\
        forall k' l', ls !! k' = Some l' -> eligible l' = true ->
                      eta l <= eta l' /\ (eta l' = eta l -> (k <= k')%nat)).
Proof.
  induction ls as [|l ls IH]; intros i best mt Hi Hacc;
    cbn [ElevatorSystem.selectLift].
  { left. split; [reflexivity|]. intros k l0 Hk. discriminate Hk. }
  assert (Hi' : 0 <= i + 1) by lia.
  destruct (eligible l) eqn:Hel.
  - rewrite (select_test best mt (eta l) Hacc).
    destruct (num_ltb (Fin (eta l)) mt) eqn:Hlt.
    + (* the lift at [i] becomes the best so far *)
      right.
      destruct (IH (i + 1) i (Fin (eta l)) Hi' Hi)
        as [[Hr Hall]|(k & l2 & Hr & Hk & Hel2 & Hlt2 & Hmin)].
      * exists 0%nat, l. rewrite Hr. replace (i + Z.of_nat 0) with i by lia.
        split_and!; try assumption; try reflexivity.
        intros k' l' Hk' Hel'. destruct k' as [|k']; simpl in Hk'.
        -- injection Hk' as <-. lia.
        -- specialize (Hall k' l' Hk' Hel'). simpl in Hall.
           apply Z.ltb_ge in Hall. lia.
      * exists (S k), l2. rewrite Hr.
        replace (i + 1 + Z.of_nat k) with (i + Z.of_nat (S k)) by lia.
        simpl in Hlt2. apply Z.ltb_lt in Hlt2.
        split_and!; try assumption; try reflexivity.
        -- destruct mt as [|t|]; simpl in *; try discriminate; try reflexivity.
           apply Z.ltb_lt in Hlt. apply Z.ltb_lt. lia.
        -- intros k' l' Hk' Hel'. destruct k' as [|k']; simpl in Hk'.
           ++ injection Hk' as <-. lia.
           ++ pose proof (Hmin k' l' Hk' Hel') as [Hle Hk'']. lia.
    + (* the lift at [i] is eligible but not strictly faster *)
      destruct (IH (i + 1) best mt Hi' Hacc)
        as [[Hr Hall]|(k & l2 & Hr & Hk & Hel2 & Hlt2 & Hmin)].
      * left. split; [assumption|].
        intros [|k] l0 Hk Hl0; simpl in Hk.
        -- injection Hk as <-. exact Hlt.
        -- apply (Hall k l0 Hk Hl0).
      * right. exists (S k), l2. rewrite Hr.
        replace (i + 1 + Z.of_nat k) with (i + Z.of_nat (S k)) by lia.
        assert (Hstrict : eta l2 < eta l).
        { destruct mt as [|t|]; simpl in *; try discriminate; try contradiction.
          apply Z.ltb_lt in Hlt2. apply Z.ltb_ge in Hlt. lia. }
        split_and!; try assumption; try reflexivity.
        intros k' l' Hk' Hel'. destruct k' as [|k']; simpl in Hk'.
        -- injection Hk' as <-. lia.
        -- pose proof (Hmin k' l' Hk' Hel') as [Hle Hk'']. lia.
  - (* the lift at [i] is not eligible *)
    destruct (IH (i + 1) best mt Hi' Hacc)
      as [[Hr Hall]|(k & l2 & Hr & Hk & Hel2 & Hlt2 & Hmin)].
    + left. split; [assumption|].
      intros [|k] l0 Hk Hl0; simpl in Hk.
      * injection Hk as <-. congruence.
      * apply (Hall k l0 Hk Hl0).
    + right. exists (S k), l2. rewrite Hr.
      replace (i + 1 + Z.of_nat k) with (i + Z.of_nat (S k)) by lia.
      split_and!; try assumption; try reflexivity.
      intros k' l' Hk' Hel'. destruct k' as [|k']; simpl in Hk'.
      * injection Hk' as <-. congruence.
      * pose proof (Hmin k' l' Hk' Hel') as [Hle Hk'']. lia.
Qed.

End Selection.

(** ** requestLift *)

Lemma someEligible_lookup ls s d :
  someEligible ls s d = true <->
  exists k l, ls !! k = Some l /\ Lift.canAddRequest l s d = true.
Proof.
  unfold someEligible. rewrite existsb_exists. split.
  - intros (l & Hin & Hl). apply list_elem_of_In in Hin.
    apply list_elem_of_lookup in Hin as [k Hk]. eauto.
  - intros (k & l & Hk & Hl). exists l. split; [|assumption].
    apply list_elem_of_In. apply list_elem_of_lookup. eauto.
Qed.

(** What the selection loop of a whole call returns when some lift is
    eligible. *)
Lemma selectLift_some ls s d rd :
  someEligible ls s d = true ->
  exists k l,
    ElevatorSystem.selectLift ls 0 s d rd (-1) PosInf
    = (Z.of_nat k, Fin (Lift.calculateTimeToReach l s rd)) /\
    ls !! k = Some l /\ Lift.canAddRequest l s d = true /\
    forall k' l', ls !! k' = Some l' -> Lift.canAddRequest l' s d = true ->
      Lift.calculateTimeToReach l s rd <= Lift.calculateTimeToReach l' s rd /\
      (Lift.calculateTimeToReach l' s rd = Lift.calculateTimeToReach l s rd ->
       (k <= k')%nat).
Proof.
  intros Hsome.
  destruct (selectLift_spec s d rd ls 0 (-1) PosInf) as
    [[_ Hall]|(k & l & Hr & Hk & Hel & _ & Hmin)];
    [lia | reflexivity | |].
  - apply someEligible_lookup in Hsome as (k & l & Hk & Hl).
    specialize (Hall k l Hk Hl). discriminate Hall.
  - exists k, l. rewrite Hr. auto.
Qed.

(** C7: when some lift is eligible, [requestLift] returns the index [b] of
    an eligible lift whose time to reach the start floor is minimal among
    the eligible lifts and which is the first lift with that time.  The
    request is committed to that lift: afterwards the lift at [b] has the
    request at the end of its requests and one passenger more, and stands
    where it stood.  It is committed to no other lift: every other lift is
    as it was, and so is every lift that is not eligible. *)
Theorem C7_requestLift_first_fastest_eligible
    (sys : ElevatorSystem.t) (s d : Z) :
  someEligible (ElevatorSystem.lifts sys) s d = true ->
  exists (b : nat) (lb : Lift.t),
    fst (ElevatorSystem.requestLift sys s d) = Z.of_nat b /\
    ElevatorSystem.lifts sys !! b = Some lb /\
    Lift.canAddRequest lb s d = true /\
    (forall j lj,
        ElevatorSystem.lifts sys !! j = Some lj ->
        Lift.canAddRequest lj s d = true ->
        Lift.calculateTimeToReach lb s (requestDirectionOf s d)
        <= Lift.calculateTimeToReach lj s (requestDirectionOf s d) /\
        (Lift.calculateTimeToReach lj s (requestDirectionOf s d)
         = Lift.calculateTimeToReach lb s (requestDirectionOf s d) ->
         (b <= j)%nat)) /\
    ElevatorSystem.lifts (snd (ElevatorSystem.requestLift sys s d))
    = <[b := Lift.addRequest lb s d]> (ElevatorSystem.lifts sys) /\
    (forall j lj,
        ElevatorSystem.lifts sys !! j = Some lj ->
        Lift.canAddRequest lj s d = false ->
        ElevatorSystem.lifts (snd (ElevatorSystem.requestLift sys s d)) !! j
        = Some lj) /\
    (exists lb',
        ElevatorSystem.lifts (snd (ElevatorSystem.requestLift sys s d)) !! b
        = Some lb' /\
        Lift.requests lb' = Lift.requests lb ++ [mkRequest s d] /\
        Lift.passengers lb' = Lift.passengers lb + 1 /\
        Lift.currentFloor lb' = Lift.currentFloor lb /\
        Lift.id lb' = Lift.id lb) /\
    (forall j,
        j <> b ->
        ElevatorSystem.lifts (snd (ElevatorSystem.requestLift sys s d)) !! j
        = ElevatorSystem.lifts sys !! j).
Proof.
  intros Hsome.
  destruct (selectLift_some _ s d (requestDirectionOf s d) Hsome)
    as (b & lb & Hr & Hb & Hel & Hmin).
  exists b, lb. unfold ElevatorSystem.requestLift.
  fold (requestDirectionOf s d). rewrite Hr. cbn [fst].
  replace (negb (Z.of_nat b =? -1)) with true
    by (symmetry; apply negb_true_iff, Z.eqb_neq; lia).
  cbn [fst snd ElevatorSystem.lifts]. rewrite Nat2Z.id.
  assert (Halter :
    alter (fun l => Lift.addRequest l s d) b (ElevatorSystem.lifts sys)
    = <[b := Lift.addRequest lb s d]> (ElevatorSystem.lifts sys)).
  { apply list_eq. intros j. destruct (decide (b = j)) as [<-|Hne].
    - rewrite list_lookup_alter_eq, Hb.
      rewrite list_lookup_insert_eq by (eapply lookup_lt_Some; eassumption).
      reflexivity.
    - rewrite list_lookup_alter_ne, list_lookup_insert_ne by assumption.
      reflexivity. }
  split_and!; try assumption; try reflexivity.
  - intros j lj Hj Hnot. rewrite Halter.
    rewrite list_lookup_insert_ne; [assumption|].
    intros <-. congruence.
  - exists (Lift.addRequest lb s d). rewrite Halter.
    rewrite list_lookup_insert_eq by (eapply lookup_lt_Some; eassumption).
    split_and!; [reflexivity | apply addRequest_requests
                | apply addRequest_passengers | apply addRequest_currentFloor |].
    unfold Lift.addRequest, Lift.updateDirection.
    repeat case_match; reflexivity.
  - intros j Hne. rewrite Halter.
    apply list_lookup_insert_ne. congruence.
Qed.

Lemma C7_requestLift_first_fastest_eligible_witness :
  someEligible (ElevatorSystem.lifts (snd test_script_3)) 1 0 = true /\
  exists (b : nat) (lb : Lift.t),
    fst (ElevatorSystem.requestLift (snd test_script_3) 1 0) = Z.of_nat b /\
    ElevatorSystem.lifts (snd test_script_3) !! b = Some lb /\
    Lift.canAddRequest lb 1 0 = true /\
    (forall j lj,
        ElevatorSystem.lifts (snd test_script_3) !! j = Some lj ->
        Lift.canAddRequest lj 1 0 = true ->
        Lift.calculateTimeToReach lb 1 (requestDirectionOf 1 0)
        <= Lift.calculateTimeToReach lj 1 (requestDirectionOf 1 0) /\
        (Lift.calculateTimeToReach lj 1 (requestDirectionOf 1 0)
         = Lift.calculateTimeToReach lb 1 (requestDirectionOf 1 0) ->
         (b <= j)%nat)) /\
    ElevatorSystem.lifts
      (snd (ElevatorSystem.requestLift (snd test_script_3) 1 0))
    = <[b := Lift.addRequest lb 1 0]>
        (ElevatorSystem.lifts (snd test_script_3)) /\
    (forall j lj,
        ElevatorSystem.lifts (snd test_script_3) !! j = Some lj ->
        Lift.canAddRequest lj 1 0 = false ->
        ElevatorSystem.lifts
          (snd (ElevatorSystem.requestLift (snd test_script_3) 1 0)) !! j
        = Some lj) /\
    (exists lb',
        ElevatorSystem.lifts
          (snd (ElevatorSystem.requestLift (snd test_script_3) 1 0)) !! b
        = Some lb' /\
        Lift.requests lb' = Lift.requests lb ++ [mkRequest 1 0] /\
        Lift.passengers lb' = Lift.passengers lb + 1 /\
        Lift.currentFloor lb' = Lift.currentFloor lb /\
        Lift.id lb' = Lift.id lb) /\
    (forall j,
        j <> b ->
        ElevatorSystem.lifts
          (snd (ElevatorSystem.requestLift (snd test_script_3) 1 0)) !! j
        = ElevatorSystem.lifts (snd test_script_3) !! j).
Proof.
  split; [reflexivity|].
  apply (C7_requestLift_first_fastest_eligible (snd test_script_3) 1 0).
  reflexivity.
Defined.

(** C8: when no lift is eligible, [requestLift] returns -1 and the system
    after the call is the system before it: no lift's floor, direction,
    requests or passenger count has changed. *)
Theorem C8_requestLift_rejects_without_change
    (sys : ElevatorSystem.t) (s d : Z) :
  someEligible (ElevatorSystem.lifts sys) s d = false ->
  ElevatorSystem.requestLift sys s d = (-1, sys).
Proof.
  intros Hnone. unfold ElevatorSystem.requestLift.
  rewrite selectLift_none by exact Hnone. reflexivity.
Qed.

Lemma C8_requestLift_rejects_without_change_witness :
  someEligible (ElevatorSystem.lifts (ElevatorSystem.tick (snd test_script_2)))
               0 5 = false /\
  ElevatorSystem.requestLift (ElevatorSystem.tick (snd test_script_2)) 0 5
  = (-1, ElevatorSystem.tick (snd test_script_2)).
Proof.
  split; [reflexivity|].
  apply (C8_requestLift_rejects_without_change
           (ElevatorSystem.tick (snd test_script_2)) 0 5).
  reflexivity.
Defined.

(** A call either rejects and changes nothing, or commits the request to
    one eligible lift. *)
Lemma requestLift_cases (sys : ElevatorSystem.t) (s d : Z) :
  ElevatorSystem.requestLift sys s d = (-1, sys)
  \/ exists (b : nat) (lb : Lift.t),
       ElevatorSystem.lifts sys !! b = Some lb /\
       Lift.canAddRequest lb s d = true /\
       ElevatorSystem.requestLift sys s d
       = (Z.of_nat b,
          {| ElevatorSystem.lifts :=
               alter (fun l => Lift.addRequest l s d) b
                     (ElevatorSystem.lifts sys);
             ElevatorSystem.totalFloors := ElevatorSystem.totalFloors sys |}).
Proof.
  destruct (someEligible (ElevatorSystem.lifts sys) s d) eqn:Hsome.
  - right.
    destruct (selectLift_some _ s d (requestDirectionOf s d) Hsome)
      as (b & lb & Hr & Hb & Hel & _).
    exists b, lb. split_and!; try assumption.
    unfold ElevatorSystem.requestLift. fold (requestDirectionOf s d).
    rewrite Hr. cbn [fst].
    replace (negb (Z.of_nat b =? -1)) with true
      by (symmetry; apply negb_true_iff, Z.eqb_neq; lia).
    rewrite Nat2Z.id. reflexivity.
  - left. unfold ElevatorSystem.requestLift.
    rewrite selectLift_none by exact Hsome. reflexivity.
Qed.

(** Whatever the outcome of a call, a lift that is not eligible is left as
    it was. *)
Lemma requestLift_ineligible_untouched
    (sys : ElevatorSystem.t) (s d : Z) (j : nat) (lj : Lift.t) :
  ElevatorSystem.lifts sys !! j = Some lj ->
  Lift.canAddRequest lj s d = false ->
  ElevatorSystem.lifts (snd (ElevatorSystem.requestLift sys s d)) !! j
  = Some lj.
Proof.
  intros Hj Hnot.
  destruct (requestLift_cases sys s d) as [->|(b & lb & Hb & Hel & ->)];
    [exact Hj|].
  simpl. rewrite list_lookup_alter_ne; [exact Hj|].
  intros <-. congruence.
Qed.

(** An invariant of every lift is an invariant of the system when the
    constructor establishes it and [move] and the guarded [addRequest] keep
    it. *)
Lemma sys_run_invariant (P : Lift.t -> Prop) (ok : SysOp -> bool) :
  (forall l, P l -> P (Lift.move l)) ->
  (forall l s d, ok (OpRequest s d) = true -> P l ->
                 Lift.canAddRequest l s d = true ->
                 P (Lift.addRequest l s d)) ->
  forall ops sys,
    forallb ok ops = true ->
    Forall P (ElevatorSystem.lifts sys) ->
    Forall P (ElevatorSystem.lifts (sys_run ops sys)).
Proof.
  intros Hmove Hadd. induction ops as [|op ops IH]; intros sys Hops HP;
    [exact HP|].
  simpl in Hops. apply andb_true_iff in Hops as [Hop Hops].
  simpl. apply IH; [exact Hops|]. destruct op as [s d|]; simpl.
  - destruct (requestLift_cases sys s d) as [->|(b & lb & Hb & Hel & ->)];
      [exact HP|].
    simpl. apply Forall_alter; [exact HP|].
    intros x Hx Px. rewrite Hb in Hx. injection Hx as <-. auto.
  - apply Forall_map. eapply Forall_impl; [exact HP | exact Hmove].
Qed.

Lemma init_invariant (P : Lift.t -> Prop) floors n :
  (forall id, P (Lift.new id floors)) ->
  Forall P (ElevatorSystem.lifts (ElevatorSystem.init floors n)).
Proof.
  intros Hnew. unfold ElevatorSystem.init. simpl.
  apply Forall_map. apply Forall_forall. intros i _. apply Hnew.
Qed.

Lemma sys_run_totalFloors ops : forall sys,
  ElevatorSystem.totalFloors (sys_run ops sys) = ElevatorSystem.totalFloors sys.
Proof.
  induction ops as [|op ops IH]; intros sys; [reflexivity|].
  simpl. rewrite IH. destruct op as [s d|]; simpl; [|reflexivity].
  destruct (requestLift_cases sys s d) as [->|(b & lb & _ & _ & ->)];
    reflexivity.
Qed.

Lemma sys_run_length ops : forall sys,
  length (ElevatorSystem.lifts (sys_run ops sys))
  = length (ElevatorSystem.lifts sys).
Proof.
  induction ops as [|op ops IH]; intros sys; [reflexivity|].
  simpl. rewrite IH. destruct op as [s d|]; simpl.
  - destruct (requestLift_cases sys s d) as [->|(b & lb & _ & _ & ->)];
      [reflexivity|]. simpl. apply length_alter.
  - apply length_map.
Qed.

(** The same holds of every lift of a system driven by [requestLift] and
    [tick]. *)
Lemma system_idle_iff_no_requests (floors n : Z) (ops : list SysOp) :
  forallb request_proper ops = true ->
  Forall (fun l => Lift.direction l = Idle <-> Lift.requests l = [])
         (ElevatorSystem.lifts (sys_run ops (ElevatorSystem.init floors n))).
Proof.
  intros Hops.
  assert (Hinv :
    Forall (fun l => proper_requests l /\
                     (Lift.direction l = Idle <-> Lift.requests l = []))
      (ElevatorSystem.lifts (sys_run ops (ElevatorSystem.init floors n)))).
  { apply (sys_run_invariant _ request_proper).
    - intros l [Hp _]. auto using move_proper, move_Idle_iff.
    - intros l s d Hok [Hp _] _. simpl in Hok.
      assert (s <> d) by (zbool; [discriminate | assumption]).
      auto using addRequest_proper, addRequest_Idle_iff.
    - exact Hops.
    - apply init_invariant. intros id. split; [constructor|].
      split; reflexivity. }
  eapply Forall_impl; [exact Hinv|]. intros l [_ Hl]. exact Hl.
Qed.

(** ** The passenger count *)

Lemma canAddRequest_below_capacity l s d :
  Lift.canAddRequest l s d = true -> Lift.passengers l < 10.
Proof.
  unfold Lift.canAddRequest. destruct (Z.geb_spec (Lift.passengers l) 10);
    [discriminate|]. intros _. lia.
Qed.

Lemma canAddRequest_at_capacity l s d :
  10 <= Lift.passengers l -> Lift.canAddRequest l s d = false.
Proof.
  intros Hp. unfold Lift.canAddRequest.
  destruct (Z.geb_spec (Lift.passengers l) 10); [reflexivity|lia].
Qed.

Lemma load_ok_new id floors : load_ok (Lift.new id floors).
Proof. unfold load_ok. simpl. lia. Qed.

Lemma load_ok_addRequest l s d :
  load_ok l -> Lift.canAddRequest l s d = true ->
  load_ok (Lift.addRequest l s d).
Proof.
  unfold load_ok. intros Hl Hel. apply canAddRequest_below_capacity in Hel.
  rewrite addRequest_requests, addRequest_passengers, length_app. simpl. lia.
Qed.

Lemma load_ok_move l : load_ok l -> load_ok (Lift.move l).
Proof.
  unfold load_ok. intros Hl. rewrite move_requests, move_passengers.
  set (f := nextFloor l).
  pose proof (List.filter_length (fun r => dest r =? f) (Lift.requests l)) as Hsplit.
  pose proof (List.filter_length_le (fun r => negb (start r =? f))
                (List.filter (fun r => negb (dest r =? f)) (Lift.requests l)))
    as Hle.
  lia.
Qed.

(** Ten requests from floor 0 to floor 3 fill the only lift of a system. *)
Example ten_requests_fill_the_lift :
  Lift.passengers
    <$> ElevatorSystem.lifts
          (sys_run (repeat (OpRequest 0 3) 10) (ElevatorSystem.init 6 1)) !! 0%nat
  = Some 10.
Proof. vm_compute. reflexivity. Qed.

(** C6: in every state reached from [init] by [requestLift] and [tick]
    calls, each lift's passenger count lies between 0 and 10, and a lift
    whose count is 10 rejects every request. *)
Theorem C6_passengers_within_capacity (floors n : Z) (ops : list SysOp) :
  Forall (fun l =>
            0 <= Lift.passengers l <= 10 /\
            (Lift.passengers l = 10 ->
             forall s d, Lift.canAddRequest l s d = false))
         (ElevatorSystem.lifts (sys_run ops (ElevatorSystem.init floors n))).
Proof.
  assert (Hload :
    Forall load_ok
      (ElevatorSystem.lifts (sys_run ops (ElevatorSystem.init floors n)))).
  { apply (sys_run_invariant load_ok (fun _ => true)).
    - apply load_ok_move.
    - intros l s d _. apply load_ok_addRequest.
    - clear. induction ops; simpl; auto.
    - apply init_invariant. intros id. apply load_ok_new. }
  eapply Forall_impl; [exact Hload|].
  unfold load_ok. intros l Hl. split; [lia|].
  intros Hfull s d. apply canAddRequest_at_capacity. lia.
Qed.

(** ** The floor of a lift stays inside the building *)

Section InRange.

Variable floors : Z.

Local Abbreviation in_range :=
  (fun r => 0 <= start r <= floors - 1 /\ 0 <= dest r <= floors - 1).

(** A lift with work above it has a request floor above it. *)
Lemma hasUpRequests_room l :
  Forall in_range (Lift.requests l) -> Lift.hasUpRequests l = true ->
  Lift.currentFloor l + 1 <= floors - 1.
Proof.
  intros Hall Hup. apply existsb_exists in Hup as (r & Hin & Hr).
  pose proof (proj1 (List.Forall_forall _ _) Hall r Hin) as [Hs Hd].
  zbool; simpl in Hr; try discriminate; lia.
Qed.

Lemma hasDownRequests_room l :
  Forall in_range (Lift.requests l) -> Lift.hasDownRequests l = true ->
  0 <= Lift.currentFloor l - 1.
Proof.
  intros Hall Hdown. apply existsb_exists in Hdown as (r & Hin & Hr).
  pose proof (proj1 (List.Forall_forall _ _) Hall r Hin) as [Hs Hd].
  zbool; simpl in Hr; try discriminate; lia.
Qed.

Lemma nextFloor_in_range l :
  lift_in_range floors l -> 0 <= nextFloor l <= floors - 1.
Proof.
  intros [Hf Hr Hup Hdown]. unfold nextFloor.
  destruct (Lift.direction l).
  - pose proof (hasUpRequests_room l Hr (Hup eq_refl)). lia.
  - pose proof (hasDownRequests_room l Hr (Hdown eq_refl)). lia.
  - exact Hf.
Qed.

Lemma lift_in_range_new id : 0 < floors -> lift_in_range floors (Lift.new id floors).
Proof.
  intros Hpos. split; simpl; [lia | constructor | discriminate | discriminate].
Qed.

Lemma lift_in_range_addRequest l s d :
  floor_ok floors s && floor_ok floors d = true ->
  lift_in_range floors l -> lift_in_range floors (Lift.addRequest l s d).
Proof.
  intros Hsd [Hf Hr Hup Hdown].
  apply andb_true_iff in Hsd as [Hs Hd].
  unfold floor_ok in Hs, Hd.
  apply andb_true_iff in Hs as [Hs1 Hs2]. apply andb_true_iff in Hd as [Hd1 Hd2].
  apply Z.leb_le in Hs1, Hs2, Hd1, Hd2.
  split.
  - rewrite addRequest_currentFloor. exact Hf.
  - rewrite addRequest_requests. apply Forall_app. split; [exact Hr|].
    repeat constructor; simpl; lia.
  - unfold Lift.addRequest. apply updateDirection_Up.
  - unfold Lift.addRequest. apply updateDirection_Down.
Qed.

Lemma lift_in_range_move l :
  lift_in_range floors l -> lift_in_range floors (Lift.move l).
Proof.
  intros Hl. pose proof (nextFloor_in_range l Hl) as Hnext.
  destruct Hl as [Hf Hr Hup Hdown]. split.
  - rewrite move_currentFloor. exact Hnext.
  - rewrite move_requests. do 2 apply Forall_List_filter. exact Hr.
  - unfold Lift.move. apply updateDirection_Up.
  - unfold Lift.move. apply updateDirection_Down.
Qed.

End InRange.

Lemma lookup_map_move (ls : list Lift.t) (i : nat) :
  map Lift.move ls !! i = Lift.move <$> ls !! i.
Proof.
  revert i. induction ls as [|l ls IH]; intros [|i]; simpl; auto.
Qed.

(** C5: in a system initialised with at least one floor and driven by
    [requestLift] calls whose floors lie in [[0, totalFloors - 1]] and by
    [tick] calls, one more [tick] keeps every lift, moves it by at most one
    floor and leaves its floor in [[0, totalFloors - 1]]. *)
Theorem C5_tick_moves_one_floor_in_range
    (floors n : Z) (ops : list SysOp) (i : nat) (l : Lift.t) :
  0 < floors ->
  forallb (op_in_range floors) ops = true ->
  ElevatorSystem.lifts (sys_run ops (ElevatorSystem.init floors n)) !! i
  = Some l ->
  ElevatorSystem.totalFloors (sys_run ops (ElevatorSystem.init floors n))
  = floors /\
  exists l',
    ElevatorSystem.lifts
      (ElevatorSystem.tick (sys_run ops (ElevatorSystem.init floors n))) !! i
    = Some l' /\
    Z.abs (Lift.currentFloor l' - Lift.currentFloor l) <= 1 /\
    0 <= Lift.currentFloor l' <= floors - 1.
Proof.
  intros Hpos Hops Hi.
  split; [apply sys_run_totalFloors|].
  assert (Hinv :
    Forall (lift_in_range floors)
      (ElevatorSystem.lifts (sys_run ops (ElevatorSystem.init floors n)))).
  { apply (sys_run_invariant (lift_in_range floors) (op_in_range floors)).
    - apply lift_in_range_move.
    - intros l0 s d Hok Hl0 _. apply lift_in_range_addRequest; assumption.
    - exact Hops.
    - apply init_invariant. intros id. apply lift_in_range_new. exact Hpos. }
  pose proof (Forall_lookup_1 _ _ _ _ Hinv Hi) as Hl.
  exists (Lift.move l). split; [|split].
  - simpl. rewrite lookup_map_move, Hi. reflexivity.
  - rewrite move_currentFloor. unfold nextFloor.
    destruct (Lift.direction l); lia.
  - rewrite move_currentFloor. apply nextFloor_in_range. exact Hl.
Qed.

Lemma C5_tick_moves_one_floor_in_range_witness :
  0 < 6 /\
  forallb (op_in_range 6) [OpRequest 0 3; OpTick; OpRequest 0 2; OpTick] = true /\
  ElevatorSystem.lifts
    (sys_run [OpRequest 0 3; OpTick; OpRequest 0 2; OpTick]
             (ElevatorSystem.init 6 2)) !! 0%nat
  = Some {| Lift.id := 0; Lift.totalFloors := 6; Lift.currentFloor := 2;
            Lift.direction := Up; Lift.requests := [mkRequest 0 3];
            Lift.passengers := 1 |} /\
  exists l',
    ElevatorSystem.lifts
      (ElevatorSystem.tick
         (sys_run [OpRequest 0 3; OpTick; OpRequest 0 2; OpTick]
                  (ElevatorSystem.init 6 2))) !! 0%nat
    = Some l' /\
    Z.abs (Lift.currentFloor l' - 2) <= 1 /\
    0 <= Lift.currentFloor l' <= 6 - 1.
Proof.
  split; [lia|]. split; [reflexivity|]. split; [reflexivity|].
  apply (C5_tick_moves_one_floor_in_range 6 2
           [OpRequest 0 3; OpTick; OpRequest 0 2; OpTick] 0%nat
           {| Lift.id := 0; Lift.totalFloors := 6; Lift.currentFloor := 2;
              Lift.direction := Up; Lift.requests := [mkRequest 0 3];
              Lift.passengers := 1 |});
    [lia | reflexivity | reflexivity].
Defined.

(** ** The passenger-count query *)

Lemma init_length floors n :
  length (ElevatorSystem.lifts (ElevatorSystem.init floors n)) = Z.to_nat n.
Proof. unfold ElevatorSystem.init. simpl. rewrite length_map. apply length_seq. Qed.

(** C10: in every state reached from [init floors carCount], the passenger
    count asked for an index outside [[0, carCount - 1]] is 0. *)
Theorem C10_people_on_unknown_lift_is_zero
    (floors carCount : Z) (ops : list SysOp) (liftId : Z) :
  ~ (0 <= liftId <= carCount - 1) ->
  ElevatorSystem.getNumberOfPeopleOnLift
    (sys_run ops (ElevatorSystem.init floors carCount)) liftId = 0.
Proof.
  intros Hout. unfold ElevatorSystem.getNumberOfPeopleOnLift, ElevatorSystem.liftAt.
  destruct (Z.ltb_spec liftId 0) as [Hneg|Hnonneg]; [reflexivity|].
  rewrite (lookup_ge_None_2 (ElevatorSystem.lifts _)); [reflexivity|].
  rewrite sys_run_length, init_length. lia.
Qed.

Lemma C10_people_on_unknown_lift_is_zero_witness :
  ~ (0 <= 2 <= 2 - 1) /\
  ElevatorSystem.getNumberOfPeopleOnLift
    (sys_run [OpRequest 0 3; OpTick] (ElevatorSystem.init 6 2)) 2 = 0.
Proof.
  split; [lia|].
  apply (C10_people_on_unknown_lift_is_zero 6 2 [OpRequest 0 3; OpTick] 2).
  lia.
Defined.

(** ** Admission of a request by a lift that is under way *)

(** Up request, lift going up: accepted exactly when the lift has not passed
    the start floor; no other floor is looked at. *)
Lemma canAddRequest_up_up l s d :
  Lift.passengers l < 10 -> Lift.direction l = Up -> s < d ->
  Lift.canAddRequest l s d = (Lift.currentFloor l <=? s).
Proof.
  intros Hp Hdir Hsd. unfold Lift.canAddRequest, Lift.isIdle. rewrite Hdir.
  simpl. destruct (Z.geb_spec (Lift.passengers l) 10); [lia|].
  destruct (Z.ltb_spec s d); [|lia]. simpl.
  rewrite Z.gtb_ltb. zbool; try reflexivity; lia.
Qed.

Lemma canAddRequest_down_down l s d :
  Lift.passengers l < 10 -> Lift.direction l = Down -> d <= s ->
  Lift.canAddRequest l s d = (s <=? Lift.currentFloor l).
Proof.
  intros Hp Hdir Hsd. unfold Lift.canAddRequest, Lift.isIdle. rewrite Hdir.
  simpl. destruct (Z.geb_spec (Lift.passengers l) 10); [lia|].
  destruct (Z.ltb_spec s d); [lia|]. simpl.
  zbool; try reflexivity; lia.
Qed.

(** The two rejections of the last branch of [canAddRequest] can never
    fire: the branch is entered only when the request and the lift travel in
    opposite directions, and each test asks for the same direction. *)
Lemma canAddRequest_opposite l s d :
  Lift.passengers l < 10 -> Lift.isIdle l = false ->
  direction_eqb (Lift.direction l) Up = negb (s <? d) ->
  Lift.canAddRequest l s d = true.
Proof.
  intros Hp Hidle Hopp. unfold Lift.canAddRequest. rewrite Hidle, Hopp.
  destruct (Z.geb_spec (Lift.passengers l) 10); [lia|].
  destruct (s <? d); simpl; repeat case_match; reflexivity.
Qed.

(** C1, as stated, fails.  The only lift of a ten-floor system takes a
    request from 0 to 5 and moves one floor: it is going up, under capacity,
    and the farthest floor of its requests is 5.  An up request starting at
    floor 7, beyond 5, is accepted, where the claim says it is rejected. *)
Lemma C1_counterexample :
  lift_after 10 1 [OpRequest 0 5; OpTick] 0 = Some (lift_sweeping_to 10 5) /\
  Lift.direction (lift_sweeping_to 10 5) = Up /\
  farthest (Lift.requests (lift_sweeping_to 10 5)) = Fin 5 /\
  5 < 7 /\
  Lift.canAddRequest (lift_sweeping_to 10 5) 7 8 = true /\
  Lift.canAddRequest (lift_sweeping_to 10 5) 7 8 <> false.
Proof. vm_compute. split_and!; try reflexivity. discriminate. Qed.

(** C1 (amended): a lift going up and under capacity accepts an up request
    exactly when it has not passed the start floor of the request.  The
    farthest floor [F] of its committed requests plays no part: when the
    lift has not passed [F], a request that starts beyond [F] is accepted,
    and so is one that starts at most at [F] and not below the lift. *)
Theorem C1_up_request_accepted_iff_not_passed (l : Lift.t) (s d : Z) :
  Lift.direction l = Up -> Lift.passengers l < 10 -> s < d ->
  (Lift.canAddRequest l s d = true <-> Lift.currentFloor l <= s) /\
  (forall F,
      farthest (Lift.requests l) = Fin F -> Lift.currentFloor l <= F ->
      (F < s -> Lift.canAddRequest l s d = true) /\
      (Lift.currentFloor l <= s <= F -> Lift.canAddRequest l s d = true)).
Proof.
  intros Hdir Hp Hsd. rewrite (canAddRequest_up_up l s d Hp Hdir Hsd).
  split; [apply Z.leb_le|].
  intros F _ HF. split; intros Hs; apply Z.leb_le; lia.
Qed.

Lemma C1_up_request_accepted_iff_not_passed_witness :
  Lift.direction (lift_sweeping_to 10 5) = Up /\
  Lift.passengers (lift_sweeping_to 10 5) < 10 /\
  7 < 8 /\
  (Lift.canAddRequest (lift_sweeping_to 10 5) 7 8 = true
   <-> Lift.currentFloor (lift_sweeping_to 10 5) <= 7) /\
  (forall F,
      farthest (Lift.requests (lift_sweeping_to 10 5)) = Fin F ->
      Lift.currentFloor (lift_sweeping_to 10 5) <= F ->
      (F < 7 -> Lift.canAddRequest (lift_sweeping_to 10 5) 7 8 = true) /\
      (Lift.currentFloor (lift_sweeping_to 10 5) <= 7 <= F ->
       Lift.canAddRequest (lift_sweeping_to 10 5) 7 8 = true)).
Proof.
  split; [reflexivity|]. split; [reflexivity|]. split; [reflexivity|].
  apply (C1_up_request_accepted_iff_not_passed (lift_sweeping_to 10 5) 7 8);
    reflexivity.
Defined.

(** C3 at a failing input.  A lift going up from floor 1 whose farthest
    committed floor is 3 accepts a down request that starts at floor 8: to
    serve it the lift has to run five floors past its turnaround point. *)
Theorem C3_opposite_request_past_turnaround_accepted :
  lift_after 10 1 [OpRequest 0 3; OpTick] 0 = Some (lift_sweeping_to 10 3) /\
  Lift.direction (lift_sweeping_to 10 3) = Up /\
  farthest (Lift.requests (lift_sweeping_to 10 3)) = Fin 3 /\
  Lift.canAddRequest (lift_sweeping_to 10 3) 8 2 = true /\
  fst (ElevatorSystem.requestLift
         (sys_run [OpRequest 0 3; OpTick] (ElevatorSystem.init 10 1)) 8 2) = 0.
Proof. vm_compute. repeat split; reflexivity. Qed.

(** ** The time estimate *)

Lemma eta_idle l s rd :
  Lift.isIdle l = true ->
  Lift.calculateTimeToReach l s rd = dist (Lift.currentFloor l) s.
Proof. intros Hidle. unfold Lift.calculateTimeToReach. rewrite Hidle. reflexivity. Qed.

Lemma eta_ahead_up l s :
  Lift.direction l = Up -> Lift.currentFloor l <= s ->
  Lift.calculateTimeToReach l s Up = s - Lift.currentFloor l.
Proof.
  intros Hdir Hs. unfold Lift.calculateTimeToReach, Lift.isIdle.
  rewrite Hdir. simpl. rewrite Z.geb_leb.
  destruct (Z.leb_spec (Lift.currentFloor l) s); [reflexivity|lia].
Qed.

Lemma eta_ahead_down l s :
  Lift.direction l = Down -> s <= Lift.currentFloor l ->
  Lift.calculateTimeToReach l s Down = Lift.currentFloor l - s.
Proof.
  intros Hdir Hs. unfold Lift.calculateTimeToReach, Lift.isIdle.
  rewrite Hdir. simpl.
  destruct (Z.leb_spec s (Lift.currentFloor l)); [reflexivity|lia].
Qed.

(** Lift going up, request going down, or going up from a floor the lift
    has passed: up to the turnaround floor, then the signed difference from
    the start floor to it. *)
Lemma eta_reverse_up l s rd :
  Lift.direction l = Up -> rd <> Up \/ s < Lift.currentFloor l ->
  Lift.calculateTimeToReach l s rd
  = (Lift.turnaround l true - Lift.currentFloor l)
    + (Lift.turnaround l true - s).
Proof.
  intros Hdir Hcase. unfold Lift.calculateTimeToReach, Lift.isIdle.
  rewrite Hdir. simpl. rewrite Z.geb_leb.
  destruct rd; simpl; try reflexivity.
  destruct Hcase as [Hrd|Hs]; [congruence|].
  destruct (Z.leb_spec (Lift.currentFloor l) s); [lia|reflexivity].
Qed.

Lemma eta_reverse_down l s rd :
  Lift.direction l = Down -> rd = Up \/ Lift.currentFloor l < s ->
  Lift.calculateTimeToReach l s rd
  = (Lift.currentFloor l - Lift.turnaround l false)
    + (s - Lift.turnaround l false).
Proof.
  intros Hdir Hcase. unfold Lift.calculateTimeToReach, Lift.isIdle.
  rewrite Hdir. simpl.
  destruct rd; simpl; try reflexivity;
    destruct Hcase as [Hrd|Hs]; try congruence;
    destruct (Z.leb_spec s (Lift.currentFloor l)); try lia; reflexivity.
Qed.

(** The turnaround floor of a lift going up is at or above the lift and at
    or above every floor of its requests. *)
Lemma fold_max_ge (rs : list Request) : forall m,
  m <= fold_left (fun m r => Z.max (Z.max m (start r)) (dest r)) rs m.
Proof.
  induction rs as [|r rs IH]; intros m; simpl; [lia|].
  specialize (IH (Z.max (Z.max m (start r)) (dest r))). lia.
Qed.

Lemma turnaround_up_ge l : Lift.currentFloor l <= Lift.turnaround l true.
Proof. unfold Lift.turnaround. apply fold_max_ge. Qed.

Lemma fold_min_le (rs : list Request) : forall m,
  fold_left (fun m r => Z.min (Z.min m (start r)) (dest r)) rs m <= m.
Proof.
  induction rs as [|r rs IH]; intros m; simpl; [lia|].
  specialize (IH (Z.min (Z.min m (start r)) (dest r))). lia.
Qed.

Lemma turnaround_down_le l : Lift.turnaround l false <= Lift.currentFloor l.
Proof. unfold Lift.turnaround. apply fold_min_le. Qed.

Section Farthest.

Local Abbreviation step := (fun m r => Z.max (Z.max m (start r)) (dest r)).

Lemma fold_max_absorb (rs : list Request) : forall a b,
  fold_left step rs (Z.max a b) = Z.max a (fold_left step rs b).
Proof.
  induction rs as [|r rs IH]; intros a b; simpl; [reflexivity|].
  rewrite <- IH. f_equal. lia.
Qed.

Lemma fold_max_bound (rs : list Request) r : forall m,
  In r rs ->
  start r <= fold_left step rs m /\ dest r <= fold_left step rs m.
Proof.
  induction rs as [|r0 rs IH]; intros m Hin; [contradiction|].
  simpl. destruct Hin as [->|Hin]; [|apply IH; exact Hin].
  pose proof (fold_max_ge rs (Z.max (Z.max m (start r)) (dest r))) as Hge.
  lia.
Qed.

Lemma num_max_Fin a b : num_max (Fin a) (Fin b) = Fin (Z.max a b).
Proof. unfold num_max. simpl. zbool; f_equal; lia. Qed.

Lemma fold_num_max_Fin (rs : list Request) : forall m,
  fold_left (fun acc x => num_max acc (Fin x))
            (flat_map (fun r => [start r; dest r]) rs) (Fin m)
  = Fin (fold_left step rs m).
Proof.
  induction rs as [|r rs IH]; intros m; simpl; [reflexivity|].
  rewrite !num_max_Fin. apply IH.
Qed.

Lemma farthest_cons r rs :
  farthest (r :: rs) = Fin (fold_left step rs (Z.max (start r) (dest r))).
Proof.
  unfold farthest, math_max. simpl.
  change (num_max NegInf (Fin (start r))) with (Fin (start r)).
  rewrite num_max_Fin. apply fold_num_max_Fin.
Qed.

(** For a lift that has work above it, the turnaround floor is the farthest
    floor of its requests. *)
Lemma turnaround_up_farthest l :
  Lift.hasUpRequests l = true ->
  Fin (Lift.turnaround l true) = farthest (Lift.requests l).
Proof.
  unfold Lift.hasUpRequests, Lift.turnaround. intros Hup.
  apply existsb_exists in Hup as (r' & Hin & Hr').
  destruct (Lift.requests l) as [|r rs]; [contradiction|].
  rewrite farthest_cons. f_equal. simpl.
  replace (Z.max (Z.max (Lift.currentFloor l) (start r)) (dest r))
    with (Z.max (Lift.currentFloor l) (Z.max (start r) (dest r))) by lia.
  rewrite fold_max_absorb.
  pose proof (fold_max_ge rs (Z.max (start r) (dest r))) as Hge.
  destruct Hin as [->|Hin].
  - zbool; simpl in Hr'; try discriminate; lia.
  - pose proof (fold_max_bound rs r' (Z.max (start r) (dest r)) Hin) as [? ?].
    zbool; simpl in Hr'; try discriminate; lia.
Qed.

End Farthest.

(** When the start floor is not beyond the turnaround floor, the estimate
    of a lift going up is the distance to the turnaround floor plus the
    distance from there back to the start floor. *)
Lemma eta_reverse_up_within l s rd :
  Lift.direction l = Up -> rd <> Up \/ s < Lift.currentFloor l ->
  s <= Lift.turnaround l true ->
  Lift.calculateTimeToReach l s rd
  = dist (Lift.currentFloor l) (Lift.turnaround l true)
    + dist (Lift.turnaround l true) s.
Proof.
  intros Hdir Hcase Hs. rewrite eta_reverse_up by assumption.
  pose proof (turnaround_up_ge l). unfold dist. lia.
Qed.

Lemma eta_reverse_down_within l s rd :
  Lift.direction l = Down -> rd = Up \/ Lift.currentFloor l < s ->
  Lift.turnaround l false <= s ->
  Lift.calculateTimeToReach l s rd
  = dist (Lift.currentFloor l) (Lift.turnaround l false)
    + dist (Lift.turnaround l false) s.
Proof.
  intros Hdir Hcase Hs. rewrite eta_reverse_down by assumption.
  pose proof (turnaround_down_le l). unfold dist. lia.
Qed.

(** C9 at a failing input.  A lift going up from floor 1 turns around at
    floor 3, the farthest floor of its requests.  For a down request that
    starts at floor 8 the two distances are 2 and 5; the program subtracts
    the start floor from the turnaround floor instead and returns -3.  The
    request is eligible, so [requestLift] does ask for this estimate. *)
Theorem C9_estimate_past_turnaround_is_negative :
  lift_after 10 1 [OpRequest 0 3; OpTick] 0 = Some (lift_sweeping_to 10 3) /\
  Lift.isIdle (lift_sweeping_to 10 3) = false /\
  Lift.direction (lift_sweeping_to 10 3) = Up /\
  Fin (Lift.turnaround (lift_sweeping_to 10 3) true)
  = farthest (Lift.requests (lift_sweeping_to 10 3)) /\
  Lift.turnaround (lift_sweeping_to 10 3) true = 3 /\
  Lift.canAddRequest (lift_sweeping_to 10 3) 8 2 = true /\
  Lift.calculateTimeToReach (lift_sweeping_to 10 3) 8 (requestDirectionOf 8 2)
  = -3 /\
  dist (Lift.currentFloor (lift_sweeping_to 10 3)) 3 + dist 3 8 = 7.
Proof. vm_compute. repeat split; reflexivity. Qed.

(** ** Committing requests and riding them out *)

(** An idle lift without requests does not change when it moves. *)
Lemma move_idle_empty l :
  Lift.direction l = Idle -> Lift.requests l = [] -> Lift.move l = l.
Proof.
  destruct l as [i tf c dir rs p]. simpl. intros -> ->.
  unfold Lift.move, Lift.updateDirection, Lift.setDirection. simpl.
  f_equal. lia.
Qed.

Lemma advance_idle_empty k l :
  Lift.direction l = Idle -> Lift.requests l = [] -> advance k l = l.
Proof.
  intros Hd Hr. induction k as [|k IH]; [reflexivity|].
  unfold advance in *. simpl. rewrite IH. apply move_idle_empty; assumption.
Qed.

(** A request picked up on the way is dropped from the list: the lift stops
    at the start floor and never gets to the dest floor. *)
Example pickup_ends_the_trip (k : nat) :
  reached k (commit [mkRequest 2 5] (Lift.new 0 6)) 5 = false /\
  Lift.passengers (advance (2 + k) (commit [mkRequest 2 5] (Lift.new 0 6))) = 1.
Proof.
  assert (Hstop : forall j,
    advance (2 + j) (commit [mkRequest 2 5] (Lift.new 0 6))
    = {| Lift.id := 0; Lift.totalFloors := 6; Lift.currentFloor := 2;
         Lift.direction := Idle; Lift.requests := []; Lift.passengers := 1 |}).
  { intros j. unfold advance. rewrite (Nat.add_comm 2 j), Nat.iter_add.
    apply (advance_idle_empty j); reflexivity. }
  split; [|rewrite Hstop; reflexivity].
  unfold reached. apply not_true_is_false. intros Hex.
  apply existsb_exists in Hex as (j & _ & Hj).
  destruct j as [|[|j]]; try discriminate Hj.
  change (S (S j)) with (2 + j)%nat in Hj. rewrite Hstop in Hj. discriminate Hj.
Qed.

(** C2 at a failing input.  A fresh lift takes the requests 0 to 3 and 1 to
    3, both eligible, and moves three times.  It has then stood at the dest
    floor of both, is idle and has no request left, yet its passenger count
    is 1: the request picked up at floor 1 was removed there and was never
    counted off.  Further moves change nothing. *)
Theorem C2_round_trip_leaves_a_passenger :
  Lift.canAddRequest (Lift.new 0 6) 0 3 = true /\
  Lift.canAddRequest (Lift.addRequest (Lift.new 0 6) 0 3) 1 3 = true /\
  forallb (fun r => reached 3 (commit [mkRequest 0 3; mkRequest 1 3]
                                      (Lift.new 0 6)) (dest r))
          [mkRequest 0 3; mkRequest 1 3] = true /\
  advance 3 (commit [mkRequest 0 3; mkRequest 1 3] (Lift.new 0 6))
  = {| Lift.id := 0; Lift.totalFloors := 6; Lift.currentFloor := 3;
       Lift.direction := Idle; Lift.requests := []; Lift.passengers := 1 |} /\
  Lift.move (advance 3 (commit [mkRequest 0 3; mkRequest 1 3] (Lift.new 0 6)))
  = advance 3 (commit [mkRequest 0 3; mkRequest 1 3] (Lift.new 0 6)) /\
  ElevatorSystem.getNumberOfPeopleOnLift
    (sys_run [OpRequest 0 3; OpRequest 1 3; OpTick; OpTick; OpTick]
             (ElevatorSystem.init 6 1)) 0 = 1.
Proof. vm_compute. repeat split; reflexivity. Qed.

(** * Further properties of the dispatch code *)

(** ** The decision of canAddRequest *)

(** X1: [canAddRequest] accepts exactly when the lift is under capacity and
    either idle, or not a lift that travels the way of the request and has
    passed its start floor.  The floors of the pending requests never enter
    the decision; a request against the lift's direction is never
    rejected. *)
Theorem canAddRequest_decision (l : Lift.t) (s d : Z) :
  Lift.canAddRequest l s d
  = (Lift.passengers l <? 10)
    && (Lift.isIdle l
        || negb ((direction_eqb (Lift.direction l) Up && (s <? d)
                  && (s <? Lift.currentFloor l))
                 || (negb (direction_eqb (Lift.direction l) Up)
                     && negb (s <? d) && (Lift.currentFloor l <? s)))).
Proof.
  unfold Lift.canAddRequest. rewrite Z.geb_leb, Z.gtb_ltb.
  destruct (Z.leb_spec 10 (Lift.passengers l)),
           (Z.ltb_spec (Lift.passengers l) 10); try lia; simpl;
    try reflexivity.
  destruct (Lift.isIdle l); simpl; [reflexivity|].
  destruct (direction_eqb (Lift.direction l) Up), (s <? d); simpl;
    repeat case_match; reflexivity.
Qed.

(** ** getLiftsStoppingOnFloor *)

Lemma stoppingFrom_In ls floor md : forall i x,
  In x (ElevatorSystem.stoppingFrom ls i floor md) <->
  exists (k : nat) (l : Lift.t),
    x = i + Z.of_nat k /\ ls !! k = Some l /\ stopsAt l floor = true /\
    (md = Idle \/ Lift.direction l = md).
Proof.
  assert (Hdir : forall l,
    direction_eqb md Idle || direction_eqb (Lift.direction l) md = true
    <-> md = Idle \/ Lift.direction l = md).
  { intros l. destruct md, (Lift.direction l); simpl; split; intros H;
      try reflexivity; try discriminate; auto;
      destruct H as [H|H]; discriminate. }
  induction ls as [|l ls IH]; intros i x; cbn [ElevatorSystem.stoppingFrom].
  { split; [contradiction|]. intros (k & l & _ & Hk & _). discriminate Hk. }
  fold (stopsAt l floor).
  destruct (stopsAt l floor
            && (direction_eqb md Idle || direction_eqb (Lift.direction l) md))
    eqn:Hsel.
  - apply andb_true_iff in Hsel as [Hstop Hmd]. apply Hdir in Hmd.
    simpl. rewrite IH. split.
    + intros [<-|(k & l' & -> & Hk & Hl')].
      * exists 0%nat, l. split_and!; auto. lia.
      * exists (S k), l'. split_and!; try tauto. lia.
    + intros ([|k] & l' & -> & Hk & Hl'); [left; lia|right].
      exists k, l'. split_and!; try tauto. lia.
  - rewrite IH. split.
    + intros (k & l' & -> & Hk & Hl'). exists (S k), l'.
      split_and!; try tauto. lia.
    + intros ([|k] & l' & -> & Hk & Hstop & Hmd).
      * simpl in Hk. injection Hk as <-. apply Hdir in Hmd.
        rewrite Hstop, Hmd in Hsel. discriminate Hsel.
      * exists k, l'. split_and!; auto. lia.
Qed.

Lemma stoppingFrom_sorted ls floor md : forall i,
  Forall (fun x => i <= x) (ElevatorSystem.stoppingFrom ls i floor md) /\
  StronglySorted Z.lt (ElevatorSystem.stoppingFrom ls i floor md).
Proof.
  induction ls as [|l ls IH]; intros i; cbn [ElevatorSystem.stoppingFrom].
  { split; constructor. }
  destruct (IH (i + 1)) as [Hge Hsorted].
  assert (Hge' : Forall (fun x => i <= x)
                        (ElevatorSystem.stoppingFrom ls (i + 1) floor md)).
  { eapply Forall_impl; [exact Hge|]. simpl. intros; lia. }
  case_match.
  - split; constructor; try assumption; try lia.
    eapply Forall_impl; [exact Hge|]. simpl. intros; lia.
  - split; assumption.
Qed.

(** X2: [getLiftsStoppingOnFloor] returns, in increasing order and without
    repetition, exactly the indices of the lifts that have a pending request
    starting or ending at the floor and, unless the direction asked for is
    ['I'], travel in that direction. *)
Theorem getLiftsStoppingOnFloor_exact
    (sys : ElevatorSystem.t) (floor : Z) (moveDirection : Direction) :
  StronglySorted Z.lt
    (ElevatorSystem.getLiftsStoppingOnFloor sys floor moveDirection) /\
  forall i : Z,
    In i (ElevatorSystem.getLiftsStoppingOnFloor sys floor moveDirection) <->
    exists l, ElevatorSystem.liftAt sys i = Some l /\
              stopsAt l floor = true /\
              (moveDirection = Idle \/ Lift.direction l = moveDirection).
Proof.
  unfold ElevatorSystem.getLiftsStoppingOnFloor. split.
  - apply stoppingFrom_sorted.
  - intros i. rewrite stoppingFrom_In. unfold ElevatorSystem.liftAt. split.
    + intros (k & l & -> & Hk & Hl). exists l.
      destruct (Z.ltb_spec (0 + Z.of_nat k) 0); [lia|].
      replace (Z.to_nat (0 + Z.of_nat k)) with k by lia. tauto.
    + intros (l & Hi & Hl).
      destruct (Z.ltb_spec i 0); [discriminate|].
      exists (Z.to_nat i), l. split_and!; try tauto. lia.
Qed.

(** ** The shape of the system *)

Lemma alter_map_same {A B} (g : A -> B) (f : A -> A) (xs : list A) :
  (forall x, g (f x) = g x) -> forall i, map g (alter f i xs) = map g xs.
Proof.
  intros Hg. induction xs as [|x xs IH]; intros [|i]; simpl;
    try reflexivity.
  - rewrite Hg. reflexivity.
  - f_equal. apply IH.
Qed.

Lemma updateDirection_id l : Lift.id (Lift.updateDirection l) = Lift.id l.
Proof. unfold Lift.updateDirection. repeat case_match; reflexivity. Qed.

Lemma sys_run_ids ops : forall sys,
  map Lift.id (ElevatorSystem.lifts (sys_run ops sys))
  = map Lift.id (ElevatorSystem.lifts sys) /\
  map Lift.totalFloors (ElevatorSystem.lifts (sys_run ops sys))
  = map Lift.totalFloors (ElevatorSystem.lifts sys).
Proof.
  induction ops as [|op ops IH]; intros sys; [split; reflexivity|].
  simpl. destruct (IH (sys_step sys op)) as [-> ->].
  destruct op as [s d|]; simpl.
  - destruct (requestLift_cases sys s d) as [->|(b & lb & _ & _ & ->)];
      [split; reflexivity|].
    simpl. split; apply alter_map_same; intros x; unfold Lift.addRequest.
    + rewrite updateDirection_id. reflexivity.
    + rewrite updateDirection_totalFloors. reflexivity.
  - rewrite !map_map. split; apply map_ext; intros l; unfold Lift.move.
    + rewrite updateDirection_id. reflexivity.
    + rewrite updateDirection_totalFloors. reflexivity.
Qed.

(** X3: calls never add, remove or renumber lifts: in every state reached
    from [init(floors, n)] the lifts are the [n] lifts with ids 0 .. n-1 in
    index order, each with [totalFloors = floors]. *)
Theorem lifts_keep_their_identity (floors n : Z) (ops : list SysOp) :
  map Lift.id
      (ElevatorSystem.lifts (sys_run ops (ElevatorSystem.init floors n)))
  = map Z.of_nat (seq 0 (Z.to_nat n)) /\
  map Lift.totalFloors
      (ElevatorSystem.lifts (sys_run ops (ElevatorSystem.init floors n)))
  = repeat floors (Z.to_nat n).
Proof.
  destruct (sys_run_ids ops (ElevatorSystem.init floors n)) as [-> ->].
  unfold ElevatorSystem.init. simpl. rewrite !map_map. simpl. split.
  - reflexivity.
  - generalize 0%nat. induction (Z.to_nat n) as [|k IH]; intros j; simpl;
      [reflexivity|]. f_equal. apply IH.
Qed.

(** X4: [requestLift] returns -1 exactly when no lift is eligible, and
    otherwise an index of the list of lifts. *)
Theorem requestLift_result_range (sys : ElevatorSystem.t) (s d : Z) :
  (someEligible (ElevatorSystem.lifts sys) s d = false /\
   fst (ElevatorSystem.requestLift sys s d) = -1)
  \/ (someEligible (ElevatorSystem.lifts sys) s d = true /\
      0 <= fst (ElevatorSystem.requestLift sys s d)
        < Z.of_nat (length (ElevatorSystem.lifts sys))).
Proof.
  destruct (someEligible (ElevatorSystem.lifts sys) s d) eqn:Hsome.
  - right. split; [reflexivity|].
    destruct (selectLift_some _ s d (requestDirectionOf s d) Hsome)
      as (b & lb & Hr & Hb & _).
    unfold ElevatorSystem.requestLift. fold (requestDirectionOf s d).
    rewrite Hr. cbn [fst].
    replace (negb (Z.of_nat b =? -1)) with true
      by (symmetry; apply negb_true_iff, Z.eqb_neq; lia).
    cbn [fst]. apply lookup_lt_Some in Hb. lia.
  - left. split; [reflexivity|]. unfold ElevatorSystem.requestLift.
    rewrite selectLift_none by exact Hsome. reflexivity.
Qed.

(** ** Passengers and pending requests along a run *)

Lemma sys_run_load_ok (floors n : Z) (ops : list SysOp) :
  Forall load_ok
    (ElevatorSystem.lifts (sys_run ops (ElevatorSystem.init floors n))).
Proof.
  apply (sys_run_invariant load_ok (fun _ => true)).
  - apply load_ok_move.
  - intros l s d _. apply load_ok_addRequest.
  - induction ops; simpl; auto.
  - apply init_invariant. intros id. apply load_ok_new.
Qed.

(** X5: in every state reached from [init], each lift counts at least as
    many passengers as it has pending requests: a request is counted when it
    is committed and is counted off at the earliest when it leaves the
    list. *)
Theorem passengers_cover_pending_requests (floors n : Z) (ops : list SysOp) :
  Forall (fun l => Z.of_nat (length (Lift.requests l)) <= Lift.passengers l)
         (ElevatorSystem.lifts (sys_run ops (ElevatorSystem.init floors n))).
Proof.
  eapply Forall_impl; [apply sys_run_load_ok|].
  unfold load_ok. intros l Hl. lia.
Qed.

(** X6: in every state reached from [init], [getNumberOfPeopleOnLift]
    answers the passenger count of the lift for an index of a lift, and its
    answer lies between 0 and 10 for every argument. *)
Theorem getNumberOfPeopleOnLift_answer
    (floors n : Z) (ops : list SysOp) (liftId : Z) :
  0 <= ElevatorSystem.getNumberOfPeopleOnLift
         (sys_run ops (ElevatorSystem.init floors n)) liftId <= 10 /\
  forall l,
    ElevatorSystem.liftAt (sys_run ops (ElevatorSystem.init floors n)) liftId
    = Some l ->
    ElevatorSystem.getNumberOfPeopleOnLift
      (sys_run ops (ElevatorSystem.init floors n)) liftId
    = Lift.passengers l.
Proof.
  unfold ElevatorSystem.getNumberOfPeopleOnLift.
  destruct (ElevatorSystem.liftAt _ liftId) as [l|] eqn:Hl.
  - assert (Hload : load_ok l).
    { unfold ElevatorSystem.liftAt in Hl.
      destruct (liftId <? 0); [discriminate|].
      eapply Forall_lookup_1; [apply sys_run_load_ok | exact Hl]. }
    unfold load_ok in Hload. split.
    + destruct (Z.eqb_spec (Lift.passengers l) 0); lia.
    + intros l' Hl'. injection Hl' as <-.
      destruct (Z.eqb_spec (Lift.passengers l) 0); congruence.
  - split; [lia|]. intros l Hl'. discriminate Hl'.
Qed.

(** ** What a tick leaves behind *)

Lemma move_clears_floor l :
  stopsAt (Lift.move l) (Lift.currentFloor (Lift.move l)) = false.
Proof.
  unfold stopsAt. rewrite move_requests, move_currentFloor.
  set (f := nextFloor l). apply not_true_is_false. intros Hex.
  apply existsb_exists in Hex as (r & Hr & Hstop).
  apply filter_In in Hr as [Hr Hs]. apply filter_In in Hr as [_ Hd].
  destruct (start r =? f), (dest r =? f); simpl in *; congruence.
Qed.

(** X7: after a tick no lift has a pending request that starts or ends at
    the floor it stands on, whatever the system was before. *)
Theorem tick_clears_current_floor (sys : ElevatorSystem.t) :
  Forall (fun l => stopsAt l (Lift.currentFloor l) = false)
         (ElevatorSystem.lifts (ElevatorSystem.tick sys)).
Proof.
  unfold ElevatorSystem.tick. simpl. apply Forall_map.
  apply Forall_forall. intros l _. apply move_clears_floor.
Qed.

(** X8: a tick changes nothing in a system whose lifts are all idle with no
    pending request; passenger counts, floors and directions stay. *)
Theorem tick_of_idle_system (sys : ElevatorSystem.t) :
  Forall (fun l => Lift.direction l = Idle /\ Lift.requests l = [])
         (ElevatorSystem.lifts sys) ->
  ElevatorSystem.tick sys = sys.
Proof.
  destruct sys as [ls tf]. unfold ElevatorSystem.tick. simpl. intros Hidle.
  f_equal. induction Hidle as [|l ls [Hd Hr] _ IH]; simpl; [reflexivity|].
  rewrite IH, move_idle_empty by assumption. reflexivity.
Qed.

Lemma tick_of_idle_system_witness :
  Forall (fun l => Lift.direction l = Idle /\ Lift.requests l = [])
         (ElevatorSystem.lifts
            (sys_run [OpRequest 0 2; OpTick; OpTick] (ElevatorSystem.init 6 2)))
  /\ ElevatorSystem.tick
       (sys_run [OpRequest 0 2; OpTick; OpTick] (ElevatorSystem.init 6 2))
     = sys_run [OpRequest 0 2; OpTick; OpTick] (ElevatorSystem.init 6 2).
Proof.
  assert (H : Forall (fun l => Lift.direction l = Idle /\ Lift.requests l = [])
         (ElevatorSystem.lifts
            (sys_run [OpRequest 0 2; OpTick; OpTick] (ElevatorSystem.init 6 2)))).
  { repeat constructor. }
  split; [exact H|].
  apply (tick_of_idle_system
           (sys_run [OpRequest 0 2; OpTick; OpTick] (ElevatorSystem.init 6 2))).
  exact H.
Defined.

(** ** Every request leaves the list within two sweeps *)

Lemma forallb_Forall {A} (f : A -> bool) (P : A -> Prop) (xs : list A) :
  (forall x, f x = true <-> P x) -> forallb f xs = true <-> Forall P xs.
Proof.
  intros HfP. induction xs as [|x xs IH]; simpl.
  - split; [constructor | reflexivity].
  - rewrite andb_true_iff, Forall_cons, HfP, IH. reflexivity.
Qed.

Lemma existsb_false_Forall {A} (f : A -> bool) (P : A -> Prop) (xs : list A) :
  (forall x, f x = false <-> P x) -> existsb f xs = false <-> Forall P xs.
Proof.
  intros HfP. induction xs as [|x xs IH]; simpl.
  - split; [constructor | reflexivity].
  - rewrite orb_false_iff, Forall_cons, HfP, IH. reflexivity.
Qed.

Lemma hasUpRequests_false l :
  Lift.hasUpRequests l = false <->
  Forall (fun r => start r <= Lift.currentFloor l
                   /\ dest r <= Lift.currentFloor l) (Lift.requests l).
Proof.
  apply existsb_false_Forall. intros r. zbool; simpl; split; intros Hx;
    try reflexivity; try discriminate; lia.
Qed.

Lemma hasDownRequests_false l :
  Lift.hasDownRequests l = false <->
  Forall (fun r => Lift.currentFloor l <= start r
                   /\ Lift.currentFloor l <= dest r) (Lift.requests l).
Proof.
  apply existsb_false_Forall. intros r. zbool; simpl; split; intros Hx;
    try reflexivity; try discriminate; lia.
Qed.

Lemma all_above_true l :
  all_above l = true <->
  Forall (fun r => Lift.currentFloor l < start r
                   /\ Lift.currentFloor l < dest r) (Lift.requests l).
Proof.
  apply forallb_Forall. intros r. zbool; simpl; split; intros Hx;
    try reflexivity; try discriminate; lia.
Qed.

Lemma all_below_true l :
  all_below l = true <->
  Forall (fun r => start r < Lift.currentFloor l
                   /\ dest r < Lift.currentFloor l) (Lift.requests l).
Proof.
  apply forallb_Forall. intros r. zbool; simpl; split; intros Hx;
    try reflexivity; try discriminate; lia.
Qed.

(** The requests that survive a move neither start nor end at the floor
    reached. *)
Lemma move_requests_off_floor l :
  Forall (fun r => start r <> nextFloor l /\ dest r <> nextFloor l)
         (Lift.requests (Lift.move l)).
Proof.
  rewrite move_requests. apply List.Forall_forall. intros r Hr.
  apply filter_In in Hr as [Hr Hs]. apply filter_In in Hr as [_ Hd].
  split; intros Heq; rewrite Heq, Z.eqb_refl in *; discriminate.
Qed.

Lemma move_requests_kept (P : Request -> Prop) l :
  Forall P (Lift.requests l) -> Forall P (Lift.requests (Lift.move l)).
Proof.
  intros HP. rewrite move_requests. do 2 apply Forall_List_filter. exact HP.
Qed.

(** The direction [updateDirection] leaves, case by case. *)
Lemma updateDirection_direction l :
  Lift.direction (Lift.updateDirection l) =
  match Lift.requests l with
  | [] => Idle
  | _ :: _ =>
      if direction_eqb (Lift.direction l) Up && Lift.hasUpRequests l then Up
      else if direction_eqb (Lift.direction l) Down && Lift.hasDownRequests l
      then Down
      else if Lift.hasUpRequests l then Up
      else if Lift.hasDownRequests l then Down
      else Idle
  end.
Proof.
  unfold Lift.updateDirection. destruct (Lift.requests l); simpl;
    [reflexivity|]. repeat case_match; reflexivity.
Qed.

Lemma hasUpRequests_updateDirection l :
  Lift.hasUpRequests (Lift.updateDirection l) = Lift.hasUpRequests l.
Proof.
  unfold Lift.hasUpRequests.
  rewrite updateDirection_requests, updateDirection_currentFloor. reflexivity.
Qed.

Lemma hasDownRequests_updateDirection l :
  Lift.hasDownRequests (Lift.updateDirection l) = Lift.hasDownRequests l.
Proof.
  unfold Lift.hasDownRequests.
  rewrite updateDirection_requests, updateDirection_currentFloor. reflexivity.
Qed.

Lemma updateDirection_Idle_no_work l :
  Lift.direction (Lift.updateDirection l) = Idle ->
  Lift.hasUpRequests (Lift.updateDirection l) = false /\
  Lift.hasDownRequests (Lift.updateDirection l) = false.
Proof.
  rewrite hasUpRequests_updateDirection, hasDownRequests_updateDirection.
  rewrite updateDirection_direction.
  destruct (Lift.requests l) as [|r rs] eqn:Hrs.
  - intros _. unfold Lift.hasUpRequests, Lift.hasDownRequests.
    rewrite Hrs. split; reflexivity.
  - destruct (Lift.direction l), (Lift.hasUpRequests l),
      (Lift.hasDownRequests l); simpl; intros Hd; try discriminate; auto.
Qed.

Lemma move_direction l :
  Lift.direction (Lift.move l) =
  match Lift.requests (Lift.move l) with
  | [] => Idle
  | _ :: _ =>
      if direction_eqb (Lift.direction l) Up
         && Lift.hasUpRequests (Lift.move l) then Up
      else if direction_eqb (Lift.direction l) Down
              && Lift.hasDownRequests (Lift.move l) then Down
      else if Lift.hasUpRequests (Lift.move l) then Up
      else if Lift.hasDownRequests (Lift.move l) then Down
      else Idle
  end.
Proof.
  unfold Lift.move.
  rewrite updateDirection_direction, hasUpRequests_updateDirection,
    hasDownRequests_updateDirection, updateDirection_requests.
  reflexivity.
Qed.

Lemma Forall_and_weaken {A} (P Q R : A -> Prop) (xs : list A) :
  Forall P xs -> Forall Q xs -> (forall x, P x -> Q x -> R x) -> Forall R xs.
Proof.
  intros HP HQ HR. induction HP as [|x xs Hx _ IH]; [constructor|].
  apply Forall_cons in HQ as [Hq HQ]. constructor; auto.
Qed.

(** A move of a lift that has requests brings it strictly nearer to having
    none. *)
Lemma moves_left_move floors l :
  lift_settled floors l -> Lift.requests l <> [] ->
  0 <= moves_left floors (Lift.move l) < moves_left floors l.
Proof.
  intros [[Hf Hr Hup Hdown] Hidle] Hne.
  pose proof (move_currentFloor l) as Hc.
  pose proof (move_requests_off_floor l) as Hoff.
  pose proof (move_direction l) as Hdir.
  pose proof (hasUpRequests_false (Lift.move l)) as HnoUp.
  pose proof (hasDownRequests_false (Lift.move l)) as HnoDown.
  pose proof (all_above_true (Lift.move l)) as Habove'.
  pose proof (all_below_true (Lift.move l)) as Hbelow'.
  pose proof (all_above_true l) as Habove.
  pose proof (all_below_true l) as Hbelow.
  pose proof (fun P => move_requests_kept P l) as Hkept.
  rewrite Hc in HnoUp, HnoDown, Habove', Hbelow'.
  unfold moves_left. rewrite Hc, Hdir. clear Hdir.
  destruct (Lift.requests l) as [|r0 rs0] eqn:Hrl; [congruence|].
  rewrite <- Hrl in *. clear Hne.
  unfold nextFloor in *.
  destruct (Lift.direction l) eqn:Hd; simpl direction_eqb; cbn [andb].
  - (* a lift on its way up *)
    pose proof (hasUpRequests_room floors l Hr (Hup eq_refl)) as Hroom.
    destruct (Lift.requests (Lift.move l)) as [|r rs] eqn:Hrm.
    { destruct (all_above l); lia. }
    rewrite <- Hrm in *.
    destruct (Lift.hasUpRequests (Lift.move l)) eqn:Hup'.
    + destruct (all_above l) eqn:Ha.
      * replace (all_above (Lift.move l)) with true; [lia|].
        symmetry. apply Habove'.
        apply (Forall_and_weaken _ _ _ _ (Hkept _ (proj1 Habove eq_refl)) Hoff).
        intros x. lia.
      * destruct (all_above (Lift.move l)); lia.
    + assert (Hlow : Forall (fun r => start r < Lift.currentFloor l + 1
                                      /\ dest r < Lift.currentFloor l + 1)
                            (Lift.requests (Lift.move l))).
      { apply (Forall_and_weaken _ _ _ _ (proj1 HnoUp eq_refl) Hoff).
        intros x. lia. }
      assert (Ha : all_above l = false).
      { apply not_true_is_false. intros Ha.
        pose proof (Hkept _ (proj1 Habove Ha)) as Hhigh.
        rewrite Hrm in Hlow, Hhigh.
        apply Forall_cons in Hlow as [? _]. apply Forall_cons in Hhigh as [? _].
        lia. }
      rewrite Ha.
      destruct (Lift.hasDownRequests (Lift.move l)).
      * replace (all_below (Lift.move l)) with true; [lia|].
        symmetry. apply Hbelow'. exact Hlow.
      * lia.
  - (* a lift on its way down *)
    pose proof (hasDownRequests_room floors l Hr (Hdown eq_refl)) as Hroom.
    destruct (Lift.requests (Lift.move l)) as [|r rs] eqn:Hrm.
    { destruct (all_below l); lia. }
    rewrite <- Hrm in *.
    destruct (Lift.hasDownRequests (Lift.move l)) eqn:Hdown'.
    + destruct (all_below l) eqn:Hb.
      * replace (all_below (Lift.move l)) with true; [lia|].
        symmetry. apply Hbelow'.
        apply (Forall_and_weaken _ _ _ _ (Hkept _ (proj1 Hbelow eq_refl)) Hoff).
        intros x. lia.
      * destruct (all_below (Lift.move l)); lia.
    + assert (Hhigh : Forall (fun r => Lift.currentFloor l - 1 < start r
                                       /\ Lift.currentFloor l - 1 < dest r)
                             (Lift.requests (Lift.move l))).
      { apply (Forall_and_weaken _ _ _ _ (proj1 HnoDown eq_refl) Hoff).
        intros x. lia. }
      assert (Hb : all_below l = false).
      { apply not_true_is_false. intros Hb.
        pose proof (Hkept _ (proj1 Hbelow Hb)) as Hlow.
        rewrite Hrm in Hlow, Hhigh.
        apply Forall_cons in Hlow as [? _]. apply Forall_cons in Hhigh as [? _].
        lia. }
      rewrite Hb.
      destruct (Lift.hasUpRequests (Lift.move l)).
      * replace (all_above (Lift.move l)) with true; [lia|].
        symmetry. apply Habove'. exact Hhigh.
      * lia.
  - (* an idle lift whose requests all start and end where it stands *)
    destruct (Hidle eq_refl) as [HnoU HnoD].
    apply hasUpRequests_false in HnoU. apply hasDownRequests_false in HnoD.
    assert (Hgone : Lift.requests (Lift.move l) = []).
    { destruct (Lift.requests (Lift.move l)) as [|r rs] eqn:Hrm;
        [reflexivity|exfalso].
      pose proof (Hkept _ HnoU) as H1. pose proof (Hkept _ HnoD) as H2.
      apply Forall_cons in H1 as [? _]. apply Forall_cons in H2 as [? _].
      apply Forall_cons in Hoff as [? _]. lia. }
    rewrite Hgone. lia.
Qed.

Lemma lift_settled_new floors id :
  0 < floors -> lift_settled floors (Lift.new id floors).
Proof.
  intros Hpos. split; [apply lift_in_range_new; exact Hpos|].
  intros _. split; reflexivity.
Qed.

Lemma lift_settled_addRequest floors l s d :
  floor_ok floors s && floor_ok floors d = true ->
  lift_settled floors l -> lift_settled floors (Lift.addRequest l s d).
Proof.
  intros Hsd [Hrange _]. split.
  - apply lift_in_range_addRequest; assumption.
  - unfold Lift.addRequest. apply updateDirection_Idle_no_work.
Qed.

Lemma lift_settled_move floors l :
  lift_settled floors l -> lift_settled floors (Lift.move l).
Proof.
  intros [Hrange _]. split.
  - apply lift_in_range_move. exact Hrange.
  - unfold Lift.move. apply updateDirection_Idle_no_work.
Qed.

Lemma moves_left_bounds floors l :
  lift_settled floors l ->
  (Lift.requests l = [] -> Lift.direction l = Idle) /\
  (Lift.requests l <> [] -> 1 <= moves_left floors l) /\
  moves_left floors l <= Z.max 1 (2 * (floors - 1)).
Proof.
  intros [[Hf Hr Hup Hdown] Hidle]. unfold moves_left. split_and!.
  - intros Hnil. destruct (Lift.direction l); [| |reflexivity].
    + specialize (Hup eq_refl). unfold Lift.hasUpRequests in Hup.
      rewrite Hnil in Hup. discriminate Hup.
    + specialize (Hdown eq_refl). unfold Lift.hasDownRequests in Hdown.
      rewrite Hnil in Hdown. discriminate Hdown.
  - intros Hne. destruct (Lift.requests l) as [|r rs] eqn:Hrl; [congruence|].
    rewrite <- Hrl in *. destruct (Lift.direction l).
    + pose proof (hasUpRequests_room floors l Hr (Hup eq_refl)).
      destruct (all_above l); lia.
    + pose proof (hasDownRequests_room floors l Hr (Hdown eq_refl)).
      destruct (all_below l); lia.
    + lia.
  - destruct (Lift.requests l) as [|r rs] eqn:Hrl; [lia|].
    rewrite <- Hrl in *. destruct (Lift.direction l).
    + pose proof (hasUpRequests_room floors l Hr (Hup eq_refl)).
      destruct (all_above l); lia.
    + pose proof (hasDownRequests_room floors l Hr (Hdown eq_refl)).
      destruct (all_below l); lia.
    + lia.
Qed.

Lemma advance_succ k l : advance (S k) l = advance k (Lift.move l).
Proof. unfold advance. apply Nat.iter_succ_r. Qed.

Lemma advance_drains floors : forall k l,
  lift_settled floors l -> moves_left floors l <= Z.of_nat k ->
  Lift.requests (advance k l) = [] /\ Lift.direction (advance k l) = Idle.
Proof.
  induction k as [|k IH]; intros l Hl Hk.
  - destruct (moves_left_bounds floors l Hl) as (Hnil & Hpos & _).
    assert (Hr : Lift.requests l = []).
    { destruct (Lift.requests l) eqn:Hrl; [reflexivity|].
      assert (1 <= moves_left floors l) by (apply Hpos; congruence). lia. }
    simpl. auto.
  - rewrite advance_succ. apply IH; [apply lift_settled_move; exact Hl|].
    destruct (Lift.requests l) as [|r rs] eqn:Hrl.
    + destruct (moves_left_bounds floors l Hl) as (Hnil & _ & _).
      rewrite move_idle_empty by auto.
      unfold moves_left. rewrite Hrl. lia.
    + assert (Hne : Lift.requests l <> []) by congruence.
      pose proof (moves_left_move floors l Hl Hne). lia.
Qed.

Lemma sys_run_ticks k : forall sys,
  ElevatorSystem.lifts (sys_run (repeat OpTick k) sys)
  = map (advance k) (ElevatorSystem.lifts sys).
Proof.
  induction k as [|k IH]; intros sys; simpl.
  - symmetry. apply map_id.
  - rewrite IH. simpl. rewrite map_map. apply map_ext. intros l.
    symmetry. apply advance_succ.
Qed.

Lemma sys_run_settled (floors n : Z) (ops : list SysOp) :
  0 < floors -> forallb (op_in_range floors) ops = true ->
  Forall (lift_settled floors)
    (ElevatorSystem.lifts (sys_run ops (ElevatorSystem.init floors n))).
Proof.
  intros Hpos Hops.
  apply (sys_run_invariant (lift_settled floors) (op_in_range floors)).
  - apply lift_settled_move.
  - intros l s d Hok Hl _. apply lift_settled_addRequest; assumption.
  - exact Hops.
  - apply init_invariant. intros id. apply lift_settled_new. exact Hpos.
Qed.

(** X9: the system drains.  Take a system initialised with at least one
    floor and driven by [tick] calls and by [requestLift] calls whose floors
    lie in [[0, floors - 1]].  After [k] further ticks and no new request,
    where [k] is at least [2 * (floors - 1)] and at least 1, every lift is
    idle and has no pending request. *)
Theorem system_drains_within_two_sweeps
    (floors n : Z) (ops : list SysOp) (k : nat) :
  0 < floors ->
  forallb (op_in_range floors) ops = true ->
  Z.max 1 (2 * (floors - 1)) <= Z.of_nat k ->
  Forall (fun l => Lift.direction l = Idle /\ Lift.requests l = [])
         (ElevatorSystem.lifts
            (sys_run (repeat OpTick k)
                     (sys_run ops (ElevatorSystem.init floors n)))).
Proof.
  intros Hpos Hops Hk. rewrite sys_run_ticks. apply Forall_map.
  eapply Forall_impl; [apply sys_run_settled; eassumption|].
  intros l Hl. simpl.
  destruct (advance_drains floors k l Hl) as [Hr Hd]; [|auto].
  pose proof (moves_left_bounds floors l Hl) as (_ & _ & Hbound). lia.
Qed.

Lemma system_drains_within_two_sweeps_witness :
  0 < 6 /\
  forallb (op_in_range 6) [OpRequest 0 3; OpTick; OpRequest 5 1; OpRequest 2 4]
  = true /\
  Z.max 1 (2 * (6 - 1)) <= Z.of_nat 10 /\
  Forall (fun l => Lift.direction l = Idle /\ Lift.requests l = [])
         (ElevatorSystem.lifts
            (sys_run (repeat OpTick 10)
                     (sys_run [OpRequest 0 3; OpTick; OpRequest 5 1;
                               OpRequest 2 4]
                              (ElevatorSystem.init 6 2)))).
Proof.
  split; [lia|]. split; [reflexivity|]. split; [vm_compute; discriminate|].
  apply (system_drains_within_two_sweeps 6 2
           [OpRequest 0 3; OpTick; OpRequest 5 1; OpRequest 2 4] 10);
    [lia | reflexivity | vm_compute; discriminate].
Defined.

(** ** When all lifts are idle the nearest one is sent *)

(** X10: in a system whose lifts are all idle and under capacity,
    [requestLift] sends the lift nearest to the start floor, the first of
    them in index order when several are equally near. *)
Theorem requestLift_idle_system_sends_nearest
    (sys : ElevatorSystem.t) (s d : Z) :
  ElevatorSystem.lifts sys <> [] ->
  Forall (fun l => Lift.isIdle l = true /\ Lift.passengers l < 10)
         (ElevatorSystem.lifts sys) ->
  exists (b : nat) (lb : Lift.t),
    fst (ElevatorSystem.requestLift sys s d) = Z.of_nat b /\
    ElevatorSystem.lifts sys !! b = Some lb /\
    forall j lj,
      ElevatorSystem.lifts sys !! j = Some lj ->
      dist (Lift.currentFloor lb) s <= dist (Lift.currentFloor lj) s /\
      (dist (Lift.currentFloor lj) s = dist (Lift.currentFloor lb) s ->
       (b <= j)%nat).
Proof.
  intros Hne Hidle.
  assert (Hel : forall j lj, ElevatorSystem.lifts sys !! j = Some lj ->
                Lift.isIdle lj = true /\ Lift.canAddRequest lj s d = true).
  { intros j lj Hj. destruct (Forall_lookup_1 _ _ _ _ Hidle Hj) as [Hi Hp].
    split; [exact Hi|]. unfold Lift.canAddRequest. rewrite Hi.
    destruct (Z.geb_spec (Lift.passengers lj) 10); [lia|reflexivity]. }
  assert (Hsome : someEligible (ElevatorSystem.lifts sys) s d = true).
  { destruct (ElevatorSystem.lifts sys) as [|l0 ls] eqn:Hls; [congruence|].
    apply someEligible_lookup. exists 0%nat, l0. split; [reflexivity|].
    apply (Hel 0%nat l0). reflexivity. }
  destruct (selectLift_some _ s d (requestDirectionOf s d) Hsome)
    as (b & lb & Hr & Hb & _ & Hmin).
  exists b, lb. split_and!; [| exact Hb |].
  - unfold ElevatorSystem.requestLift. fold (requestDirectionOf s d).
    rewrite Hr. cbn [fst].
    replace (negb (Z.of_nat b =? -1)) with true
      by (symmetry; apply negb_true_iff, Z.eqb_neq; lia).
    reflexivity.
  - intros j lj Hj. destruct (Hel j lj Hj) as [Hij Hcj].
    destruct (Hel b lb Hb) as [Hib _].
    specialize (Hmin j lj Hj Hcj).
    rewrite !eta_idle in Hmin by assumption. exact Hmin.
Qed.

Lemma requestLift_idle_system_sends_nearest_witness :
  ElevatorSystem.lifts (ElevatorSystem.init 6 3) <> [] /\
  Forall (fun l => Lift.isIdle l = true /\ Lift.passengers l < 10)
         (ElevatorSystem.lifts (ElevatorSystem.init 6 3)) /\
  exists (b : nat) (lb : Lift.t),
    fst (ElevatorSystem.requestLift (ElevatorSystem.init 6 3) 4 1)
    = Z.of_nat b /\
    ElevatorSystem.lifts (ElevatorSystem.init 6 3) !! b = Some lb /\
    forall j lj,
      ElevatorSystem.lifts (ElevatorSystem.init 6 3) !! j = Some lj ->
      dist (Lift.currentFloor lb) 4 <= dist (Lift.currentFloor lj) 4 /\
      (dist (Lift.currentFloor lj) 4 = dist (Lift.currentFloor lb) 4 ->
       (b <= j)%nat).
Proof.
  assert (Hne : ElevatorSystem.lifts (ElevatorSystem.init 6 3) <> [])
    by discriminate.
  assert (Hidle :
    Forall (fun l => Lift.isIdle l = true /\ Lift.passengers l < 10)
           (ElevatorSystem.lifts (ElevatorSystem.init 6 3))).
  { repeat constructor. }
  split; [exact Hne|]. split; [exact Hidle|].
  apply (requestLift_idle_system_sends_nearest (ElevatorSystem.init 6 3) 4 1);
    assumption.
Defined.

(** ** A lone request *)

Lemma filter_all {A} (f : A -> bool) (xs : list A) :
  (forall x, In x xs -> f x = true) -> List.filter f xs = xs.
Proof.
  induction xs as [|x xs IH]; intros Hall; simpl; [reflexivity|].
  rewrite (Hall x) by (left; reflexivity). f_equal. apply IH.
  intros y Hy. apply Hall. right. exact Hy.
Qed.

Lemma filter_none {A} (f : A -> bool) (xs : list A) :
  (forall x, In x xs -> f x = false) -> List.filter f xs = [].
Proof.
  induction xs as [|x xs IH]; intros Hall; simpl; [reflexivity|].
  rewrite (Hall x) by (left; reflexivity). apply IH.
  intros y Hy. apply Hall. right. exact Hy.
Qed.

Lemma advance_S k l : advance (S k) l = Lift.move (advance k l).
Proof. reflexivity. Qed.

(** A lift going up past floors where no request starts or ends, with a
    request floor still above it, keeps its requests and its passengers. *)
Lemma ride_up i tf rs p : forall (n : nat) (c : Z),
  (forall r, In r rs -> forall j, 1 <= j <= Z.of_nat n ->
             start r <> c + j /\ dest r <> c + j) ->
  (exists r, In r rs /\ (c + Z.of_nat n < start r \/ c + Z.of_nat n < dest r)) ->
  advance n (Lift.make i tf c Up rs p)
  = Lift.make i tf (c + Z.of_nat n) Up rs p.
Proof.
  induction n as [|n IH]; intros c Hoff Hmore.
  { simpl. f_equal. lia. }
  rewrite advance_S, IH.
  - destruct Hmore as (r & Hr & Hfar).
    unfold Lift.move. cbn [Lift.direction Lift.currentFloor Lift.requests
                            Lift.passengers Lift.id Lift.totalFloors].
    assert (Hkeep1 : List.filter
              (fun r => negb (dest r =? c + Z.of_nat n + 1)) rs = rs).
    { apply filter_all. intros x Hx.
      destruct (Hoff x Hx (Z.of_nat n + 1)) as [_ Hd]; [lia|].
      apply negb_true_iff, Z.eqb_neq. lia. }
    assert (Hkeep2 : List.filter
              (fun r => negb (start r =? c + Z.of_nat n + 1)) rs = rs).
    { apply filter_all. intros x Hx.
      destruct (Hoff x Hx (Z.of_nat n + 1)) as [Hs _]; [lia|].
      apply negb_true_iff, Z.eqb_neq. lia. }
    assert (Hdone : List.filter
              (fun r => dest r =? c + Z.of_nat n + 1) rs = []).
    { apply filter_none. intros x Hx.
      destruct (Hoff x Hx (Z.of_nat n + 1)) as [_ Hd]; [lia|].
      apply Z.eqb_neq. lia. }
    rewrite Hkeep1, Hkeep2, Hdone.
    unfold Lift.updateDirection.
    cbn [Lift.direction Lift.currentFloor Lift.requests Lift.passengers
         Lift.id Lift.totalFloors direction_eqb andb].
    destruct rs as [|r0 rs0]; [contradiction|]. cbn [length Nat.eqb].
    replace (Lift.hasUpRequests _) with true.
    + unfold Lift.setDirection. simpl. f_equal; lia.
    + symmetry. apply existsb_exists. exists r. split; [exact Hr|].
      cbn [Lift.currentFloor]. zbool; simpl; try reflexivity; lia.
  - intros r Hr j Hj. apply Hoff; [exact Hr|lia].
  - destruct Hmore as (r & Hr & Hfar). exists r. split; [exact Hr|lia].
Qed.

Lemma ride_down i tf rs p : forall (n : nat) (c : Z),
  (forall r, In r rs -> forall j, 1 <= j <= Z.of_nat n ->
             start r <> c - j /\ dest r <> c - j) ->
  (exists r, In r rs /\ (start r < c - Z.of_nat n \/ dest r < c - Z.of_nat n)) ->
  advance n (Lift.make i tf c Down rs p)
  = Lift.make i tf (c - Z.of_nat n) Down rs p.
Proof.
  induction n as [|n IH]; intros c Hoff Hmore.
  { simpl. f_equal. lia. }
  rewrite advance_S, IH.
  - destruct Hmore as (r & Hr & Hfar).
    unfold Lift.move. cbn [Lift.direction Lift.currentFloor Lift.requests
                            Lift.passengers Lift.id Lift.totalFloors].
    assert (Hkeep1 : List.filter
              (fun r => negb (dest r =? c - Z.of_nat n - 1)) rs = rs).
    { apply filter_all. intros x Hx.
      destruct (Hoff x Hx (Z.of_nat n + 1)) as [_ Hd]; [lia|].
      apply negb_true_iff, Z.eqb_neq. lia. }
    assert (Hkeep2 : List.filter
              (fun r => negb (start r =? c - Z.of_nat n - 1)) rs = rs).
    { apply filter_all. intros x Hx.
      destruct (Hoff x Hx (Z.of_nat n + 1)) as [Hs _]; [lia|].
      apply negb_true_iff, Z.eqb_neq. lia. }
    assert (Hdone : List.filter
              (fun r => dest r =? c - Z.of_nat n - 1) rs = []).
    { apply filter_none. intros x Hx.
      destruct (Hoff x Hx (Z.of_nat n + 1)) as [_ Hd]; [lia|].
      apply Z.eqb_neq. lia. }
    rewrite Hkeep1, Hkeep2, Hdone.
    unfold Lift.updateDirection.
    cbn [Lift.direction Lift.currentFloor Lift.requests Lift.passengers
         Lift.id Lift.totalFloors direction_eqb andb].
    destruct rs as [|r0 rs0]; [contradiction|]. cbn [length Nat.eqb].
    replace (Lift.hasDownRequests _) with true.
    + unfold Lift.setDirection. simpl. f_equal; lia.
    + symmetry. apply existsb_exists. exists r. split; [exact Hr|].
      cbn [Lift.currentFloor]. zbool; simpl; try reflexivity; lia.
  - intros r Hr j Hj. apply Hoff; [exact Hr|lia].
  - destruct Hmore as (r & Hr & Hfar). exists r. split; [exact Hr|lia].
Qed.

Lemma addRequest_idle_up i tf c p s d :
  c < s \/ c < d ->
  Lift.addRequest (Lift.make i tf c Idle [] p) s d
  = Lift.make i tf c Up [mkRequest s d] (p + 1).
Proof.
  intros Hup. unfold Lift.addRequest, Lift.updateDirection. simpl.
  replace (Lift.hasUpRequests _) with true; [reflexivity|].
  unfold Lift.hasUpRequests. simpl. zbool; simpl; try reflexivity; lia.
Qed.

Lemma addRequest_idle_down i tf c p s d :
  s <= c -> d <= c -> s < c \/ d < c ->
  Lift.addRequest (Lift.make i tf c Idle [] p) s d
  = Lift.make i tf c Down [mkRequest s d] (p + 1).
Proof.
  intros Hs Hd Hdown. unfold Lift.addRequest, Lift.updateDirection. simpl.
  replace (Lift.hasUpRequests _) with false.
  - replace (Lift.hasDownRequests _) with true; [reflexivity|].
    unfold Lift.hasDownRequests. simpl. zbool; simpl; try reflexivity; lia.
  - unfold Lift.hasUpRequests. simpl. zbool; simpl; try reflexivity; lia.
Qed.

Lemma addRequest_idle_stay i tf c p :
  Lift.addRequest (Lift.make i tf c Idle [] p) c c
  = Lift.make i tf c Idle [mkRequest c c] (p + 1).
Proof.
  unfold Lift.addRequest, Lift.updateDirection. simpl.
  replace (Lift.hasUpRequests _) with false.
  - replace (Lift.hasDownRequests _) with false; [reflexivity|].
    unfold Lift.hasDownRequests. simpl. zbool; simpl; try reflexivity; lia.
  - unfold Lift.hasUpRequests. simpl. zbool; simpl; try reflexivity; lia.
Qed.

(** The move that brings a lift to a floor of its only request. *)
Lemma move_onto_lone_request i tf c dir t s d q :
  t = match dir with Up => c + 1 | Down => c - 1 | Idle => c end ->
  t = s \/ t = d ->
  Lift.move (Lift.make i tf c dir [mkRequest s d] q)
  = Lift.make i tf t Idle [] (if d =? t then q - 1 else q).
Proof.
  intros Ht Hst. unfold Lift.move.
  cbn [Lift.direction Lift.currentFloor Lift.requests Lift.passengers
       Lift.id Lift.totalFloors].
  rewrite <- Ht. simpl.
  destruct (Z.eqb_spec d t) as [Hd|Hd]; simpl.
  - unfold Lift.updateDirection. simpl. unfold Lift.setDirection. simpl.
    f_equal; lia.
  - destruct (Z.eqb_spec s t) as [Hs|Hs]; [|lia]. simpl.
    unfold Lift.updateDirection. simpl. unfold Lift.setDirection. simpl.
    f_equal; lia.
Qed.

Lemma first_stop_cases c s d :
  let t := first_stop c s d in
  (c < s \/ c < d ->
   c < t /\ (t = s \/ t = d) /\ (c < s -> t <= s) /\ (c < d -> t <= d)) /\
  (s <= c -> d <= c -> s < c \/ d < c ->
   t < c /\ (t = s \/ t = d) /\ (s < c -> s <= t) /\ (d < c -> d <= t)) /\
  (s = c -> d = c -> t = c).
Proof.
  unfold first_stop. zbool; simpl; lia.
Qed.

(** X11: what becomes of one request [(s, d)] given to an idle lift at
    floor [c] with no request and [p] passengers.  The lift travels to the
    nearest floor of the request on the side it first turns to (up if a
    floor of the request lies above [c], else down) and the request leaves
    the list there: after as many moves as that floor is away (one move if
    it is [c] itself) the lift is idle at that floor with no request.  Its
    passenger count is [p] again if that floor is the dest, and [p + 1] if
    it is only the start: a request picked up away from its dest is never
    counted off. *)
Theorem lone_request_ends_at_first_stop (i tf c p s d : Z) :
  advance (Z.to_nat (Z.max 1 (Z.abs (first_stop c s d - c))))
          (Lift.addRequest (Lift.make i tf c Idle [] p) s d)
  = Lift.make i tf (first_stop c s d) Idle []
              (if d =? first_stop c s d then p else p + 1).
Proof.
  pose proof (first_stop_cases c s d) as (Hup & Hdown & Hstay).
  set (t := first_stop c s d) in *.
  destruct (Z_lt_le_dec c s) as [Hcs|Hsc];
    [|destruct (Z_lt_le_dec c d) as [Hcd|Hdc]].
  1, 2: destruct Hup as (Hct & Hfloor & Hs & Hd); [lia|];
    rewrite addRequest_idle_up by lia;
    replace (Z.to_nat (Z.max 1 (Z.abs (t - c))))
      with (S (Z.to_nat (t - c - 1))) by lia;
    rewrite advance_S, ride_up;
    [ rewrite (move_onto_lone_request _ _ _ _ t) by (simpl; lia);
      destruct (d =? t); f_equal; lia
    | intros r [<-|[]] j Hj; simpl; lia
    | exists (mkRequest s d); split; [left; reflexivity|simpl; lia] ].
  destruct (Z.eq_dec s c) as [->|Hne1]; [destruct (Z.eq_dec d c) as [->|Hne2]|].
  - rewrite (Hstay eq_refl eq_refl). rewrite Z.sub_diag. simpl.
    rewrite addRequest_idle_stay.
    change (advance 1 ?l) with (Lift.move l).
    rewrite (move_onto_lone_request _ _ _ _ c) by (simpl; lia).
    rewrite Z.eqb_refl. f_equal. lia.
  - destruct Hdown as (Htc & Hfloor & Hs & Hd); [lia..|].
    rewrite addRequest_idle_down by lia.
    replace (Z.to_nat (Z.max 1 (Z.abs (t - c))))
      with (S (Z.to_nat (c - t - 1))) by lia.
    rewrite advance_S, ride_down.
    + rewrite (move_onto_lone_request _ _ _ _ t) by (simpl; lia).
      destruct (d =? t); f_equal; lia.
    + intros r [<-|[]] j Hj; simpl; lia.
    + exists (mkRequest c d). split; [left; reflexivity|simpl; lia].
  - destruct Hdown as (Htc & Hfloor & Hs & Hd); [lia..|].
    rewrite addRequest_idle_down by lia.
    replace (Z.to_nat (Z.max 1 (Z.abs (t - c))))
      with (S (Z.to_nat (c - t - 1))) by lia.
    rewrite advance_S, ride_down.
    + rewrite (move_onto_lone_request _ _ _ _ t) by (simpl; lia).
      destruct (d =? t); f_equal; lia.
    + intros r [<-|[]] j Hj; simpl; lia.
    + exists (mkRequest s d). split; [left; reflexivity|simpl; lia].
Qed.

(** ** The estimate and the direct distance *)

(** X12: the estimate is never below the direct distance between the lift
    and the start floor, provided the start floor is not beyond the floor
    where a lift under way turns around (for an idle lift there is no
    condition). *)
Theorem estimate_at_least_direct_distance
    (l : Lift.t) (s : Z) (rd : Direction) :
  (Lift.isIdle l = false ->
   if direction_eqb (Lift.direction l) Up
   then s <= Lift.turnaround l true
   else Lift.turnaround l false <= s) ->
  dist (Lift.currentFloor l) s <= Lift.calculateTimeToReach l s rd.
Proof.
  intros Hwithin. unfold Lift.calculateTimeToReach, dist.
  destruct (Lift.isIdle l); [lia|]. specialize (Hwithin eq_refl).
  pose proof (turnaround_up_ge l). pose proof (turnaround_down_le l).
  rewrite Z.geb_leb.
  destruct (direction_eqb (Lift.direction l) Up), (direction_eqb rd Up);
    simpl; zbool; lia.
Qed.

Lemma estimate_at_least_direct_distance_witness :
  (Lift.isIdle (lift_sweeping_to 10 5) = false ->
   if direction_eqb (Lift.direction (lift_sweeping_to 10 5)) Up
   then 3 <= Lift.turnaround (lift_sweeping_to 10 5) true
   else Lift.turnaround (lift_sweeping_to 10 5) false <= 3) /\
  dist (Lift.currentFloor (lift_sweeping_to 10 5)) 3
  <= Lift.calculateTimeToReach (lift_sweeping_to 10 5) 3 Down.
Proof.
  assert (H : Lift.isIdle (lift_sweeping_to 10 5) = false ->
   if direction_eqb (Lift.direction (lift_sweeping_to 10 5)) Up
   then 3 <= Lift.turnaround (lift_sweeping_to 10 5) true
   else Lift.turnaround (lift_sweeping_to 10 5) false <= 3).
  { intros _. vm_compute. discriminate. }
  split; [exact H|].
  apply (estimate_at_least_direct_distance (lift_sweeping_to 10 5) 3 Down).
  exact H.
Defined.

(** ** No reversal while work lies ahead *)

(** X13: a lift going up that still has, after its move, a pending request
    with a floor above it goes on up, and likewise down: the lift only
    turns when nothing is left ahead. *)
Theorem sweep_continues_while_work_ahead (l : Lift.t) :
  (Lift.direction l = Up -> Lift.hasUpRequests (Lift.move l) = true ->
   Lift.direction (Lift.move l) = Up /\
   Lift.currentFloor (Lift.move l) = Lift.currentFloor l + 1) /\
  (Lift.direction l = Down -> Lift.hasDownRequests (Lift.move l) = true ->
   Lift.direction (Lift.move l) = Down /\
   Lift.currentFloor (Lift.move l) = Lift.currentFloor l - 1).
Proof.
  split; intros Hd Hwork; rewrite move_currentFloor, move_direction;
    unfold nextFloor; rewrite Hd, Hwork; simpl.
  - unfold Lift.hasUpRequests in Hwork.
    destruct (Lift.requests (Lift.move l)); [discriminate|]. auto.
  - unfold Lift.hasDownRequests in Hwork.
    destruct (Lift.requests (Lift.move l)); [discriminate|]. auto.
Qed.

(** ** What a call of requestLift does to each lift *)

(** X14: [requestLift] never moves a lift and never drops a request: after
    the call every lift stands where it stood, and is either unchanged or
    has the new request appended to its list and one passenger more. *)
Theorem requestLift_frame (sys : ElevatorSystem.t) (s d : Z) :
  Forall2 (fun l l' =>
             Lift.currentFloor l' = Lift.currentFloor l /\
             (l' = l \/
              (Lift.requests l' = Lift.requests l ++ [mkRequest s d] /\
               Lift.passengers l' = Lift.passengers l + 1)))
          (ElevatorSystem.lifts sys)
          (ElevatorSystem.lifts (snd (ElevatorSystem.requestLift sys s d))).
Proof.
  destruct (requestLift_cases sys s d) as [->|(b & lb & _ & _ & ->)]; simpl.
  - apply Forall2_same_length_lookup. split; [reflexivity|].
    intros i x y Hx Hy. rewrite Hx in Hy. injection Hy as <-. auto.
  - clear lb. revert b.
    induction (ElevatorSystem.lifts sys) as [|l ls IH]; intros b;
      [constructor|].
    destruct b as [|b]; simpl.
    + constructor.
      * rewrite addRequest_currentFloor, addRequest_requests,
          addRequest_passengers. auto.
      * apply Forall2_same_length_lookup. split; [reflexivity|].
        intros i x y Hx Hy. rewrite Hx in Hy. injection Hy as <-. auto.
    + constructor; [auto|]. apply IH.
Qed.

(** * Properties of the seat booking classes *)

(** ** Counting free seats *)

Lemma fold_count_row (rowSeats : list Seat.t) : forall count : Z,
  fold_left (fun count seat =>
               if negb (Seat.isBooked seat) then count + 1 else count)
            rowSeats count
  = count + freeInRow rowSeats.
Proof.
  unfold freeInRow.
  induction rowSeats as [|seat rest IH]; intros count; simpl; [lia|].
  rewrite IH. destruct (Seat.isBooked seat); simpl; lia.
Qed.

Lemma getFreeSeatsCount_sum (s : Screen.t) :
  Screen.getFreeSeatsCount s = freeInGrid (Screen.seats s).
Proof.
  unfold Screen.getFreeSeatsCount.
  assert (H : forall g count,
    fold_left
      (fun count row =>
         fold_left (fun count seat =>
                      if negb (Seat.isBooked seat) then count + 1 else count)
                   row count) g count
    = count + freeInGrid g).
  { induction g as [|rowSeats g IH]; intros count; simpl; [lia|].
    rewrite IH, fold_count_row. lia. }
  rewrite H. lia.
Qed.

Lemma freeInRow_new (r : Z) (n : nat) : forall c0,
  freeInRow (map (fun c => Seat.new r (Z.of_nat c)) (seq c0 n)) = Z.of_nat n.
Proof.
  unfold freeInRow. induction n as [|n IH]; intros c0; [reflexivity|].
  cbn [seq map List.filter Seat.isBooked Seat.new negb length].
  specialize (IH (S c0)). lia.
Qed.

(** X15: a screen as constructed has [rows] rows of [columns] seats (none
    for a count that is not positive), every seat free and without ticket;
    its free seat count is [rows * columns]. *)
Theorem new_screen_is_free (screenIndex rows columns : Z) :
  shape (Screen.seats (Screen.new screenIndex rows columns))
  = repeat (Z.to_nat columns) (Z.to_nat rows) /\
  Forall (Forall (fun seat => Seat.isBooked seat = false
                              /\ Seat.ticketId seat = None))
         (Screen.seats (Screen.new screenIndex rows columns)) /\
  Screen.getFreeSeatsCount (Screen.new screenIndex rows columns)
  = Z.max 0 rows * Z.max 0 columns.
Proof.
  rewrite getFreeSeatsCount_sum. unfold Screen.new, shape. simpl.
  set (mkRow := fun r : nat =>
         map (fun c => Seat.new (Z.of_nat r) (Z.of_nat c))
             (seq 0 (Z.to_nat columns))).
  split_and!.
  - assert (H : forall n r0,
              map length (map mkRow (seq r0 n)) = repeat (Z.to_nat columns) n).
    { induction n as [|n IH]; intros r0; simpl; [reflexivity|].
      f_equal; [|apply IH]. unfold mkRow.
      rewrite length_map, length_seq. reflexivity. }
    apply H.
  - apply Forall_map. apply Forall_forall. intros r _.
    apply Forall_map. apply Forall_forall. intros c _. split; reflexivity.
  - assert (H : forall n r0,
              freeInGrid (map mkRow (seq r0 n))
              = Z.of_nat n * Z.of_nat (Z.to_nat columns)).
    { induction n as [|n IH]; intros r0; simpl; [lia|].
      rewrite IH. unfold mkRow at 1. rewrite freeInRow_new. lia. }
    rewrite H. lia.
Qed.

(** ** The seats findBestSeats hands out *)

Lemma freeAt_intro g r c rowSeats seat :
  g !! r = Some rowSeats -> rowSeats !! c = Some seat ->
  Seat.isBooked seat = false -> freeAt g (r, c).
Proof.
  intros Hr Hc Hfree. exists seat. split; [|exact Hfree].
  unfold gridAt. simpl. rewrite Hr. simpl. exact Hc.
Qed.

(** The inner loop stops at the end of [count] free seats side by side:
    either the run began before the part of the row still to be scanned and
    takes up its first seats, or it lies within that part. *)
Lemma scanRow_sound (rest : list Seat.t) : forall col0 k count col,
  Screen.scanRow rest col0 k count = Some col -> 0 <= k ->
  exists j : nat,
    col = (col0 + j)%nat /\ 1 <= count /\
    (Z.of_nat j + 1 = count - k \/ count <= Z.of_nat j + 1) /\
    forall i : nat,
      (Z.of_nat j + 1 - count <= Z.of_nat i)%Z -> (i <= j)%nat ->
      exists seat, rest !! i = Some seat /\ Seat.isBooked seat = false.
Proof.
  induction rest as [|seat rest IH]; intros col0 k count col Hscan Hk;
    [discriminate|].
  cbn [Screen.scanRow] in Hscan.
  destruct (Seat.isBooked seat) eqn:Hfree; cbn [negb] in Hscan.
  - destruct (IH _ _ _ _ Hscan ltac:(lia)) as (j & -> & Hcount & Hrun & Hall).
    exists (S j). split_and!; [lia | lia | lia |].
    intros [|i] Hlo Hhi; [lia|]. simpl. apply Hall; lia.
  - destruct (Z.eqb_spec (k + 1) count) as [Heq|Hne].
    + injection Hscan as <-. exists 0%nat. split_and!; [lia | lia | lia |].
      intros [|i] Hlo Hhi; [|lia]. exists seat. auto.
    + destruct (IH _ _ _ _ Hscan ltac:(lia)) as (j & -> & Hcount & Hrun & Hall).
      exists (S j). split_and!; [lia | lia | lia |].
      intros [|i] Hlo Hhi; simpl.
      * exists seat. auto.
      * apply Hall; lia.
Qed.

Lemma findRun_sound (g : list (list Seat.t)) : forall rest pre count row col,
  g = pre ++ rest ->
  Screen.findRun rest (length pre) count = Some (row, col) ->
  1 <= count <= Z.of_nat col + 1 /\
  exists rowSeats,
    g !! row = Some rowSeats /\
    forall i : nat,
      (Z.of_nat col + 1 - count <= Z.of_nat i)%Z -> (i <= col)%nat ->
      exists seat, rowSeats !! i = Some seat /\ Seat.isBooked seat = false.
Proof.
  induction rest as [|rowSeats rest IH]; intros pre count row col Hg Hfind;
    [discriminate|].
  cbn [Screen.findRun] in Hfind.
  destruct (Screen.scanRow rowSeats 0 0 count) as [c|] eqn:Hscan.
  - injection Hfind as <- <-.
    destruct (scanRow_sound _ _ _ _ _ Hscan ltac:(lia))
      as (j & -> & Hcount & Hrun & Hall).
    split; [lia|]. exists rowSeats. split.
    + rewrite Hg. apply list_lookup_middle. reflexivity.
    + intros i Hlo Hhi. apply Hall; lia.
  - apply (IH (pre ++ [rowSeats])).
    + rewrite Hg, <- app_assoc. reflexivity.
    + rewrite length_app. simpl. rewrite Nat.add_1_r. exact Hfind.
Qed.

Lemma picked_ok_later g count pos pos' avail :
  (forall ref, before pos ref -> before pos' ref) ->
  picked_ok g count pos avail -> picked_ok g count pos' avail.
Proof.
  intros Hlater [Hnd Hfree Hbefore Hlen]. split; try assumption.
  eapply Forall_impl; [exact Hbefore | exact Hlater].
Qed.

Lemma collectRow_ok g count row rowSeats :
  g !! row = Some rowSeats ->
  forall rest pre avail,
    rowSeats = pre ++ rest ->
    picked_ok g count (row, length pre) avail ->
    picked_ok g count (S row, 0%nat)
              (Screen.collectRow rest row (length pre) count avail).
Proof.
  intros Hrow. induction rest as [|seat rest IH]; intros pre avail Hsplit Hok;
    cbn [Screen.collectRow].
  { revert Hok. apply picked_ok_later. unfold before. simpl. lia. }
  destruct (Z.ltb_spec (Z.of_nat (length avail)) count) as [Hlt|Hge].
  2: { revert Hok. apply picked_ok_later. unfold before. simpl. lia. }
  replace (S (length pre)) with (length (pre ++ [seat]))
    by (rewrite length_app; simpl; lia).
  apply IH; [rewrite Hsplit, <- app_assoc; reflexivity|].
  rewrite length_app. simpl.
  destruct Hok as [Hnd Hfree Hbefore Hlen].
  destruct (Seat.isBooked seat) eqn:Hb; cbn [negb].
  - split; try assumption.
    eapply Forall_impl; [exact Hbefore|]. unfold before. simpl. lia.
  - split.
    + apply NoDup_app. split_and!; [exact Hnd | | apply NoDup_singleton].
      intros ref Hin Hin'. apply list_elem_of_singleton in Hin'. subst ref.
      pose proof (proj1 (Forall_forall _ _) Hbefore _ Hin) as Hb'.
      unfold before in Hb'. simpl in Hb'. lia.
    + apply Forall_app. split; [exact Hfree|]. constructor; [|constructor].
      apply (freeAt_intro g row (length pre) rowSeats seat); try assumption.
      rewrite Hsplit. apply list_lookup_middle. reflexivity.
    + apply Forall_app. split.
      * eapply Forall_impl; [exact Hbefore|]. unfold before. simpl. lia.
      * constructor; [|constructor]. unfold before. simpl. lia.
    + rewrite length_app. simpl. lia.
Qed.

Lemma collectRows_ok g count : forall rest pre avail,
  g = pre ++ rest ->
  picked_ok g count (length pre, 0%nat) avail ->
  picked_ok g count (length g, 0%nat)
            (Screen.collectRows rest (length pre) count avail).
Proof.
  induction rest as [|rowSeats rest IH]; intros pre avail Hg Hok;
    cbn [Screen.collectRows].
  { replace (length g) with (length pre); [exact Hok|].
    rewrite Hg, length_app. simpl. lia. }
  destruct (Z.ltb_spec (Z.of_nat (length avail)) count) as [Hlt|Hge].
  2: { revert Hok. apply picked_ok_later. unfold before. simpl.
       rewrite Hg, length_app. simpl. lia. }
  replace (S (length pre)) with (length (pre ++ [rowSeats]))
    by (rewrite length_app; simpl; lia).
  apply IH; [rewrite Hg, <- app_assoc; reflexivity|].
  rewrite length_app. simpl. rewrite Nat.add_1_r.
  apply (collectRow_ok g count (length pre) rowSeats
           ltac:(rewrite Hg; apply list_lookup_middle; reflexivity)
           rowSeats [] avail eq_refl).
  exact Hok.
Qed.

Lemma run_facts g row rowSeats (begin : nat) (count : Z) :
  g !! row = Some rowSeats ->
  (forall i : nat, (begin <= i)%nat -> (Z.of_nat i < Z.of_nat begin + count) ->
     exists seat, rowSeats !! i = Some seat /\ Seat.isBooked seat = false) ->
  NoDup (run row begin count) /\ Forall (freeAt g) (run row begin count).
Proof.
  intros Hrow Hfree. unfold run. split.
  - apply NoDup_fmap_2_strong; [|apply NoDup_seq].
    intros c1 c2 _ _ Heq. injection Heq as ->. reflexivity.
  - apply Forall_map. apply Forall_forall. intros c Hc.
    apply elem_of_seq in Hc.
    destruct (Hfree c) as (seat & Hseat & Hb); [lia | lia |].
    apply (freeAt_intro g row c rowSeats seat); assumption.
Qed.

Lemma length_run row begin count :
  Z.of_nat (length (run row begin count)) = Z.max 0 count.
Proof. unfold run. rewrite length_map, length_seq. lia. Qed.

Lemma sliceRefs_run row (col : nat) count :
  1 <= count <= Z.of_nat col + 1 ->
  Screen.sliceRefs row (Z.of_nat col - count + 1) (Z.of_nat col + 1)
  = run row (Z.to_nat (Z.of_nat col + 1 - count)) count.
Proof.
  intros Hcount. unfold Screen.sliceRefs, run. f_equal. f_equal; lia.
Qed.

(** The seats returned are free, distinct, and none or [count] in number. *)
Lemma findBestSeats_facts (s : Screen.t) (count : Z) :
  NoDup (Screen.findBestSeats s count) /\
  Forall (freeAt (Screen.seats s)) (Screen.findBestSeats s count) /\
  (Screen.findBestSeats s count = []
   \/ Z.of_nat (length (Screen.findBestSeats s count)) = count).
Proof.
  unfold Screen.findBestSeats.
  destruct (Screen.findRun (Screen.seats s) 0 count) as [[row col]|] eqn:Hrun.
  - destruct (findRun_sound (Screen.seats s) (Screen.seats s) [] count row col
                eq_refl Hrun) as (Hcount & rowSeats & Hrow & Hfree).
    rewrite sliceRefs_run by exact Hcount.
    destruct (run_facts (Screen.seats s) row rowSeats
                (Z.to_nat (Z.of_nat col + 1 - count)) count Hrow) as [Hnd Hall].
    { intros i Hlo Hhi. apply Hfree; lia. }
    split_and!; [exact Hnd | exact Hall |].
    right. rewrite length_run. lia.
  - pose proof (collectRows_ok (Screen.seats s) count (Screen.seats s) [] []
                  eq_refl) as Hok.
    destruct Hok as [Hnd Hfree _ Hlen].
    { split; try constructor. simpl. lia. }
    simpl length in *.
    destruct (Z.eqb_spec
                (Z.of_nat (length (Screen.collectRows (Screen.seats s) 0 count [])))
                count) as [Heq|Hne].
    + split_and!; [exact Hnd | exact Hfree | right; exact Heq].
    + split_and!; [constructor | constructor | left; reflexivity].
Qed.

(** X16: every seat [findBestSeats] returns is a free seat of the screen,
    no seat is returned twice, and there are either none of them or exactly
    [count]. *)
Theorem findBestSeats_sound (s : Screen.t) (count : Z) :
  (forall ref, ref ∈ Screen.findBestSeats s count ->
     exists seat, Screen.seatAt s ref = Some seat
                  /\ Seat.isBooked seat = false) /\
  NoDup (Screen.findBestSeats s count) /\
  (length (Screen.findBestSeats s count) = 0%nat
   \/ Z.of_nat (length (Screen.findBestSeats s count)) = count).
Proof.
  destruct (findBestSeats_facts s count) as (Hnd & Hfree & Hlen).
  split_and!.
  - intros ref Hin. apply (proj1 (Forall_forall _ _) Hfree ref Hin).
  - exact Hnd.
  - destruct Hlen as [->|Hlen]; [left; reflexivity|right; exact Hlen].
Qed.

(** ** Seats side by side are preferred *)

(** If the part of the row still to be scanned holds the rest of a run of
    free seats (from its first seat on), or a whole run of [count] free
    seats, the inner loop succeeds no later than at the end of that run. *)
Lemma scanRow_complete (count : Z) (rest : list Seat.t) :
  forall (col0 : nat) (k : Z) (b : nat) (len : Z),
    0 <= k < count ->
    len = count \/ (b = 0%nat /\ len = count - k) ->
    (forall i : nat, Z.of_nat i < len ->
       exists seat, rest !! (b + i)%nat = Some seat
                    /\ Seat.isBooked seat = false) ->
    exists col,
      Screen.scanRow rest col0 k count = Some col /\
      (Z.of_nat col + 1 <= Z.of_nat col0 + Z.of_nat b + len).
Proof.
  induction rest as [|seat rest IH]; intros col0 k b len Hk Hlen Hfree.
  { destruct (Hfree 0%nat) as (seat & Hseat & _); [lia|].
    rewrite lookup_nil in Hseat. discriminate Hseat. }
  cbn [Screen.scanRow].
  destruct (Seat.isBooked seat) eqn:Hb; cbn [negb].
  - destruct b as [|b].
    { destruct (Hfree 0%nat) as (seat' & Hseat & Hfree'); [lia|].
      simpl in Hseat. injection Hseat as <-. congruence. }
    destruct (IH (S col0) 0 b len) as (col & Hscan & Hcol); [lia | lia | |].
    + intros i Hi. apply (Hfree i Hi).
    + exists col. split; [exact Hscan|lia].
  - destruct (Z.eqb_spec (k + 1) count) as [Heq|Hne].
    { exists col0. split; [reflexivity|lia]. }
    destruct b as [|b].
    + destruct (IH (S col0) (k + 1) 0%nat (count - (k + 1)))
        as (col & Hscan & Hcol); [lia | right; split; [reflexivity|lia] | |].
      * intros i Hi. destruct (Hfree (S i)) as (seat' & Hseat & Hfree');
          [lia|]. exists seat'. split; [exact Hseat|exact Hfree'].
      * exists col. split; [exact Hscan|lia].
    + destruct (IH (S col0) (k + 1) b len) as (col & Hscan & Hcol);
        [lia | lia | |].
      * intros i Hi. apply (Hfree i Hi).
      * exists col. split; [exact Hscan|lia].
Qed.

Lemma findRun_complete (g : list (list Seat.t)) (count : Z)
    (row begin : nat) (rowSeats : list Seat.t) :
  1 <= count ->
  g !! row = Some rowSeats ->
  (forall i : nat, Z.of_nat i < count ->
     exists seat, rowSeats !! (begin + i)%nat = Some seat
                  /\ Seat.isBooked seat = false) ->
  forall rest pre,
    g = pre ++ rest -> (length pre <= row)%nat ->
    exists row' col',
      Screen.findRun rest (length pre) count = Some (row', col') /\
      (row' <= row)%nat /\
      (row' = row -> Z.of_nat col' + 1 <= Z.of_nat begin + count).
Proof.
  intros Hcount Hrow Hfree.
  induction rest as [|rowSeats' rest IH]; intros pre Hg Hpre.
  { rewrite Hg, app_nil_r in Hrow. apply lookup_lt_Some in Hrow. lia. }
  cbn [Screen.findRun].
  destruct (Screen.scanRow rowSeats' 0 0 count) as [c|] eqn:Hscan.
  - exists (length pre), c. split_and!; [reflexivity | lia |].
    intros Heq. rewrite Hg, <- Heq, list_lookup_middle in Hrow by reflexivity.
    injection Hrow as ->.
    destruct (scanRow_complete count rowSeats 0%nat 0 begin count)
      as (col & Hscan' & Hcol); [lia | lia | exact Hfree |].
    rewrite Hscan in Hscan'. injection Hscan' as <-. lia.
  - assert (Hne : length pre <> row).
    { intros Heq. rewrite Hg, <- Heq, list_lookup_middle in Hrow by reflexivity.
      injection Hrow as ->.
      destruct (scanRow_complete count rowSeats 0%nat 0 begin count)
        as (col & Hscan' & _); [lia | lia | exact Hfree |].
      congruence. }
    destruct (IH (pre ++ [rowSeats'])) as (row' & col' & Hfind & Hle & Hcol).
    + rewrite Hg, <- app_assoc. reflexivity.
    + rewrite length_app. simpl. lia.
    + rewrite length_app in Hfind. simpl in Hfind.
      rewrite Nat.add_1_r in Hfind. eauto.
Qed.

(** X17: when some row of the screen has [count >= 1] free seats side by
    side, [findBestSeats] returns [count] seats side by side in one row:
    a run in the first row that has one, ending no later than any run of
    that row. *)
Theorem findBestSeats_prefers_side_by_side
    (s : Screen.t) (count : Z) (row begin : nat) :
  1 <= count ->
  Forall (freeAt (Screen.seats s)) (run row begin count) ->
  exists row' begin',
    Screen.findBestSeats s count = run row' begin' count /\
    (row' <= row)%nat /\ (row' = row -> (begin' <= begin)%nat).
Proof.
  intros Hcount Hrun.
  assert (Hrow : exists rowSeats, Screen.seats s !! row = Some rowSeats /\
    forall i : nat, Z.of_nat i < count ->
      exists seat, rowSeats !! (begin + i)%nat = Some seat
                   /\ Seat.isBooked seat = false).
  { assert (Href : forall i : nat, Z.of_nat i < count ->
              freeAt (Screen.seats s) (row, (begin + i)%nat)).
    { intros i Hi. apply (proj1 (Forall_forall _ _) Hrun).
      unfold run. apply list_elem_of_fmap. exists (begin + i)%nat.
      split; [reflexivity|]. apply elem_of_seq. lia. }
    destruct (Href 0%nat) as (seat0 & Hseat0 & _); [lia|].
    unfold gridAt in Hseat0. simpl in Hseat0.
    destruct (Screen.seats s !! row) as [rowSeats|] eqn:Hr; [|discriminate].
    exists rowSeats. split; [reflexivity|]. intros i Hi.
    destruct (Href i Hi) as (seat & Hseat & Hfree).
    unfold gridAt in Hseat. simpl in Hseat. rewrite Hr in Hseat.
    exists seat. auto. }
  destruct Hrow as (rowSeats & Hrow & Hfree).
  destruct (findRun_complete (Screen.seats s) count row begin rowSeats
              Hcount Hrow Hfree (Screen.seats s) [] eq_refl)
    as (row' & col' & Hfind & Hle & Hcol); [simpl; lia|].
  simpl in Hfind. unfold Screen.findBestSeats. rewrite Hfind.
  destruct (findRun_sound (Screen.seats s) (Screen.seats s) [] count row' col'
              eq_refl Hfind) as (Hc & _).
  exists row', (Z.to_nat (Z.of_nat col' + 1 - count)).
  split_and!; [apply sliceRefs_run; exact Hc | exact Hle |].
  intros Heq. specialize (Hcol Heq). lia.
Qed.

Lemma findBestSeats_prefers_side_by_side_witness :
  1 <= 3 /\
  Forall (freeAt (Screen.seats (snd test_booking))) (run 2 5 3) /\
  exists row' begin',
    Screen.findBestSeats (snd test_booking) 3 = run row' begin' 3 /\
    (row' <= 2)%nat /\ (row' = 2%nat -> (begin' <= 5)%nat).
Proof.
  assert (H : Forall (freeAt (Screen.seats (snd test_booking))) (run 2 5 3)).
  { repeat constructor; eexists; (split; [reflexivity|reflexivity]). }
  split; [lia|]. split; [exact H|].
  apply (findBestSeats_prefers_side_by_side (snd test_booking) 3 2 5);
    [lia | exact H].
Defined.

(** ** Booking and cancelling on the grid *)

Lemma lookup_map {A B} (f : A -> B) (xs : list A) (i : nat) :
  map f xs !! i = f <$> xs !! i.
Proof. revert i. induction xs as [|x xs IH]; intros [|i]; simpl; auto. Qed.

Lemma gridAt_alter g r0 c0 (f : Seat.t -> Seat.t) ref :
  gridAt (alter (alter f c0) r0 g) ref
  = if decide (ref = (r0, c0)) then f <$> gridAt g ref else gridAt g ref.
Proof.
  destruct ref as [r c]. unfold gridAt. cbn [fst snd].
  case_decide as Heq.
  - injection Heq as -> ->. rewrite list_lookup_alter_eq.
    destruct (g !! r0) as [rowSeats|]; cbn; [|reflexivity].
    apply list_lookup_alter_eq.
  - destruct (decide (r = r0)) as [->|Hr].
    + rewrite list_lookup_alter_eq.
      destruct (g !! r0) as [rowSeats|]; cbn; [|reflexivity].
      apply list_lookup_alter_ne. congruence.
    + rewrite list_lookup_alter_ne by congruence. reflexivity.
Qed.

Lemma gridAt_map (h : Seat.t -> Seat.t) g ref :
  gridAt (map (map h) g) ref = h <$> gridAt g ref.
Proof.
  unfold gridAt. rewrite lookup_map. destruct (g !! fst ref); simpl;
    [apply lookup_map | reflexivity].
Qed.

Lemma gridAt_Forall (P : Seat.t -> Prop) g ref seat :
  Forall (Forall P) g -> gridAt g ref = Some seat -> P seat.
Proof.
  intros Hall. unfold gridAt.
  destruct (g !! fst ref) as [rowSeats|] eqn:Hr; simpl; [|discriminate].
  intros Hc. eapply Forall_lookup_1; [|exact Hc].
  eapply Forall_lookup_1; [exact Hall | exact Hr].
Qed.

Lemma shape_alter g r c (f : Seat.t -> Seat.t) :
  shape (alter (alter f c) r g) = shape g.
Proof.
  unfold shape. apply alter_map_same. intros rowSeats. apply length_alter.
Qed.

Lemma shape_map (h : Seat.t -> Seat.t) g : shape (map (map h) g) = shape g.
Proof.
  unfold shape. rewrite map_map. apply map_ext. intros rowSeats.
  apply length_map.
Qed.

(** Two grids of the same shape with the same seat at every place are the
    same grid. *)
Lemma grid_ext g1 : forall g2,
  shape g1 = shape g2 -> (forall ref, gridAt g1 ref = gridAt g2 ref) ->
  g1 = g2.
Proof.
  induction g1 as [|row1 g1 IH]; intros [|row2 g2] Hshape Hat;
    try discriminate Hshape; [reflexivity|].
  injection Hshape as Hlen Hshape. f_equal.
  - apply list_eq. intros c. apply (Hat (0%nat, c)).
  - apply IH; [exact Hshape|]. intros [r c]. apply (Hat (S r, c)).
Qed.

Lemma fold_book_shape ticket refs : forall g,
  shape (fold_left
           (fun g ref =>
              alter (alter (fun seat => Seat.book seat ticket) (snd ref))
                    (fst ref) g) refs g)
  = shape g.
Proof.
  induction refs as [|ref refs IH]; intros g; simpl; [reflexivity|].
  rewrite IH. apply shape_alter.
Qed.

(** After [bookSeats] a seat is booked with the ticket if it is one of the
    seats given, and is as before otherwise. *)
Lemma fold_book_gridAt ticket refs : forall g ref,
  gridAt (fold_left
            (fun g ref =>
               alter (alter (fun seat => Seat.book seat ticket) (snd ref))
                     (fst ref) g) refs g) ref
  = if decide (ref ∈ refs)
    then (fun seat => Seat.book seat ticket) <$> gridAt g ref
    else gridAt g ref.
Proof.
  induction refs as [|[r0 c0] refs IH]; intros g ref; cbn [fold_left].
  { case_decide as Hin; [|reflexivity]. apply elem_of_nil in Hin. contradiction. }
  rewrite IH, gridAt_alter. cbn [fst snd].
  destruct (decide (ref ∈ refs)) as [Hin|Hnin];
    destruct (decide (ref = (r0, c0))) as [Heq|Hne];
    destruct (decide (ref ∈ (r0, c0) :: refs)) as [Hin'|Hnin'];
    try reflexivity; try (destruct (gridAt g ref); reflexivity); exfalso.
  - apply Hnin'. apply list_elem_of_further. exact Hin.
  - apply Hnin'. apply list_elem_of_further. exact Hin.
  - apply Hnin'. rewrite Heq. apply list_elem_of_here.
  - apply elem_of_cons in Hin' as [?|?]; contradiction.
Qed.

Lemma freeInRow_alter_book ticket rowSeats : forall c seat,
  rowSeats !! c = Some seat -> Seat.isBooked seat = false ->
  freeInRow (alter (fun seat => Seat.book seat ticket) c rowSeats)
  = freeInRow rowSeats - 1.
Proof.
  unfold freeInRow.
  induction rowSeats as [|seat0 rest IH]; intros [|c] seat Hc Hfree;
    try discriminate Hc; simpl in *.
  - injection Hc as ->. rewrite Hfree. simpl. lia.
  - specialize (IH c seat Hc Hfree). unfold alter in IH.
    destruct (Seat.isBooked seat0); simpl; lia.
Qed.

Lemma freeInGrid_alter (h : list Seat.t -> list Seat.t) g : forall r rowSeats,
  g !! r = Some rowSeats ->
  freeInGrid (alter h r g)
  = freeInGrid g - freeInRow rowSeats + freeInRow (h rowSeats).
Proof.
  induction g as [|row0 g IH]; intros [|r] rowSeats Hr;
    try discriminate Hr; simpl in Hr.
  - injection Hr as ->. cbn. lia.
  - specialize (IH r rowSeats Hr).
    change (alter h (S r) (row0 :: g)) with (row0 :: alter h r g).
    unfold freeInGrid in *. cbn [fold_right]. lia.
Qed.

Lemma fold_book_count ticket refs : forall g,
  NoDup refs -> Forall (freeAt g) refs ->
  freeInGrid (fold_left
                (fun g ref =>
                   alter (alter (fun seat => Seat.book seat ticket) (snd ref))
                         (fst ref) g) refs g)
  = freeInGrid g - Z.of_nat (length refs).
Proof.
  induction refs as [|[r0 c0] refs IH]; intros g Hnd Hfree; simpl; [lia|].
  apply NoDup_cons in Hnd as [Hnin Hnd].
  apply Forall_cons in Hfree as [(seat & Hseat & Hb) Hfree].
  rewrite IH; [|exact Hnd|].
  - unfold gridAt in Hseat. simpl in Hseat.
    destruct (g !! r0) as [rowSeats|] eqn:Hr; [|discriminate]. simpl in Hseat.
    rewrite (freeInGrid_alter _ g r0 rowSeats Hr).
    rewrite (freeInRow_alter_book ticket rowSeats c0 seat Hseat Hb). lia.
  - apply Forall_forall. intros ref Hin.
    destruct (proj1 (Forall_forall _ _) Hfree ref Hin) as (seat' & Hseat' & Hb').
    exists seat'. split; [|exact Hb'].
    rewrite gridAt_alter, decide_False; [exact Hseat'|].
    intros ->. contradiction.
Qed.

(** ** How many single seats the picking loops find *)

Lemma freeInRow_nonneg rowSeats : 0 <= freeInRow rowSeats.
Proof. unfold freeInRow. lia. Qed.

Lemma freeInGrid_nonneg g : 0 <= freeInGrid g.
Proof.
  induction g as [|rowSeats g IH]; simpl; [lia|].
  pose proof (freeInRow_nonneg rowSeats). lia.
Qed.

Lemma collectRow_length count row (rest : list Seat.t) : forall col avail,
  Z.of_nat (length (Screen.collectRow rest row col count avail))
  = Z.max (Z.of_nat (length avail))
          (Z.min count (Z.of_nat (length avail) + freeInRow rest)).
Proof.
  induction rest as [|seat rest IH]; intros col avail;
    cbn [Screen.collectRow].
  { unfold freeInRow. simpl. lia. }
  pose proof (freeInRow_nonneg rest) as Hnn.
  assert (Hcons : freeInRow (seat :: rest)
                  = (if Seat.isBooked seat then 0 else 1) + freeInRow rest).
  { unfold freeInRow. simpl. destruct (Seat.isBooked seat); simpl; lia. }
  rewrite Hcons.
  destruct (Z.ltb_spec (Z.of_nat (length avail)) count) as [Hlt|Hge]; [|lia].
  rewrite IH. destruct (Seat.isBooked seat); cbn [negb].
  - lia.
  - rewrite length_app. simpl. lia.
Qed.

Lemma collectRows_length count (rest : list (list Seat.t)) : forall row avail,
  Z.of_nat (length (Screen.collectRows rest row count avail))
  = Z.max (Z.of_nat (length avail))
          (Z.min count (Z.of_nat (length avail) + freeInGrid rest)).
Proof.
  induction rest as [|rowSeats rest IH]; intros row avail;
    cbn [Screen.collectRows].
  { simpl. lia. }
  pose proof (freeInGrid_nonneg rest) as Hnn.
  pose proof (freeInRow_nonneg rowSeats) as Hnn'.
  change (freeInGrid (rowSeats :: rest))
    with (freeInRow rowSeats + freeInGrid rest).
  destruct (Z.ltb_spec (Z.of_nat (length avail)) count) as [Hlt|Hge]; [|lia].
  rewrite IH, collectRow_length. lia.
Qed.

Lemma free_refs_bound g refs :
  NoDup refs -> Forall (freeAt g) refs ->
  Z.of_nat (length refs) <= freeInGrid g.
Proof.
  intros Hnd Hfree.
  pose proof (fold_book_count "" refs g Hnd Hfree) as Hcount.
  pose proof (freeInGrid_nonneg
    (fold_left
       (fun g ref => alter (alter (fun seat => Seat.book seat "") (snd ref))
                           (fst ref) g) refs g)).
  lia.
Qed.

Lemma findBestSeats_length_iff (s : Screen.t) (count : Z) :
  Z.of_nat (length (Screen.findBestSeats s count)) = count
  <-> 0 <= count <= freeInGrid (Screen.seats s).
Proof.
  split.
  - intros Hlen. split; [lia|].
    destruct (findBestSeats_facts s count) as (Hnd & Hfree & _).
    pose proof (free_refs_bound _ _ Hnd Hfree). lia.
  - intros [Hlo Hhi]. unfold Screen.findBestSeats.
    destruct (Screen.findRun (Screen.seats s) 0 count) as [[row col]|] eqn:Hrun.
    + destruct (findRun_sound (Screen.seats s) (Screen.seats s) [] count row col
                  eq_refl Hrun) as (Hcount & _).
      rewrite sliceRefs_run by exact Hcount. rewrite length_run. lia.
    + pose proof (collectRows_length count (Screen.seats s) 0 []) as Hlen.
      simpl length in Hlen.
      destruct (Z.eqb_spec
        (Z.of_nat (length (Screen.collectRows (Screen.seats s) 0 count [])))
        count) as [Heq|Hne]; [exact Heq|lia].
Qed.

(** X18: [findBestSeats] returns [count] seats exactly when [count] is not
    negative and [getFreeSeatsCount] is at least [count]; otherwise it
    returns none. *)
Theorem findBestSeats_succeeds_iff_enough_free (s : Screen.t) (count : Z) :
  (Z.of_nat (length (Screen.findBestSeats s count)) = count
   <-> 0 <= count <= Screen.getFreeSeatsCount s) /\
  (~ (0 <= count <= Screen.getFreeSeatsCount s) ->
   Screen.findBestSeats s count = []).
Proof.
  rewrite getFreeSeatsCount_sum.
  pose proof (findBestSeats_length_iff s count) as Hiff.
  split; [exact Hiff|]. intros Hno.
  destruct (findBestSeats_facts s count) as (_ & _ & [Hnil|Hlen]);
    [exact Hnil|]. exfalso. apply Hno, Hiff, Hlen.
Qed.

(** ** Show.book and Show.cancel *)

Lemma length_omap_all {A B} (f : A -> option B) (xs : list A) :
  Forall (fun x => is_Some (f x)) xs -> length (omap f xs) = length xs.
Proof.
  induction 1 as [|x xs [y Hy] _ IH]; simpl; [reflexivity|].
  rewrite Hy. simpl. f_equal. exact IH.
Qed.

Lemma seatAt_gridAt s ref : Screen.seatAt s ref = gridAt (Screen.seats s) ref.
Proof. reflexivity. Qed.

(** X19: the outcome of [Show.book].  Without [count] free seats it returns
    no label and changes neither the show nor the screen.  With them it
    returns [count] labels, records the seats under the ticket, and on the
    screen exactly [count] seats, free before, are now booked with the
    ticket: the free seat count drops by [count], the grid keeps its shape
    and every other seat is as before. *)
Theorem book_outcome (sh : Show.t) (scr : Screen.t) (ticket : string)
    (count : Z) :
  (~ (0 <= count <= Screen.getFreeSeatsCount scr) /\
   Show.book sh scr ticket count = ([], sh, scr))
  \/ (0 <= count <= Screen.getFreeSeatsCount scr /\
      exists labels sh' scr',
        Show.book sh scr ticket count = (labels, sh', scr') /\
        Z.of_nat (length labels) = count /\
        Show.bookedTickets sh'
        = <[ticket := Screen.findBestSeats scr count]> (Show.bookedTickets sh) /\
        shape (Screen.seats scr') = shape (Screen.seats scr) /\
        Screen.getFreeSeatsCount scr' = Screen.getFreeSeatsCount scr - count /\
        forall ref,
          Screen.seatAt scr' ref
          = if decide (ref ∈ Screen.findBestSeats scr count)
            then (fun seat => Seat.book seat ticket) <$> Screen.seatAt scr ref
            else Screen.seatAt scr ref).
Proof.
  pose proof (findBestSeats_length_iff scr count) as Hiff.
  rewrite <- getFreeSeatsCount_sum in Hiff.
  pose proof (findBestSeats_facts scr count) as (Hnd & Hfree & _).
  unfold Show.book.
  destruct (Z.eqb_spec (Z.of_nat (length (Screen.findBestSeats scr count)))
                       count) as [Hlen|Hlen]; cbn [negb].
  - right. split; [apply Hiff; exact Hlen|].
    eexists _, _, _. split; [reflexivity|].
    assert (Hat : forall ref,
      Screen.seatAt
        (Screen.bookSeats scr (Screen.findBestSeats scr count) ticket) ref
      = if decide (ref ∈ Screen.findBestSeats scr count)
        then (fun seat => Seat.book seat ticket) <$> Screen.seatAt scr ref
        else Screen.seatAt scr ref).
    { intros ref. rewrite !seatAt_gridAt. apply fold_book_gridAt. }
    split_and!.
    + unfold Show.seatLabels. rewrite length_omap_all; [exact Hlen|].
      apply Forall_forall. intros ref Hin. rewrite Hat.
      rewrite decide_True by exact Hin.
      destruct (proj1 (Forall_forall _ _) Hfree ref Hin) as (seat & Hseat & _).
      rewrite seatAt_gridAt, Hseat. simpl. eexists. reflexivity.
    + reflexivity.
    + apply fold_book_shape.
    + rewrite !getFreeSeatsCount_sum. unfold Screen.bookSeats. simpl.
      rewrite fold_book_count by assumption. lia.
    + exact Hat.
  - left. split; [|reflexivity]. intros Hok. apply Hlen, Hiff, Hok.
Qed.

(** X20: booking no seat.  A call with [count = 0] returns no label, as a
    failed booking does, but it records the ticket, so that a later
    [cancel] of that ticket answers [true]; the booking leaves the screen
    untouched. *)
Theorem book_zero_seats_records_the_ticket
    (sh : Show.t) (scr : Screen.t) (ticket : string) :
  exists sh',
    Show.book sh scr ticket 0 = ([], sh', scr) /\
    Show.bookedTickets sh' = <[ticket := []]> (Show.bookedTickets sh) /\
    fst (fst (Show.cancel sh' scr ticket)) = true.
Proof.
  assert (Hnone : Screen.findBestSeats scr 0 = []).
  { pose proof (findBestSeats_facts scr 0) as (_ & _ & [Hnil|Hlen]);
      [exact Hnil|].
    destruct (Screen.findBestSeats scr 0); [reflexivity|discriminate]. }
  unfold Show.book. rewrite Hnone. simpl.
  eexists. split_and!.
  - f_equal. destruct scr. reflexivity.
  - reflexivity.
  - unfold Show.cancel. simpl. rewrite lookup_insert_eq. reflexivity.
Qed.

Lemma hasTicket_book seat ticket :
  Screen.hasTicket (Seat.book seat ticket) ticket = true.
Proof. unfold Screen.hasTicket. simpl. apply String.eqb_refl. Qed.

(** X21: booking and then cancelling is a round trip.  On a screen whose
    free seats carry no ticket and where the ticket is not in use, for a
    show that has not recorded the ticket, a successful [book] followed by
    [cancel] of the same ticket answers [true] and gives back the show and
    the screen exactly as they were. *)
Theorem book_then_cancel_restores
    (sh : Show.t) (scr : Screen.t) (ticket : string) (count : Z) :
  grid_clean (Screen.seats scr) ->
  ticket_unused (Screen.seats scr) ticket ->
  Show.bookedTickets sh !! ticket = None ->
  0 <= count <= Screen.getFreeSeatsCount scr ->
  Show.cancel (snd (fst (Show.book sh scr ticket count)))
              (snd (Show.book sh scr ticket count)) ticket
  = (true, sh, scr).
Proof.
  intros Hclean Hunused Hnew Hcount.
  rewrite getFreeSeatsCount_sum in Hcount.
  apply findBestSeats_length_iff in Hcount.
  pose proof (findBestSeats_facts scr count) as (_ & Hfree & _).
  unfold Show.book. rewrite (proj2 (Z.eqb_eq _ _) Hcount).
  cbn [negb fst snd]. unfold Show.cancel.
  cbn [Show.bookedTickets Show.setBookedTickets].
  rewrite lookup_insert_eq. f_equal; [f_equal|].
  - unfold Show.setBookedTickets. cbn.
    rewrite delete_insert_id by exact Hnew. destruct sh. reflexivity.
  - unfold Screen.cancelSeats, Screen.bookSeats, Screen.setSeats.
    destruct scr as [idx rows cols g]. cbn [snd Screen.seats Screen.rows
      Screen.columns Screen.screenIndex] in *.
    f_equal. apply grid_ext.
    + rewrite shape_map. apply fold_book_shape.
    + intros ref. rewrite gridAt_map, fold_book_gridAt.
      destruct (decide (ref ∈ _)) as [Hin|Hnin].
      * destruct (proj1 (Forall_forall _ _) Hfree ref Hin)
          as (seat & Hseat & Hb).
        rewrite Hseat. simpl. rewrite hasTicket_book.
        pose proof (gridAt_Forall _ _ _ _ Hclean Hseat Hb) as Hnone.
        destruct seat as [r c b t]. simpl in *. subst. reflexivity.
      * destruct (gridAt g ref) as [seat|] eqn:Hseat; [|reflexivity].
        simpl. rewrite (gridAt_Forall _ _ _ _ Hunused Hseat). reflexivity.
Qed.

Lemma book_then_cancel_restores_witness :
  grid_clean (Screen.seats (Screen.new 1 5 10)) /\
  ticket_unused (Screen.seats (Screen.new 1 5 10)) "tkt-1" /\
  Show.bookedTickets test_show !! "tkt-1" = None /\
  0 <= 4 <= Screen.getFreeSeatsCount (Screen.new 1 5 10) /\
  Show.cancel (snd (fst (Show.book test_show (Screen.new 1 5 10) "tkt-1" 4)))
              (snd (Show.book test_show (Screen.new 1 5 10) "tkt-1" 4)) "tkt-1"
  = (true, test_show, Screen.new 1 5 10).
Proof.
  assert (H1 : grid_clean (Screen.seats (Screen.new 1 5 10))).
  { repeat constructor. }
  assert (H2 : ticket_unused (Screen.seats (Screen.new 1 5 10)) "tkt-1").
  { repeat constructor. }
  assert (H3 : Show.bookedTickets test_show !! "tkt-1" = None)
    by reflexivity.
  assert (H4 : 0 <= 4 <= Screen.getFreeSeatsCount (Screen.new 1 5 10))
    by (vm_compute; split; discriminate).
  split; [exact H1|]. split; [exact H2|]. split; [exact H3|].
  split; [exact H4|].
  apply (book_then_cancel_restores test_show (Screen.new 1 5 10) "tkt-1" 4);
    assumption.
Defined.

(** ** Cancelling *)

Lemma length_cancelledInRow ticket rowSeats : forall row col,
  length (Screen.cancelledInRow rowSeats row col ticket)
  = length (List.filter (fun seat => Screen.hasTicket seat ticket) rowSeats).
Proof.
  induction rowSeats as [|seat rest IH]; intros row col; simpl;
    [reflexivity|].
  destruct (Screen.hasTicket seat ticket); simpl; rewrite IH; reflexivity.
Qed.

Lemma hasTicket_booked seat ticket :
  seat_clean seat -> Screen.hasTicket seat ticket = true ->
  Seat.isBooked seat = true.
Proof.
  unfold seat_clean, Screen.hasTicket. intros Hclean Hticket.
  destruct (Seat.isBooked seat); [reflexivity|].
  rewrite Hclean in Hticket by reflexivity. discriminate Hticket.
Qed.

Lemma freeInRow_cancel ticket rowSeats :
  Forall seat_clean rowSeats ->
  freeInRow (map (fun seat => if Screen.hasTicket seat ticket
                              then Seat.cancel seat else seat) rowSeats)
  = freeInRow rowSeats
    + Z.of_nat (length (List.filter (fun seat => Screen.hasTicket seat ticket)
                                    rowSeats)).
Proof.
  unfold freeInRow. induction 1 as [|seat rest Hseat _ IH]; simpl; [lia|].
  destruct (Screen.hasTicket seat ticket) eqn:Hticket; simpl.
  - rewrite (hasTicket_booked seat ticket Hseat Hticket). simpl. lia.
  - destruct (Seat.isBooked seat); simpl; lia.
Qed.

Lemma freeInGrid_cancel ticket g : forall row,
  grid_clean g ->
  freeInGrid (map (map (fun seat => if Screen.hasTicket seat ticket
                                    then Seat.cancel seat else seat)) g)
  = freeInGrid g + Z.of_nat (length (Screen.cancelledIn g row ticket)).
Proof.
  induction g as [|rowSeats g IH]; intros row Hclean; simpl; [lia|].
  apply Forall_cons in Hclean as [Hrow Hclean].
  rewrite (IH (S row) Hclean), freeInRow_cancel by exact Hrow.
  rewrite length_app, length_cancelledInRow. lia.
Qed.

Lemma hasTicket_after_cancel seat ticket :
  Screen.hasTicket (if Screen.hasTicket seat ticket
                    then Seat.cancel seat else seat) ticket = false.
Proof.
  destruct (Screen.hasTicket seat ticket) eqn:Hticket;
    [reflexivity | exact Hticket].
Qed.

(** X22: the outcome of [Show.cancel].  For a ticket the show has not
    recorded it answers [false] and changes nothing.  For a recorded ticket
    it answers [true], forgets the ticket, and frees every seat of the
    screen that carries the ticket (whichever show booked it): afterwards no
    seat carries it, every other seat is as before, and on a screen whose
    free seats carry no ticket the free seat count rises by the number of
    seats [cancelSeats] reports. *)
Theorem cancel_outcome (sh : Show.t) (scr : Screen.t) (ticket : string) :
  (Show.bookedTickets sh !! ticket = None /\
   Show.cancel sh scr ticket = (false, sh, scr))
  \/ (is_Some (Show.bookedTickets sh !! ticket) /\
      exists sh' scr',
        Show.cancel sh scr ticket = (true, sh', scr') /\
        Show.bookedTickets sh' = delete ticket (Show.bookedTickets sh) /\
        shape (Screen.seats scr') = shape (Screen.seats scr) /\
        ticket_unused (Screen.seats scr') ticket /\
        (forall ref,
           Screen.seatAt scr' ref
           = (fun seat => if Screen.hasTicket seat ticket
                          then Seat.cancel seat else seat)
               <$> Screen.seatAt scr ref) /\
        (grid_clean (Screen.seats scr) ->
         Screen.getFreeSeatsCount scr'
         = Screen.getFreeSeatsCount scr
           + Z.of_nat (length (fst (Screen.cancelSeats scr ticket))))).
Proof.
  unfold Show.cancel.
  destruct (Show.bookedTickets sh !! ticket) as [refs|] eqn:Hrec.
  - right. split; [eexists; reflexivity|].
    eexists _, _. split; [reflexivity|]. split_and!.
    + reflexivity.
    + apply shape_map.
    + unfold ticket_unused. simpl. apply Forall_map.
      apply Forall_forall. intros rowSeats _. apply Forall_map.
      apply Forall_forall. intros seat _. apply hasTicket_after_cancel.
    + intros ref. rewrite !seatAt_gridAt. apply gridAt_map.
    + intros Hclean. rewrite !getFreeSeatsCount_sum. simpl.
      apply freeInGrid_cancel. exact Hclean.
  - left. split; reflexivity.
Qed.

(** ** Free seats carry no ticket *)

Lemma grid_clean_alter_book g r c ticket :
  grid_clean g ->
  grid_clean (alter (alter (fun seat => Seat.book seat ticket) c) r g).
Proof.
  intros Hclean. apply Forall_alter; [exact Hclean|].
  intros rowSeats _ Hrow. apply Forall_alter; [exact Hrow|].
  intros seat _ _. unfold seat_clean. simpl. discriminate.
Qed.

(** X23: a screen as constructed has no free seat with a ticket, and
    [Show.book] and [Show.cancel] keep it so. *)
Theorem free_seats_carry_no_ticket :
  (forall screenIndex rows columns,
     grid_clean (Screen.seats (Screen.new screenIndex rows columns))) /\
  (forall sh scr ticket count,
     grid_clean (Screen.seats scr) ->
     grid_clean (Screen.seats (snd (Show.book sh scr ticket count)))) /\
  (forall sh scr ticket,
     grid_clean (Screen.seats scr) ->
     grid_clean (Screen.seats (snd (Show.cancel sh scr ticket)))).
Proof.
  split_and!.
  - intros idx rows cols. unfold Screen.new. simpl.
    apply Forall_map. apply Forall_forall. intros r _.
    apply Forall_map. apply Forall_forall. intros c _ _. reflexivity.
  - intros sh scr ticket count Hclean. unfold Show.book.
    destruct (negb _); [exact Hclean|]. cbn [snd].
    unfold Screen.bookSeats. simpl.
    generalize (Screen.findBestSeats scr count) as refs.
    revert Hclean. generalize (Screen.seats scr) as g.
    intros g Hclean refs. revert g Hclean.
    induction refs as [|ref refs IH]; intros g Hclean; simpl; [exact Hclean|].
    apply IH. apply grid_clean_alter_book. exact Hclean.
  - intros sh scr ticket Hclean. unfold Show.cancel.
    destruct (Show.bookedTickets sh !! ticket); [|exact Hclean].
    simpl. apply Forall_map.
    eapply Forall_impl; [exact Hclean|]. intros rowSeats Hrow.
    apply Forall_map. eapply Forall_impl; [exact Hrow|].
    intros seat Hseat. simpl.
    destruct (Screen.hasTicket seat ticket); [|exact Hseat].
    intros _. reflexivity.
Qed.

(** * Properties of the booking system *)

(** The calls of the program's booking test return what its messages
    expect. *)
Example booking_test_results :
  MovieTicketBookingSystem.listCinemas test_system 0 1 = [] /\
  MovieTicketBookingSystem.listShows test_system 4 0 = [1] /\
  MovieTicketBookingSystem.listShows test_system 11 0 = [2] /\
  MovieTicketBookingSystem.getFreeSeatsCount test_system 1 = 50 /\
  fst (MovieTicketBookingSystem.bookTicket test_system "tkt-1" 1 4)
  = ["0-0"; "0-1"; "0-2"; "0-3"] /\
  MovieTicketBookingSystem.getFreeSeatsCount
    (snd (MovieTicketBookingSystem.bookTicket test_system "tkt-1" 1 4)) 1 = 46 /\
  fst (MovieTicketBookingSystem.cancelTicket
         (snd (MovieTicketBookingSystem.bookTicket test_system "tkt-1" 1 4))
         "tkt-1") = true /\
  fst (MovieTicketBookingSystem.bookTicket test_system "tkt-2" 1 100) = [] /\
  fst (MovieTicketBookingSystem.cancelTicket test_system "non-existent")
  = false /\
  MovieTicketBookingSystem.getFreeSeatsCount test_system 999 = 0.
Proof. vm_compute. repeat split; reflexivity. Qed.

(** ** The map *)

Lemma jsmap_get_set_eq {V} (m : list (Z * V)) k v :
  jsmap_get (jsmap_set m k v) k = Some v.
Proof.
  unfold jsmap_get, jsmap_set.
  destruct (existsb (fun p => fst p =? k) m) eqn:Hhas.
  - induction m as [|[k0 v0] m IH]; [discriminate|]. simpl in *.
    destruct (Z.eqb_spec k0 k) as [->|Hne]; simpl.
    + rewrite Z.eqb_refl. reflexivity.
    + destruct (Z.eqb_spec k0 k); [contradiction|]. apply IH. exact Hhas.
  - induction m as [|[k0 v0] m IH]; simpl in *.
    + rewrite Z.eqb_refl. reflexivity.
    + apply orb_false_iff in Hhas as [Hk0 Hhas]. rewrite Hk0. apply IH.
      exact Hhas.
Qed.

Lemma jsmap_get_set_ne {V} (m : list (Z * V)) k k' v :
  k <> k' -> jsmap_get (jsmap_set m k v) k' = jsmap_get m k'.
Proof.
  intros Hne. unfold jsmap_get, jsmap_set.
  destruct (existsb (fun p => fst p =? k) m).
  - induction m as [|[k0 v0] m IH]; [reflexivity|]. simpl.
    destruct (Z.eqb_spec k0 k) as [->|Hk0]; simpl.
    + destruct (Z.eqb_spec k k'); [contradiction|]. exact IH.
    + destruct (k0 =? k'); [reflexivity|]. exact IH.
  - induction m as [|[k0 v0] m IH]; simpl.
    + destruct (Z.eqb_spec k k'); [contradiction|]. reflexivity.
    + destruct (k0 =? k'); [reflexivity|]. exact IH.
Qed.

(** ** The sort *)

Lemma sort_insert_perm {A} (cmp : A -> A -> Z) x (l : list A) :
  Permutation (sort_insert cmp x l) (x :: l).
Proof.
  induction l as [|y l IH]; simpl; [reflexivity|].
  destruct (cmp x y <=? 0); [reflexivity|].
  rewrite IH. apply perm_swap.
Qed.

Lemma js_sort_perm {A} (cmp : A -> A -> Z) (l : list A) :
  Permutation (js_sort cmp l) l.
Proof.
  induction l as [|x l IH]; simpl; [reflexivity|].
  rewrite sort_insert_perm, IH. reflexivity.
Qed.

Lemma sort_insert_sorted {A} (cmp : A -> A -> Z) x (l : list A) :
  (forall a b, cmp a b <= 0 \/ cmp b a <= 0) ->
  Sorted (fun a b => cmp a b <= 0) l ->
  Sorted (fun a b => cmp a b <= 0) (sort_insert cmp x l).
Proof.
  intros Htotal. induction 1 as [|y l Hsorted IH Hhd]; simpl.
  { repeat constructor. }
  destruct (Z.leb_spec (cmp x y) 0) as [Hle|Hgt].
  - constructor; [constructor; assumption|]. constructor. exact Hle.
  - constructor; [exact IH|].
    destruct l as [|z l]; simpl.
    + constructor. destruct (Htotal x y); lia.
    + destruct (cmp x z <=? 0); constructor.
      * destruct (Htotal x y); lia.
      * inversion Hhd. assumption.
Qed.

Lemma js_sort_sorted {A} (cmp : A -> A -> Z) (l : list A) :
  (forall a b, cmp a b <= 0 \/ cmp b a <= 0) ->
  Sorted (fun a b => cmp a b <= 0) (js_sort cmp l).
Proof.
  intros Htotal. induction l as [|x l IH]; simpl; [constructor|].
  apply sort_insert_sorted; assumption.
Qed.

Lemma Sorted_weaken {A} (R R' : A -> A -> Prop) (l : list A) :
  (forall a b, R a b -> R' a b) -> Sorted R l -> Sorted R' l.
Proof.
  intros HR. induction 1 as [|x l Hsorted IH Hhd]; constructor; [exact IH|].
  destruct Hhd; constructor; auto.
Qed.

Lemma In_omap_lookup {A} (heap : list A) (addresses : list nat) (x : A) :
  In x (omap (fun a => heap !! a) addresses)
  <-> exists a, In a addresses /\ heap !! a = Some x.
Proof.
  rewrite <- list_elem_of_In, list_elem_of_omap.
  split; intros (a & Ha & Hx); exists a; split; try assumption;
    apply list_elem_of_In; assumption.
Qed.

(** ** The listings *)

(** X24: [listCinemas] returns cinema ids in ascending order: exactly the
    ids of the cinemas of the map that lie in the city and have a show of
    the movie. *)
Theorem listCinemas_sorted_exact
    (sys : MovieTicketBookingSystem.t) (movieId cityId : Z) :
  Sorted Z.le (MovieTicketBookingSystem.listCinemas sys movieId cityId) /\
  forall x,
    In x (MovieTicketBookingSystem.listCinemas sys movieId cityId) <->
    exists cinema,
      In cinema (jsmap_values (MovieTicketBookingSystem.cinemas sys)) /\
      Cinema.cinemaId cinema = x /\ Cinema.cityId cinema = cityId /\
      exists address show,
        In address (Cinema.shows cinema) /\
        MovieTicketBookingSystem.showHeap sys !! address = Some show /\
        Show.movieId show = movieId.
Proof.
  unfold MovieTicketBookingSystem.listCinemas. split.
  - eapply Sorted_weaken; [|apply js_sort_sorted].
    + intros a b Hab. simpl in Hab. lia.
    + intros a b. simpl. lia.
  - intros x. split.
    + intros Hin. apply (Permutation_in _ (js_sort_perm _ _)) in Hin.
      apply in_map_iff in Hin as (cinema & Hid & Hin).
      apply filter_In in Hin as [Hin Hsel].
      apply andb_true_iff in Hsel as [Hcity Hshow].
      apply Z.eqb_eq in Hcity.
      apply existsb_exists in Hshow as (show & Hshow & Hmovie).
      apply Z.eqb_eq in Hmovie.
      apply In_omap_lookup in Hshow as (address & Haddr & Hheap).
      exists cinema. split_and!; try assumption. eauto.
    + intros (cinema & Hin & Hid & Hcity & address & show & Haddr & Hheap
              & Hmovie).
      apply (Permutation_in _ (Permutation_sym (js_sort_perm _ _))).
      apply in_map_iff. exists cinema. split; [exact Hid|].
      apply filter_In. split; [exact Hin|].
      apply andb_true_iff. split; [apply Z.eqb_eq; exact Hcity|].
      apply existsb_exists. exists show. split; [|apply Z.eqb_eq; exact Hmovie].
      apply In_omap_lookup. eauto.
Qed.

Lemma compareShows_le a b :
  Cinema.compareShows a b <= 0 <->
  Show.startTime b < Show.startTime a
  \/ (Show.startTime a = Show.startTime b /\ Show.showId a <= Show.showId b).
Proof.
  unfold Cinema.compareShows.
  destruct (Z.eqb_spec (Show.startTime b) (Show.startTime a)); simpl; lia.
Qed.

(** X25: [listShows] of a cinema of the map returns the ids of the shows
    of that cinema for the movie, each show once per time it was added,
    latest start time first and, among shows that start together, lowest
    show id first. *)
Theorem listShows_order
    (sys : MovieTicketBookingSystem.t) (movieId cinemaId : Z)
    (cinema : Cinema.t) :
  jsmap_get (MovieTicketBookingSystem.cinemas sys) cinemaId = Some cinema ->
  exists shows,
    MovieTicketBookingSystem.listShows sys movieId cinemaId
    = map Show.showId shows /\
    Permutation shows
      (List.filter (fun show => Show.movieId show =? movieId)
         (omap (fun a => MovieTicketBookingSystem.showHeap sys !! a)
               (Cinema.shows cinema))) /\
    Sorted (fun a b =>
              Show.startTime b < Show.startTime a
              \/ (Show.startTime a = Show.startTime b
                  /\ Show.showId a <= Show.showId b)) shows.
Proof.
  intros Hcinema. unfold MovieTicketBookingSystem.listShows.
  rewrite Hcinema. eexists. split; [reflexivity|].
  unfold Cinema.getShowsForMovie. split; [apply js_sort_perm|].
  eapply Sorted_weaken; [|apply js_sort_sorted].
  - intros a b. apply compareShows_le.
  - intros a b. rewrite !compareShows_le. lia.
Qed.

Lemma listShows_order_witness :
  jsmap_get (MovieTicketBookingSystem.cinemas test_listing_system) 0
  = Some {| Cinema.cinemaId := 0; Cinema.cityId := 1;
            Cinema.screens := [0; 1]%nat;
            Cinema.shows := [0; 1; 2; 3; 4]%nat |}
  /\
  MovieTicketBookingSystem.listShows test_listing_system 4 0 = [3; 5; 9; 7]
  /\
  exists shows,
    MovieTicketBookingSystem.listShows test_listing_system 4 0
    = map Show.showId shows /\
    Permutation shows
      (List.filter (fun show => Show.movieId show =? 4)
         (omap (fun a =>
                  MovieTicketBookingSystem.showHeap test_listing_system !! a)
               [0; 1; 2; 3; 4]%nat)) /\
    Sorted (fun a b =>
              Show.startTime b < Show.startTime a
              \/ (Show.startTime a = Show.startTime b
                  /\ Show.showId a <= Show.showId b)) shows.
Proof.
  split; [reflexivity|]. split; [reflexivity|].
  apply (listShows_order test_listing_system 4 0
           {| Cinema.cinemaId := 0; Cinema.cityId := 1;
              Cinema.screens := [0; 1]%nat;
              Cinema.shows := [0; 1; 2; 3; 4]%nat |}).
  reflexivity.
Defined.

(** ** Shows and their screens *)

Lemma getFreeSeatsCount_new (screenIndex rows columns : Z) :
  Screen.getFreeSeatsCount (Screen.new screenIndex rows columns)
  = Z.max 0 rows * Z.max 0 columns.
Proof.
  rewrite getFreeSeatsCount_sum. unfold Screen.new. simpl.
  set (mkRow := fun r : nat =>
         map (fun c => Seat.new (Z.of_nat r) (Z.of_nat c))
             (seq 0 (Z.to_nat columns))).
  assert (H : forall n r0,
            freeInGrid (map mkRow (seq r0 n))
            = Z.of_nat n * Z.of_nat (Z.to_nat columns)).
  { induction n as [|n IH]; intros r0; simpl; [lia|].
    rewrite IH. unfold mkRow at 1. rewrite freeInRow_new. lia. }
  rewrite H. lia.
Qed.

(** X26: a show added on a screen of a cinema just added has every seat of
    that screen free: after [addCinema] with [screenCount] screens of
    [rows] by [columns] seats and [addShow] on a screen index between 1 and
    [screenCount], [getFreeSeatsCount] of the show is [rows * columns]
    (counts that are not positive taken as 0). *)
Theorem new_show_has_all_seats_free
    (sys : MovieTicketBookingSystem.t)
    (cinemaId cityId screenCount rows columns : Z)
    (showId movieId screenIndex startTime endTime : Z) :
  1 <= screenIndex <= screenCount ->
  MovieTicketBookingSystem.getFreeSeatsCount
    (MovieTicketBookingSystem.addShow
       (MovieTicketBookingSystem.addCinema sys cinemaId cityId screenCount
                                           rows columns)
       showId movieId cinemaId screenIndex startTime endTime)
    showId
  = Z.max 0 rows * Z.max 0 columns.
Proof.
  intros Hindex.
  unfold MovieTicketBookingSystem.addCinema, Cinema.new,
    MovieTicketBookingSystem.addShow.
  cbn [MovieTicketBookingSystem.cinemas MovieTicketBookingSystem.shows
       MovieTicketBookingSystem.screenHeap MovieTicketBookingSystem.showHeap].
  rewrite jsmap_get_set_eq. cbn [Cinema.screens]. rewrite length_seq.
  replace ((screenIndex <? 1) || (screenIndex >? Z.of_nat (Z.to_nat screenCount)))
    with false by (rewrite Z.gtb_ltb; zbool; simpl; try reflexivity; lia).
  rewrite lookup_seq_lt by lia.
  unfold MovieTicketBookingSystem.getFreeSeatsCount,
    MovieTicketBookingSystem.showOf.
  cbn [MovieTicketBookingSystem.cinemas MovieTicketBookingSystem.shows
       MovieTicketBookingSystem.screenHeap MovieTicketBookingSystem.showHeap].
  rewrite jsmap_get_set_eq. cbn [mbind option_bind].
  rewrite list_lookup_middle by reflexivity. cbn [mbind option_bind Show.screen].
  rewrite lookup_app_r by lia.
  replace (length (MovieTicketBookingSystem.screenHeap sys)
           + Z.to_nat (screenIndex - 1)
           - length (MovieTicketBookingSystem.screenHeap sys))%nat
    with (Z.to_nat (screenIndex - 1)) by lia.
  rewrite lookup_map, lookup_seq_lt by lia. cbn.
  apply (getFreeSeatsCount_new 0 rows columns).
Qed.

Lemma new_show_has_all_seats_free_witness :
  1 <= 3 <= 4 /\
  MovieTicketBookingSystem.getFreeSeatsCount
    (MovieTicketBookingSystem.addShow
       (MovieTicketBookingSystem.addCinema MovieTicketBookingSystem.init
                                           0 1 4 5 10)
       2 11 0 3 1710516108725 1710523308725)
    2
  = Z.max 0 5 * Z.max 0 10.
Proof.
  split; [lia|].
  apply (new_show_has_all_seats_free MovieTicketBookingSystem.init
           0 1 4 5 10 2 11 3 1710516108725 1710523308725).
  lia.
Defined.

Lemma showOf_Some sys showId address show screen :
  MovieTicketBookingSystem.showOf sys showId = Some (address, show, screen)
  <-> jsmap_get (MovieTicketBookingSystem.shows sys) showId = Some address /\
      MovieTicketBookingSystem.showHeap sys !! address = Some show /\
      MovieTicketBookingSystem.screenHeap sys !! Show.screen show = Some screen.
Proof.
  unfold MovieTicketBookingSystem.showOf. split.
  - destruct (jsmap_get _ showId) as [a|]; [|discriminate]. cbn.
    destruct (MovieTicketBookingSystem.showHeap sys !! a) as [sh|] eqn:Hsh;
      [|discriminate]. cbn.
    destruct (MovieTicketBookingSystem.screenHeap sys !! Show.screen sh)
      as [scr|] eqn:Hscr; [|discriminate]. cbn.
    intros Heq. injection Heq as <- <- <-. auto.
  - intros (-> & Hsh & Hscr). cbn. rewrite Hsh. cbn. rewrite Hscr. reflexivity.
Qed.

Lemma book_screen_ref sh scr ticket count :
  Show.screen (snd (fst (Show.book sh scr ticket count))) = Show.screen sh.
Proof. unfold Show.book. destruct (negb _); reflexivity. Qed.

Lemma book_free_count sh scr ticket count :
  0 <= count <= Screen.getFreeSeatsCount scr ->
  Screen.getFreeSeatsCount (snd (Show.book sh scr ticket count))
  = Screen.getFreeSeatsCount scr - count.
Proof.
  intros Hcount. rewrite getFreeSeatsCount_sum in Hcount.
  pose proof (proj2 (findBestSeats_length_iff scr count) Hcount) as Hlen.
  destruct (findBestSeats_facts scr count) as (Hnd & Hfree & _).
  unfold Show.book. rewrite (proj2 (Z.eqb_eq _ _) Hlen). cbn [negb snd].
  rewrite !getFreeSeatsCount_sum. unfold Screen.bookSeats. simpl.
  rewrite fold_book_count by assumption. lia.
Qed.

(** X27: shows on one screen share its seats.  When [bookTicket] books
    [count] seats for a show, [getFreeSeatsCount] of every show that is on
    the same screen object drops by [count], and that of every show on
    another screen stays as it was. *)
Theorem shows_on_one_screen_share_seats
    (sys : MovieTicketBookingSystem.t) (ticket : string) (a b count : Z)
    (addressA addressB : nat) (showA showB : Show.t)
    (screenA screenB : Screen.t) :
  MovieTicketBookingSystem.showOf sys a = Some (addressA, showA, screenA) ->
  MovieTicketBookingSystem.showOf sys b = Some (addressB, showB, screenB) ->
  0 <= count <= MovieTicketBookingSystem.getFreeSeatsCount sys a ->
  MovieTicketBookingSystem.getFreeSeatsCount
    (snd (MovieTicketBookingSystem.bookTicket sys ticket a count)) b
  = if decide (Show.screen showB = Show.screen showA)
    then MovieTicketBookingSystem.getFreeSeatsCount sys b - count
    else MovieTicketBookingSystem.getFreeSeatsCount sys b.
Proof.
  intros Ha Hb Hcount.
  unfold MovieTicketBookingSystem.getFreeSeatsCount in Hcount |- *.
  rewrite Ha in Hcount. rewrite Hb. unfold Show.getFreeSeatsCount in *.
  unfold MovieTicketBookingSystem.bookTicket. rewrite Ha.
  pose proof (book_screen_ref showA screenA ticket count) as Href.
  pose proof (book_free_count showA screenA ticket count Hcount) as Hfree.
  destruct (Show.book showA screenA ticket count) as [[labels show'] screen'].
  cbn [fst snd] in *.
  apply showOf_Some in Ha as (HaId & HaShow & HaScreen).
  apply showOf_Some in Hb as (HbId & HbShow & HbScreen).
  assert (Hshow : exists show,
    MovieTicketBookingSystem.showHeap
      (MovieTicketBookingSystem.store sys addressA show' screen') !! addressB
    = Some show /\ Show.screen show = Show.screen showB).
  { unfold MovieTicketBookingSystem.store. cbn.
    destruct (decide (addressA = addressB)) as [<-|Hne].
    - exists show'. split.
      + apply list_lookup_insert_eq. eapply lookup_lt_Some. exact HaShow.
      + rewrite Href. congruence.
    - exists showB. split; [|reflexivity].
      rewrite list_lookup_insert_ne by exact Hne. exact HbShow. }
  destruct Hshow as (show & Hshow & Hscreen).
  assert (Hscr :
    MovieTicketBookingSystem.screenHeap
      (MovieTicketBookingSystem.store sys addressA show' screen')
      !! Show.screen showB
    = Some (if decide (Show.screen showB = Show.screen showA)
            then screen' else screenB)).
  { unfold MovieTicketBookingSystem.store. cbn. rewrite Href.
    destruct (decide (Show.screen showB = Show.screen showA)) as [Heq|Hne].
    - rewrite Heq. apply list_lookup_insert_eq.
      eapply lookup_lt_Some. exact HaScreen.
    - rewrite list_lookup_insert_ne by congruence. exact HbScreen. }
  replace (MovieTicketBookingSystem.showOf
             (MovieTicketBookingSystem.store sys addressA show' screen') b)
    with (Some (addressB, show,
                if decide (Show.screen showB = Show.screen showA)
                then screen' else screenB)).
  - destruct (decide (Show.screen showB = Show.screen showA)) as [Heq|Hne];
      [|reflexivity].
    rewrite Hfree. rewrite Heq in HbScreen. congruence.
  - symmetry. apply showOf_Some. split_and!; [exact HbId | exact Hshow |].
    rewrite Hscreen. exact Hscr.
Qed.

Lemma shows_on_one_screen_share_seats_witness :
  MovieTicketBookingSystem.showOf test_shared_system 1
  = Some (0%nat,
          {| Show.showId := 1; Show.movieId := 4; Show.cinemaId := 0;
             Show.startTime := 1710516108725; Show.endTime := 1710523308725;
             Show.screen := 0; Show.bookedTickets := ∅ |},
          Screen.new 1 5 10) /\
  MovieTicketBookingSystem.showOf test_shared_system 2
  = Some (1%nat,
          {| Show.showId := 2; Show.movieId := 11; Show.cinemaId := 0;
             Show.startTime := 1710530000000; Show.endTime := 1710540000000;
             Show.screen := 0; Show.bookedTickets := ∅ |},
          Screen.new 1 5 10) /\
  0 <= 4 <= MovieTicketBookingSystem.getFreeSeatsCount test_shared_system 1 /\
  MovieTicketBookingSystem.getFreeSeatsCount
    (snd (MovieTicketBookingSystem.bookTicket test_shared_system "tkt-1" 1 4))
    2
  = MovieTicketBookingSystem.getFreeSeatsCount test_shared_system 2 - 4.
Proof.
  assert (H3 : 0 <= 4 <= MovieTicketBookingSystem.getFreeSeatsCount
                            test_shared_system 1)
    by (vm_compute; split; discriminate).
  split; [reflexivity|]. split; [reflexivity|]. split; [exact H3|].
  apply (shows_on_one_screen_share_seats test_shared_system "tkt-1" 1 2 4
           0%nat 1%nat _ _ (Screen.new 1 5 10) (Screen.new 1 5 10)
           eq_refl eq_refl H3).
Defined.

(** ** Unknown ids *)

Lemma cancelIn_unrecorded sys ticket : forall addresses,
  Forall (fun address =>
            forall show,
              MovieTicketBookingSystem.showHeap sys !! address = Some show ->
              Show.bookedTickets show !! ticket = None) addresses ->
  MovieTicketBookingSystem.cancelIn sys addresses ticket = (false, sys).
Proof.
  induction 1 as [|address rest Haddr _ IH]; cbn [MovieTicketBookingSystem.cancelIn];
    [reflexivity|].
  destruct (MovieTicketBookingSystem.showHeap sys !! address) as [show|];
    [|exact IH].
  destruct (MovieTicketBookingSystem.screenHeap sys !! Show.screen show)
    as [screen|]; [|exact IH].
  unfold Show.cancel. rewrite (Haddr show eq_refl). exact IH.
Qed.

(** X28: calls with ids the system does not know change nothing.
    [bookTicket] for an unknown show returns no seats and
    [getFreeSeatsCount] returns 0; [addShow] for an unknown cinema, or for a
    screen index below 1 or above the number of screens of the cinema, adds
    nothing; [listShows] of an unknown cinema is empty; [cancelTicket] of a
    ticket that no show has recorded returns [false]. *)
Theorem unknown_ids_change_nothing (sys : MovieTicketBookingSystem.t) :
  (forall showId ticket count,
     jsmap_get (MovieTicketBookingSystem.shows sys) showId = None ->
     MovieTicketBookingSystem.bookTicket sys ticket showId count = ([], sys) /\
     MovieTicketBookingSystem.getFreeSeatsCount sys showId = 0) /\
  (forall cinemaId showId movieId screenIndex startTime endTime,
     jsmap_get (MovieTicketBookingSystem.cinemas sys) cinemaId = None ->
     MovieTicketBookingSystem.addShow sys showId movieId cinemaId screenIndex
                                      startTime endTime = sys /\
     MovieTicketBookingSystem.listShows sys movieId cinemaId = []) /\
  (forall cinemaId cinema showId movieId screenIndex startTime endTime,
     jsmap_get (MovieTicketBookingSystem.cinemas sys) cinemaId = Some cinema ->
     screenIndex < 1 \/ Z.of_nat (length (Cinema.screens cinema)) < screenIndex ->
     MovieTicketBookingSystem.addShow sys showId movieId cinemaId screenIndex
                                      startTime endTime = sys) /\
  (forall ticket,
     Forall (fun address =>
               forall show,
                 MovieTicketBookingSystem.showHeap sys !! address = Some show ->
                 Show.bookedTickets show !! ticket = None)
            (jsmap_values (MovieTicketBookingSystem.shows sys)) ->
     MovieTicketBookingSystem.cancelTicket sys ticket = (false, sys)).
Proof.
  split_and!.
  - intros showId ticket count Hnone.
    unfold MovieTicketBookingSystem.bookTicket,
      MovieTicketBookingSystem.getFreeSeatsCount,
      MovieTicketBookingSystem.showOf.
    rewrite Hnone. split; reflexivity.
  - intros cinemaId showId movieId screenIndex startTime endTime Hnone.
    unfold MovieTicketBookingSystem.addShow, MovieTicketBookingSystem.listShows.
    rewrite Hnone. split; reflexivity.
  - intros cinemaId cinema showId movieId screenIndex startTime endTime
      Hcinema Hindex.
    unfold MovieTicketBookingSystem.addShow. rewrite Hcinema.
    replace ((screenIndex <? 1)
             || (screenIndex >? Z.of_nat (length (Cinema.screens cinema))))
      with true; [reflexivity|].
    rewrite Z.gtb_ltb. zbool; simpl; try reflexivity; lia.
  - intros ticket Hnone. apply cancelIn_unrecorded. exact Hnone.
Qed.

(** * The state strings of the lifts *)

Lemma string_app_length (s t : string) :
  String.length (s +:+ t) = (String.length s + String.length t)%nat.
Proof. induction s as [|c s IH]; simpl; [reflexivity|]. rewrite IH. reflexivity. Qed.

Lemma string_app_inj_tail (s1 : string) : forall s2 t1 t2,
  String.length t1 = String.length t2 ->
  s1 +:+ t1 = s2 +:+ t2 -> s1 = s2 /\ t1 = t2.
Proof.
  induction s1 as [|c1 s1 IH]; intros [|c2 s2] t1 t2 Hlen Heq;
    change (String ?c ?s +:+ ?t) with (String c (s +:+ t)) in Heq;
    change ("" +:+ ?t) with t in Heq.
  - auto.
  - exfalso. subst t1. simpl in Hlen.
    rewrite string_app_length in Hlen. lia.
  - exfalso. subst t2. simpl in Hlen.
    rewrite string_app_length in Hlen. lia.
  - injection Heq as -> Heq. destruct (IH s2 t1 t2 Hlen Heq) as [-> ->]. auto.
Qed.

(** The final states of the program's test script. *)
Example test_script_states :
  ElevatorSystem.getLiftStates (snd test_script_4) = ["2-U"; "1-U"].
Proof. vm_compute. reflexivity. Qed.

(** X29: the strings of [getLiftStates] tell the floor and the direction
    of the lifts: when the strings at two indices are the same, the two
    lifts stand on the same floor and have the same direction. *)
Theorem getLiftStates_tell_floor_and_direction
    (sys : ElevatorSystem.t) (i j : nat) (li lj : Lift.t) :
  ElevatorSystem.lifts sys !! i = Some li ->
  ElevatorSystem.lifts sys !! j = Some lj ->
  ElevatorSystem.getLiftStates sys !! i = ElevatorSystem.getLiftStates sys !! j ->
  Lift.currentFloor li = Lift.currentFloor lj /\
  Lift.direction li = Lift.direction lj.
Proof.
  unfold ElevatorSystem.getLiftStates.
  intros Hi Hj. rewrite !lookup_map, Hi, Hj. simpl.
  intros Heq. injection Heq as Heq. unfold ElevatorSystem.liftState in Heq.
  apply string_app_inj_tail in Heq as [Hfloor Hdir].
  - split; [apply (inj pretty); exact Hfloor|].
    destruct (Lift.direction li), (Lift.direction lj);
      try reflexivity; discriminate Hdir.
  - destruct (Lift.direction li), (Lift.direction lj); reflexivity.
Qed.

Lemma getLiftStates_tell_floor_and_direction_witness :
  ElevatorSystem.lifts (ElevatorSystem.init 6 2) !! 0%nat
  = Some (Lift.new 0 6) /\
  ElevatorSystem.lifts (ElevatorSystem.init 6 2) !! 1%nat
  = Some (Lift.new 1 6) /\
  ElevatorSystem.getLiftStates (ElevatorSystem.init 6 2) !! 0%nat
  = ElevatorSystem.getLiftStates (ElevatorSystem.init 6 2) !! 1%nat /\
  Lift.currentFloor (Lift.new 0 6) = Lift.currentFloor (Lift.new 1 6) /\
  Lift.direction (Lift.new 0 6) = Lift.direction (Lift.new 1 6).
Proof.
  split; [reflexivity|]. split; [reflexivity|]. split; [reflexivity|].
  apply (getLiftStates_tell_floor_and_direction
           (ElevatorSystem.init 6 2) 0%nat 1%nat
           (Lift.new 0 6) (Lift.new 1 6)); reflexivity.
Defined.

(** * The labels of booked seats *)

Lemma omap_all_Some {A B} (f : A -> option B) (g : A -> B) (xs : list A) :
  Forall (fun x => f x = Some (g x)) xs -> omap f xs = map g xs.
Proof.
  induction 1 as [|x xs Hx _ IH]; simpl; [reflexivity|].
  rewrite Hx. simpl. f_equal. exact IH.
Qed.

Lemma grid_placed_new screenIndex rows columns :
  grid_placed (Screen.seats (Screen.new screenIndex rows columns)).
Proof.
  intros [r c] seat. unfold gridAt, Screen.new. cbn [Screen.seats fst snd].
  rewrite lookup_map.
  destruct (seq 0 (Z.to_nat rows) !! r) as [r'|] eqn:Hr; [|discriminate].
  apply lookup_seq in Hr as [-> _]. cbn. rewrite lookup_map.
  destruct (seq 0 (Z.to_nat columns) !! c) as [c'|] eqn:Hc; [|discriminate].
  apply lookup_seq in Hc as [-> _]. cbn.
  intros Heq. injection Heq as <-. split; reflexivity.
Qed.

Lemma grid_placed_book g refs ticket :
  grid_placed g ->
  grid_placed
    (fold_left
       (fun g ref => alter (alter (fun seat => Seat.book seat ticket) (snd ref))
                           (fst ref) g) refs g).
Proof.
  intros Hplaced ref seat. rewrite fold_book_gridAt.
  destruct (decide (ref ∈ refs)); [|apply Hplaced].
  destruct (gridAt g ref) as [seat0|] eqn:Hseat; [|discriminate]. simpl.
  intros Heq. injection Heq as <-. apply (Hplaced ref seat0 Hseat).
Qed.

Lemma grid_placed_cancel g ticket :
  grid_placed g ->
  grid_placed
    (map (map (fun seat => if Screen.hasTicket seat ticket
                           then Seat.cancel seat else seat)) g).
Proof.
  intros Hplaced ref seat. rewrite gridAt_map.
  destruct (gridAt g ref) as [seat0|] eqn:Hseat; [|discriminate]. simpl.
  intros Heq. injection Heq as <-.
  destruct (Screen.hasTicket seat0 ticket); apply (Hplaced ref seat0 Hseat).
Qed.

Lemma pretty_N_go_no_dash (x : N) : forall s,
  no_dash s -> no_dash (pretty_N_go x s).
Proof.
  induction (N.lt_wf_0 x) as [x _ IH]; intros s Hs.
  assert (x = 0 \/ 0 < x)%N as [->|Hpos] by lia.
  - rewrite pretty_N_go_0. exact Hs.
  - rewrite pretty_N_go_step by exact Hpos. apply IH.
    + apply N.div_lt; [exact Hpos | reflexivity].
    + split; [|exact Hs]. unfold pretty_N_char.
      repeat case_match; discriminate.
Qed.

Lemma pretty_nat_no_dash (n : nat) : no_dash (pretty (Z.of_nat n)).
Proof.
  unfold pretty, pretty_Z. destruct (Z.of_nat n) as [|p|p] eqn:Hn; [| |lia].
  - simpl. split; [discriminate|exact I].
  - unfold pretty, pretty_positive, pretty, pretty_N.
    destruct (decide (N.pos p = 0%N)); [discriminate|].
    apply pretty_N_go_no_dash. exact I.
Qed.

Lemma dash_split (s1 : string) : forall s2 t1 t2,
  no_dash s1 -> no_dash s2 ->
  s1 +:+ ("-" +:+ t1) = s2 +:+ ("-" +:+ t2) -> s1 = s2 /\ t1 = t2.
Proof.
  induction s1 as [|c1 s1 IH]; intros [|c2 s2] t1 t2 H1 H2 Heq;
    repeat change (String ?c ?s +:+ ?t) with (String c (s +:+ t)) in Heq;
    repeat change ("" +:+ ?t) with t in Heq.
  - injection Heq as ->. auto.
  - injection Heq as Hc _. destruct H2 as [H2 _]. exfalso. apply H2.
    rewrite <- Hc. reflexivity.
  - injection Heq as Hc _. destruct H1 as [H1 _]. exfalso. apply H1.
    rewrite Hc. reflexivity.
  - injection Heq as -> Heq. destruct H1 as [_ H1]. destruct H2 as [_ H2].
    destruct (IH s2 t1 t2 H1 H2 Heq) as [-> ->]. auto.
Qed.

Lemma placeLabel_inj (ref1 ref2 : SeatRef) :
  placeLabel ref1 = placeLabel ref2 -> ref1 = ref2.
Proof.
  destruct ref1 as [r1 c1], ref2 as [r2 c2]. unfold placeLabel. cbn [fst snd].
  intros Heq.
  apply dash_split in Heq as [Hr Hc]; try apply pretty_nat_no_dash.
  apply (inj pretty) in Hr. apply (inj pretty) in Hc.
  f_equal; lia.
Qed.

(** X30: the labels [Show.book] returns name the seats it booked.  On a
    screen whose seats carry their own place as row and column, as on a
    screen just constructed, and [Show.book] and [Show.cancel] keep it so,
    a booking of [count] seats the screen has free returns, in the order of
    the seats found, the label [row-column] of each of them; the labels are
    pairwise different. *)
Theorem book_labels_name_the_seats
    (sh : Show.t) (scr : Screen.t) (ticket : string) (count : Z) :
  grid_placed (Screen.seats scr) ->
  0 <= count <= Screen.getFreeSeatsCount scr ->
  fst (fst (Show.book sh scr ticket count))
  = map placeLabel (Screen.findBestSeats scr count) /\
  NoDup (fst (fst (Show.book sh scr ticket count))) /\
  grid_placed (Screen.seats (snd (Show.book sh scr ticket count))) /\
  grid_placed (Screen.seats (snd (Show.cancel sh scr ticket))).
Proof.
  intros Hplaced Hcount. rewrite getFreeSeatsCount_sum in Hcount.
  pose proof (proj2 (findBestSeats_length_iff scr count) Hcount) as Hlen.
  destruct (findBestSeats_facts scr count) as (Hnd & Hfree & _).
  assert (Hlabels :
    fst (fst (Show.book sh scr ticket count))
    = map placeLabel (Screen.findBestSeats scr count)).
  { unfold Show.book. rewrite (proj2 (Z.eqb_eq _ _) Hlen). cbn [negb fst].
    unfold Show.seatLabels. apply omap_all_Some.
    apply Forall_forall. intros ref Hin.
    rewrite seatAt_gridAt. unfold Screen.bookSeats. cbn [Screen.seats Screen.setSeats].
    rewrite fold_book_gridAt, decide_True by exact Hin.
    destruct (proj1 (Forall_forall _ _) Hfree ref Hin) as (seat & Hseat & _).
    rewrite Hseat. cbn. f_equal.
    destruct (Hplaced ref seat Hseat) as [Hrow Hcol].
    unfold Seat.toString, placeLabel. cbn. rewrite Hrow, Hcol. reflexivity. }
  split_and!.
  - exact Hlabels.
  - rewrite Hlabels. apply NoDup_fmap_2_strong; [|exact Hnd].
    intros ref1 ref2 _ _ Heq. apply placeLabel_inj. exact Heq.
  - unfold Show.book. destruct (negb _); [exact Hplaced|].
    cbn [snd]. apply grid_placed_book. exact Hplaced.
  - unfold Show.cancel. destruct (Show.bookedTickets sh !! ticket);
      [|exact Hplaced].
    cbn [snd]. apply grid_placed_cancel. exact Hplaced.
Qed.

Lemma book_labels_name_the_seats_witness :
  grid_placed (Screen.seats (Screen.new 1 5 10)) /\
  0 <= 4 <= Screen.getFreeSeatsCount (Screen.new 1 5 10) /\
  fst (fst (Show.book test_show (Screen.new 1 5 10) "tkt-1" 4))
  = map placeLabel (Screen.findBestSeats (Screen.new 1 5 10) 4) /\
  NoDup (fst (fst (Show.book test_show (Screen.new 1 5 10) "tkt-1" 4))) /\
  grid_placed
    (Screen.seats (snd (Show.book test_show (Screen.new 1 5 10) "tkt-1" 4))) /\
  grid_placed
    (Screen.seats (snd (Show.cancel test_show (Screen.new 1 5 10) "tkt-1"))).
Proof.
  assert (H2 : 0 <= 4 <= Screen.getFreeSeatsCount (Screen.new 1 5 10))
    by (vm_compute; split; discriminate).
  split; [apply grid_placed_new|]. split; [exact H2|].
  apply (book_labels_name_the_seats test_show (Screen.new 1 5 10) "tkt-1" 4);
    [apply grid_placed_new | exact H2].
Defined.

